(** * hdr-sucks: a shallow embedding of [index.js]

    The development follows the layout of the program:
    - [JS]: the fragment of the JavaScript runtime the program relies on
      (strings, IEEE-754 numbers, truthiness, [Number], [Math.round], ...);
    - the pure translators ([parse_slash_number], [parse_pix_fmt],
      [parse_master_display], [toHHMMSS], [find], [average_of],
      [get_duration]);
    - the effectful stages ([run_ffprobe], [transcode], [pre_hdr],
      [post_hdr], [mkvmerge], [main]) over an explicit trace of the
      processes spawned, files removed and lines printed.

    Numbers are binary64 floats ([PrimFloat.float]); strings are byte
    strings ([String.string]). *)

From Stdlib Require Import ZArith List String Ascii Bool Floats Lia.
Import ListNotations.

Local Open Scope string_scope.
Local Open Scope Z_scope.

(* ================================================================== *)
(** * The JavaScript runtime fragment *)
(* ================================================================== *)

Module JS.

(** ** Strings *)

Definition is_digit (c : ascii) : bool :=
  let n := N_of_ascii c in (48 <=? n)%N && (n <=? 57)%N.

(** ECMAScript WhiteSpace and LineTerminator code points below 128. *)
Definition is_space (c : ascii) : bool :=
  let n := N_of_ascii c in
  (n =? 9)%N || (n =? 10)%N || (n =? 11)%N || (n =? 12)%N || (n =? 13)%N || (n =? 32)%N.

Definition lower_char (c : ascii) : ascii :=
  let n := N_of_ascii c in
  if (65 <=? n)%N && (n <=? 90)%N then ascii_of_N (n + 32) else c.

(** [String.prototype.toLowerCase]. *)
Fixpoint toLowerCase (s : string) : string :=
  match s with
  | EmptyString => EmptyString
  | String c r => String (lower_char c) (toLowerCase r)
  end.

(** [String.prototype.startsWith]. *)
Fixpoint startsWith (s p : string) : bool :=
  match p, s with
  | EmptyString, _ => true
  | String _ _, EmptyString => false
  | String a p', String b s' => Ascii.eqb a b && startsWith s' p'
  end.

(** [String.prototype.includes]. *)
Fixpoint includes (s sub : string) : bool :=
  startsWith s sub ||
  match s with
  | EmptyString => false
  | String _ r => includes r sub
  end.

(** [s.split(sep)] for a one-character separator: always at least one
    piece. *)
Fixpoint split (sep : ascii) (s : string) : list string :=
  match s with
  | EmptyString => [EmptyString]
  | String c r =>
      if Ascii.eqb c sep then EmptyString :: split sep r
      else match split sep r with
           | [] => [String c EmptyString]
           | p :: ps => String c p :: ps
           end
  end.

(** [s.replace(/\D/g, "")]: keep the decimal digits. *)
Fixpoint digits_only (s : string) : string :=
  match s with
  | EmptyString => EmptyString
  | String c r => if is_digit c then String c (digits_only r) else digits_only r
  end.

(** [s.replace(/ /g, "")] and [s.replace(/\r/g, "")]. *)
Fixpoint remove_char (x : ascii) (s : string) : string :=
  match s with
  | EmptyString => EmptyString
  | String c r => if Ascii.eqb c x then remove_char x r else String c (remove_char x r)
  end.

Fixpoint trimStart (s : string) : string :=
  match s with
  | EmptyString => EmptyString
  | String c r => if is_space c then trimStart r else s
  end.

Fixpoint rev_string (s acc : string) : string :=
  match s with
  | EmptyString => acc
  | String c r => rev_string r (String c acc)
  end.

Definition trimEnd (s : string) : string :=
  rev_string (trimStart (rev_string s EmptyString)) EmptyString.

(** [String.prototype.trim]. *)
Definition trim (s : string) : string := trimEnd (trimStart s).

(** [arr.join(sep)]. *)
Fixpoint join (sep : string) (l : list string) : string :=
  match l with
  | [] => EmptyString
  | [x] => x
  | x :: r => x ++ sep ++ join sep r
  end.

(** Longest prefix of decimal digits, and what follows it. *)
Fixpoint span_digits (s : string) : string * string :=
  match s with
  | EmptyString => (EmptyString, EmptyString)
  | String c r =>
      if is_digit c then let (d, t) := span_digits r in (String c d, t)
      else (EmptyString, s)
  end.

Definition str_nonempty (s : string) : bool :=
  match s with EmptyString => false | _ => true end.

(** ** Numbers *)

Definition digit_val (c : ascii) : Z := Z.of_N (N_of_ascii c) - 48.

Fixpoint digits_val (s : string) (acc : Z) : Z :=
  match s with
  | EmptyString => acc
  | String c r => digits_val r (10 * acc + digit_val c)
  end.

(** The binary64 value nearest to [(-1)^neg * p / q] (ties to even),
    for [0 <= p] and [0 < q].  The quotient is taken with at least 63
    significant bits and a sticky bit, then rounded once. *)
Definition float_of_Q (neg : bool) (p q : Z) : float :=
  if p =? 0 then (if neg then neg_zero else zero) else
  let k := Z.max 0 (64 + Z.log2 q - Z.log2 p) in
  let n := p * 2 ^ k in
  let m := n / q in
  let sticky := if n mod q =? 0 then 0 else 1 in
  SF2Prim (binary_normalize prec emax (cond_Zopp neg (2 * m + sticky)) (- k - 1) neg).

(** The value of the decimal literal [m * 10^e]. *)
Definition float_of_dec (neg : bool) (m e : Z) : float :=
  if 0 <=? e then float_of_Q neg (m * 10 ^ e) 1 else float_of_Q neg m (10 ^ (- e)).

Definition float_of_Z (z : Z) : float :=
  float_of_Q (z <? 0) (Z.abs z) 1.

Definition isNaN (x : float) : bool := PrimFloat.is_nan x.

(** [ExponentPart] followed by the end of the literal. *)
Definition parse_exponent (s : string) : option Z :=
  match s with
  | EmptyString => Some 0
  | String c r =>
      if Ascii.eqb c "e" || Ascii.eqb c "E" then
        let '(neg, r') :=
          match r with
          | String "-" t => (true, t)
          | String "+" t => (false, t)
          | _ => (false, r)
          end in
        let (ds, rest) := span_digits r' in
        if str_nonempty ds && negb (str_nonempty rest)
        then Some (cond_Zopp neg (digits_val ds 0)) else None
      else None
  end.

(** [StrUnsignedDecimalLiteral] other than [Infinity], as mantissa and
    power of ten. *)
Definition parse_unsigned_decimal (s : string) : option (Z * Z) :=
  let (ip, r1) := span_digits s in
  match r1 with
  | String "." r2 =>
      let (fp, r3) := span_digits r2 in
      if negb (str_nonempty ip) && negb (str_nonempty fp) then None
      else match parse_exponent r3 with
           | Some e => Some (digits_val (ip ++ fp) 0, e - Z.of_nat (String.length fp))
           | None => None
           end
  | _ =>
      if str_nonempty ip then
        match parse_exponent r1 with
        | Some e => Some (digits_val ip 0, e)
        | None => None
        end
      else None
  end.

Definition radix_digit (radix : Z) (c : ascii) : option Z :=
  let n := Z.of_N (N_of_ascii c) in
  let v := if (48 <=? n) && (n <=? 57) then n - 48
           else if (97 <=? n) && (n <=? 102) then n - 87
           else if (65 <=? n) && (n <=? 70) then n - 55
           else radix in
  if v <? radix then Some v else None.

Fixpoint radix_val (radix : Z) (s : string) (acc : Z) : option Z :=
  match s with
  | EmptyString => Some acc
  | String c r =>
      match radix_digit radix c with
      | Some v => radix_val radix r (radix * acc + v)
      | None => None
      end
  end.

(** [NonDecimalIntegerLiteral]: [0x], [0o], [0b] and their digits. *)
Definition parse_nondecimal (s : string) : option Z :=
  match s with
  | String "0" (String p r) =>
      let radix :=
        if Ascii.eqb p "x" || Ascii.eqb p "X" then 16
        else if Ascii.eqb p "o" || Ascii.eqb p "O" then 8
        else if Ascii.eqb p "b" || Ascii.eqb p "B" then 2
        else 0 in
      if (radix =? 0) || negb (str_nonempty r) then None else radix_val radix r 0
  | _ => None
  end.

(** [Number(s)] for a string [s] (StringToNumber). *)
Definition Number (s : string) : float :=
  let t := trim s in
  if negb (str_nonempty t) then zero else
  match parse_nondecimal t with
  | Some z => float_of_Z z
  | None =>
      let '(neg, u) :=
        match t with
        | String "-" r => (true, r)
        | String "+" r => (false, r)
        | _ => (false, t)
        end in
      if String.eqb u "Infinity" then (if neg then neg_infinity else infinity)
      else match parse_unsigned_decimal u with
           | Some (m, e) => float_of_dec neg m e
           | None => nan
           end
  end.

(** ** Number to string *)

Fixpoint Z_digits_aux (fuel : nat) (z : Z) (acc : string) : string :=
  match fuel with
  | O => acc
  | S f =>
      let acc' := String (ascii_of_N (Z.to_N (48 + z mod 10))) acc in
      if z <? 10 then acc' else Z_digits_aux f (z / 10) acc'
  end.

(** Decimal digits of a natural number. *)
Definition Z_digits (z : Z) : string :=
  Z_digits_aux (S (Z.to_nat (Z.log2 z))) z EmptyString.

Fixpoint zeros (n : nat) : string :=
  match n with O => EmptyString | S k => String "0" (zeros k) end.

Fixpoint dec_exp_down (fuel : nat) (P Q j : Z) : Z :=
  match fuel with
  | O => j
  | S f => if Q <=? P * 10 ^ j then j else dec_exp_down f P Q (j + 1)
  end.

(** The [n] with [10^(n-1) <= P/Q < 10^n], for a positive binary64
    value [P/Q]. *)
Definition dec_exp (P Q : Z) : Z :=
  if Q <=? P then Z.of_nat (String.length (Z_digits (P / Q)))
  else 1 - dec_exp_down 400 P Q 1.

(** Search for the shortest digit string [s] (of [k] digits) and the
    exponent [n] with [s * 10^(n-k)] reading back as [x], the closest to
    [x] among those of that length (Number::toString, step 5). *)
Fixpoint shortest (fuel : nat) (x : float) (P Q n k : Z) : Z * Z * Z :=
  match fuel with
  | O => (0, k, n)
  | S f =>
      let '(a, b) := if n <=? k then (P * 10 ^ (k - n), Q) else (P, Q * 10 ^ (n - k)) in
      let lo := a / b in
      let hi := lo + 1 in
      let back s := PrimFloat.Leibniz.eqb (float_of_dec false s (n - k)) x in
      let ok_lo := back lo in
      let ok_hi := back hi in
      let pick_hi := if hi =? 10 ^ k then (1, 1, n + 1) else (hi, k, n) in
      if ok_lo && ok_hi then
        match (a - lo * b) ?= (hi * b - a) with
        | Lt => (lo, k, n)
        | Gt => pick_hi
        | Eq => if Z.even lo then (lo, k, n) else pick_hi
        end
      else if ok_lo then (lo, k, n)
      else if ok_hi && ((k =? 1) || negb (hi =? 10 ^ k)) then pick_hi
      else shortest f x P Q n (k + 1)
  end.

Definition split_at (n : nat) (s : string) : string * string :=
  (substring 0 n s, substring n (String.length s - n) s).

(** Number::toString for a positive finite value [m * 2^e]. *)
Definition pos_to_string (x : float) (m e : Z) : string :=
  let '(P, Q) := if 0 <=? e then (m * 2 ^ e, 1) else (m, 2 ^ (- e)) in
  let '(s, k, n) := shortest 17 x P Q (dec_exp P Q) 1 in
  let ds := Z_digits s in
  if (k <=? n) && (n <=? 21) then ds ++ zeros (Z.to_nat (n - k))
  else if (0 <? n) && (n <=? 21) then
    let (i, f) := split_at (Z.to_nat n) ds in i ++ "." ++ f
  else if (-6 <? n) && (n <=? 0) then "0." ++ zeros (Z.to_nat (- n)) ++ ds
  else
    let ex := (if n - 1 <? 0 then "-" else "+") ++ Z_digits (Z.abs (n - 1)) in
    if k =? 1 then ds ++ "e" ++ ex
    else let (i, f) := split_at 1 ds in i ++ "." ++ f ++ "e" ++ ex.

(** Number::toString (radix 10), as used by template literals, string
    concatenation and [Array.prototype.join]. *)
Definition num_to_string (x : float) : string :=
  match Prim2SF x with
  | S754_nan => "NaN"
  | S754_zero _ => "0"
  | S754_infinity s => if s then "-Infinity" else "Infinity"
  | S754_finite s m e =>
      (if s then "-" else "") ++ pos_to_string (PrimFloat.abs x) (Zpos m) e
  end.

(** ** Math and arithmetic on numbers *)

Definition signed_zero (neg : bool) : float := if neg then neg_zero else zero.

(** [Math.round]: nearest integer, ties towards +infinity. *)
Definition Math_round (x : float) : float :=
  match Prim2SF x with
  | S754_finite s m e =>
      if 0 <=? e then x else
      let d := 2 ^ (- e) in
      let r := (2 * cond_Zopp s (Zpos m) + d) / (2 * d) in
      if r =? 0 then signed_zero s else float_of_Z r
  | _ => x
  end.

(** [Math.floor]. *)
Definition Math_floor (x : float) : float :=
  match Prim2SF x with
  | S754_finite s m e =>
      if 0 <=? e then x else
      let r := cond_Zopp s (Zpos m) / 2 ^ (- e) in
      if r =? 0 then signed_zero s else float_of_Z r
  | _ => x
  end.

(** [Math.ceil]. *)
Definition Math_ceil (x : float) : float :=
  match Prim2SF x with
  | S754_finite s m e =>
      if 0 <=? e then x else
      let r := - (cond_Zopp (negb s) (Zpos m) / 2 ^ (- e)) in
      if r =? 0 then signed_zero s else float_of_Z r
  | _ => x
  end.

(** The [%] operator: remainder of the truncating division, with the
    sign of the dividend. *)
Definition rem (x y : float) : float :=
  match Prim2SF x, Prim2SF y with
  | S754_nan, _ | _, S754_nan => nan
  | S754_infinity _, _ => nan
  | _, S754_zero _ => nan
  | _, S754_infinity _ => x
  | S754_zero _, _ => x
  | S754_finite sx mx ex, S754_finite _ my ey =>
      let e := Z.min ex ey in
      let r := (Zpos mx * 2 ^ (ex - e)) mod (Zpos my * 2 ^ (ey - e)) in
      if 0 <=? e then float_of_Q sx (r * 2 ^ e) 1 else float_of_Q sx r (2 ^ (- e))
  end.

(** [parseInt(s, 10)]. *)
Definition parseInt10 (s : string) : float :=
  let t := trimStart s in
  let '(neg, u) :=
    match t with
    | String "-" r => (true, r)
    | String "+" r => (false, r)
    | _ => (false, t)
    end in
  let (ds, _) := span_digits u in
  if str_nonempty ds then float_of_Q neg (digits_val ds 0) 1 else nan.

(** ** Values

    The values the program reads out of parsed JSON and option records.
    An object or array is kept only through its string conversion: the
    program never looks inside the ones it meets in these positions. *)

Inductive value : Type :=
| VUndefined
| VNull
| VBool (b : bool)
| VNumber (x : float)
| VString (s : string)
| VObject (repr : string).

(** ToBoolean. *)
Definition truthy (v : value) : bool :=
  match v with
  | VUndefined | VNull => false
  | VBool b => b
  | VNumber x => negb (PrimFloat.is_zero x || PrimFloat.is_nan x)
  | VString s => str_nonempty s
  | VObject _ => true
  end.

(** ToString. *)
Definition to_string (v : value) : string :=
  match v with
  | VUndefined => "undefined"
  | VNull => "null"
  | VBool b => if b then "true" else "false"
  | VNumber x => num_to_string x
  | VString s => s
  | VObject repr => repr
  end.

(** ToNumber. *)
Definition to_number (v : value) : float :=
  match v with
  | VUndefined => nan
  | VNull => zero
  | VBool b => if b then one else zero
  | VNumber x => x
  | VString s => Number s
  | VObject repr => Number repr
  end.

(** [v === "lit"]. *)
Definition is_string (v : value) (lit : string) : bool :=
  match v with
  | VString s => String.eqb s lit
  | _ => false
  end.

End JS.

Import JS.

(* ================================================================== *)
(** * Data model: the probe tool's JSON, as the program reads it *)
(* ================================================================== *)

(** What a [throw], a rejected promise or a runtime fault carries. *)
Inductive exn : Type :=
| Error (msg : string)       (* [new Error(msg)] *)
| TypeError                  (* raised by the runtime: a property of
                                [undefined] read, a non-function called *)
| SyntaxError                (* raised by [JSON.parse] *)
| Message (msg : string).    (* a plain string: [rej(msg)], [err(msg)] *)

Inductive res (A : Type) : Type :=
| Ret (a : A)
| Throw (e : exn).
Arguments Ret {A} a.
Arguments Throw {A} e.

(** One entry of a [side_data_list].  Fields absent from the JSON are
    [VUndefined]. *)
Record side_data : Type := {
  side_data_type : value;
  green_x : value; green_y : value;
  blue_x : value; blue_y : value;
  red_x : value; red_y : value;
  white_point_x : value; white_point_y : value;
  max_luminance : value; min_luminance : value;
  max_content : value; max_average : value
}.

Record disposition : Type := {
  disp_default : value;
  disp_forced : value;
  disp_hearing_impaired : value;
  disp_visual_impaired : value;
  disp_descriptions : value;
  disp_original : value;
  disp_comment : value
}.

(** A stream descriptor.  [tags] lists the entries in the order
    [Object.entries] yields them. *)
Record stream : Type := {
  index : value;
  codec_type : value;
  pix_fmt : value;
  r_frame_rate : value;
  field_order : value;
  range : value;
  color_range : value;
  color_primaries : value;
  color_transfer : value;
  color_space : value;
  duration : value;
  tags : option (list (string * value));
  stream_disposition : option disposition;
  stream_side_data_list : option (list side_data)
}.

Record frame : Type := {
  frame_side_data_list : option (list side_data)
}.

Record format : Type := {
  format_duration : value
}.

(** [{csp, depth}], the result of [parse_pix_fmt]. *)
Record pix_fmt_info : Type := {
  csp : string;
  depth : string
}.

(* ================================================================== *)
(** * The pure translators *)
(* ================================================================== *)

Local Open Scope float_scope.

(** "safe" numerator/denominator parser (index.js, [parse_slash_number]). *)
Definition parse_slash_number (input : string) : float :=
  let s := split "/" input in
  if (List.length s <? 2)%nat then Number input
  else if (2 <? List.length s)%nat
          || isNaN (Number (nth 0 s EmptyString))
          || isNaN (Number (nth 1 s EmptyString))
  then nan
  else Number (nth 0 s EmptyString) / Number (nth 1 s EmptyString).

(** [parse_slash_number] applied to a value of any type: [input.split]
    exists on strings only. *)
Definition parse_slash_number_v (input : value) : res float :=
  match input with
  | VString s => Ret (parse_slash_number s)
  | _ => Throw TypeError
  end.

(** parse the pix_fmt to input data for x265 (index.js, [parse_pix_fmt]).
    [s[0]] always exists; [s[1]] is [undefined] when the input has no
    "p", and [undefined.replace] faults. *)
Definition parse_pix_fmt (input : string) : res pix_fmt_info :=
  if negb (includes input "yuv") then Throw (Error "Input must be YUV")
  else
    let s := split "p" input in
    match nth_error s 1 with
    | None => Throw TypeError
    | Some s1 =>
        Ret {| csp := "i" ++ digits_only (nth 0 s EmptyString);
               depth := if str_nonempty (digits_only s1) then digits_only s1 else "8" |}
    end.

Definition parse_pix_fmt_v (input : value) : res pix_fmt_info :=
  match input with
  | VString s => parse_pix_fmt s
  | _ => Throw TypeError
  end.

(** The array [list] built at the head of [parse_master_display]. *)
Definition master_display_fields (p : side_data) : list value :=
  [green_x p; green_y p; blue_x p; blue_y p; red_x p; red_y p;
   white_point_x p; white_point_y p; max_luminance p; min_luminance p].

(** The [for (const i in list)] loop of [parse_master_display]: [i] is
    the index of the head of [l], [o] the values pushed so far. *)
Fixpoint master_display_loop (i : nat) (l : list value) (o : list float)
  : res (list float) :=
  match l with
  | [] => Ret o
  | v :: rest =>
      if negb (truthy v) then Throw (Error "this wrong")
      else match parse_slash_number_v v with
           | Throw e => Throw e
           | Ret num =>
               if isNaN num then Throw (Error "this wrong")
               else master_display_loop (S i) rest
                      (o ++ [Math_round (num * (if (7 <? i)%nat then 10000 else 50000))])
           end
  end.

(** [o[k]] inside a template literal. *)
Definition item (o : list float) (k : nat) : string :=
  match nth_error o k with
  | Some x => num_to_string x
  | None => "undefined"
  end.

Definition master_display_string (o : list float) : string :=
  "G(" ++ item o 0 ++ "," ++ item o 1 ++ ")B(" ++ item o 2 ++ "," ++ item o 3
  ++ ")R(" ++ item o 4 ++ "," ++ item o 5 ++ ")WP(" ++ item o 6 ++ "," ++ item o 7
  ++ ")L(" ++ item o 8 ++ "," ++ item o 9 ++ ")".

(** parse mastering display data for x265 (index.js,
    [parse_master_display]). *)
Definition parse_master_display (p : side_data) : res string :=
  match master_display_loop 0 (master_display_fields p) [] with
  | Throw e => Throw e
  | Ret o => Ret (master_display_string o)
  end.

(** [v < 10 ? "0" + v : v], then the string conversion [join] applies. *)
Definition pad2 (v : float) : string :=
  if PrimFloat.ltb v 10 then "0" ++ num_to_string v else num_to_string v.

(** seconds to HH:MM:SS (index.js, [toHHMMSS]). *)
Definition toHHMMSS (secs : float) : string :=
  let sec_num := parseInt10 (num_to_string secs) in
  let hours := Math_floor (sec_num / 3600) in
  let minutes := rem (Math_floor (sec_num / 60)) 60 in
  let seconds := rem sec_num 60 in
  join ":" (map pad2 [hours; minutes; seconds]).

(** quick side_data finder for stream or frame (index.js, [find]). *)
Definition find (sd : option (list side_data)) (type : string) : option side_data :=
  match sd with
  | Some l =>
      if (0 <? List.length l)%nat
      then List.find (fun a => is_string (side_data_type a) type) l
      else None
  | None => None
  end.

(** average calc for number array (index.js, [average_of]). *)
Definition average_of (arr : list float) : float :=
  fold_left PrimFloat.add arr 0 / float_of_Z (Z.of_nat (List.length arr)).

Section Duration.

(** [Date.parse], whose reading of a string outside the ISO date-time
    format is left to the engine. *)
Variable Date_parse : string -> float.

(** The [for (const [k, v] of Object.entries(stream.tags))] loop of
    [get_duration]. *)
Fixpoint get_duration_tags (entries : list (string * value)) (fmt : option format)
  : res float :=
  match entries with
  | [] => Ret nan
  | (k, v) :: rest =>
      if startsWith (toLowerCase k) "duration"
      then Ret (Date_parse ("1970-01-01T" ++ to_string v ++ "Z") / 1000)
      else match fmt with
           | None => Throw TypeError
           | Some f =>
               if truthy (format_duration f) then Ret (to_number (format_duration f))
               else get_duration_tags rest fmt
           end
  end.

(** get duration from ffprobe data (index.js, [get_duration]). *)
Definition get_duration (st : stream) (fmt : option format) : res float :=
  if truthy (duration st) then Ret (to_number (duration st))
  else match tags st with
       | Some entries => get_duration_tags entries fmt
       | None => Ret nan
       end.

End Duration.

(* ================================================================== *)
(** * Regular expressions

    A backtracking matcher for the constructs the two patterns of the
    program use; alternatives are tried left to right, repetitions are
    greedy, [exec] returns the leftmost match. *)
(* ================================================================== *)

Module Regex.

Inductive regex : Type :=
| Chr (c : ascii)                      (* a literal character *)
| Class (p : ascii -> bool)            (* a character class, or [.] *)
| Seq (a b : regex)
| Alt (a b : regex)
| Star (a : regex)                     (* [a*] *)
| Rep (min extra : nat) (a : regex)    (* [a{min,min+extra}] *)
| Group (name : nat) (a : regex).      (* a capturing group *)

(** Captured groups, most recent first. *)
Definition captures : Type := list (nat * string).

Definition matcher : Type :=
  string -> captures -> (string -> captures -> option captures) -> option captures.

Fixpoint star (m : matcher) (fuel : nat) : matcher :=
  fun s c k =>
    match fuel with
    | O => k s c
    | S f =>
        match m s c (fun s' c' =>
                       if (String.length s' <? String.length s)%nat
                       then star m f s' c' k else None) with
        | Some r => Some r
        | None => k s c
        end
    end.

Fixpoint upto (m : matcher) (n : nat) : matcher :=
  fun s c k =>
    match n with
    | O => k s c
    | S n' =>
        match m s c (fun s' c' => upto m n' s' c' k) with
        | Some r => Some r
        | None => k s c
        end
    end.

Fixpoint exactly (m : matcher) (n : nat) : matcher :=
  fun s c k =>
    match n with
    | O => k s c
    | S n' => m s c (fun s' c' => exactly m n' s' c' k)
    end.

Fixpoint run (r : regex) : matcher :=
  match r with
  | Chr x => fun s c k =>
      match s with
      | String y t => if Ascii.eqb x y then k t c else None
      | EmptyString => None
      end
  | Class p => fun s c k =>
      match s with
      | String y t => if p y then k t c else None
      | EmptyString => None
      end
  | Seq a b => fun s c k => run a s c (fun s' c' => run b s' c' k)
  | Alt a b => fun s c k =>
      match run a s c k with
      | Some r => Some r
      | None => run b s c k
      end
  | Star a => fun s c k => star (run a) (S (String.length s)) s c k
  | Rep min extra a => fun s c k =>
      exactly (run a) min s c (fun s' c' => upto (run a) extra s' c' k)
  | Group name a => fun s c k =>
      run a s c (fun s' c' =>
        k s' ((name, substring 0 (String.length s - String.length s') s) :: c'))
  end.

(** [regex.exec(s)] without the [g] flag: the captures of the leftmost
    match. *)
Fixpoint exec (r : regex) (s : string) : option captures :=
  match run r s [] (fun _ c => Some c) with
  | Some c => Some c
  | None =>
      match s with
      | EmptyString => None
      | String _ t => exec r t
      end
  end.

(** [result[n]] / [result.groups.name]. *)
Fixpoint group (n : nat) (c : captures) : option string :=
  match c with
  | [] => None
  | (m, s) :: r => if (m =? n)%nat then Some s else group n r
  end.

Definition some (a : regex) : regex := Seq a (Star a).
Definition opt (a : regex) : regex := Rep 0 1 a.

Fixpoint lit (s : string) : regex :=
  match s with
  | EmptyString => Rep 0 0 (Chr "x")
  | String c EmptyString => Chr c
  | String c r => Seq (Chr c) (lit r)
  end.

Definition digit : regex := Class is_digit.

Definition is_alpha (c : ascii) : bool :=
  let n := N_of_ascii c in
  ((65 <=? n) && (n <=? 90) || (97 <=? n) && (n <=? 122))%N.

(** [.]: any character but a line terminator. *)
Definition dot : regex :=
  Class (fun c => negb (Ascii.eqb c "010" || Ascii.eqb c "013")).

Fixpoint seqs (l : list regex) : regex :=
  match l with
  | [] => lit EmptyString
  | [a] => a
  | a :: r => Seq a (seqs r)
  end.

End Regex.

Import Regex.

(** [/([0-9]+) frames: ([0-9]+\.[0-9]+) fps, ([0-9]+\.[0-9]+) kb\/s/] *)
Definition X265_REGEX : regex :=
  seqs [ Group 1 (some digit); lit " frames: ";
         Group 2 (seqs [some digit; Chr "."; some digit]); lit " fps, ";
         Group 3 (seqs [some digit; Chr "."; some digit]); lit " kb/s" ].

(** Groups: 1 = size, 2 = time, 3 = bitrate, 4 = speed.
    [/size=(?<size>(?:[0-9]+[a-zA-Z]{2,3})|N\/A)time=(?<time>-*[0-9]{2}:[0-9]{2}:[0-9]{2}.[0-9]{2})bitrate=(?<bitrate>(?:-*[0-9]+\.[0-9]+)|N\/A).*speed=(?<speed>[0-9]+(?:\.[0-9]+)?)x/] *)
Definition FFMPEG_REGEX : regex :=
  seqs [ lit "size=";
         Group 1 (Alt (Seq (some digit) (Rep 2 1 (Class is_alpha))) (lit "N/A"));
         lit "time=";
         Group 2 (seqs [Star (Chr "-"); Rep 2 0 digit; Chr ":"; Rep 2 0 digit; Chr ":";
                        Rep 2 0 digit; dot; Rep 2 0 digit]);
         lit "bitrate=";
         Group 3 (Alt (seqs [Star (Chr "-"); some digit; Chr "."; some digit]) (lit "N/A"));
         Star dot; lit "speed=";
         Group 4 (Seq (some digit) (opt (Seq (Chr ".") (some digit))));
         Chr "x" ].

(* ================================================================== *)
(** * Effects: processes, files, console *)
(* ================================================================== *)

(** [program.opts()], as commander fills it in. *)
Record options : Type := {
  preset : string;
  crf : string;
  keepBit : bool;
  doubleFps : bool;
  time : option string;
  seek : option string;
  extra_args : option string;        (* [opts.args] *)
  verbose : bool;
  opus : bool;
  opusBitrate : value
}.

(** What [debug] is asked to print after its label. *)
Inductive debug_payload : Type :=
| DArgs (input : string) (output : option string)
| DOpts (o : options)
| DFmt (f : pix_fmt_info)
| DTokens (l : list value).

(** What the program does to the outside world, in order.  Console lines
    are recorded without the colour codes [chalk] adds. *)
Inductive event : Type :=
| EvSpawn (prog : string) (args : list value)   (* [spawn(prog, args, ...)] *)
| EvRm (path : string)                          (* [rm(path)] *)
| EvLog (line : string)                         (* [console.log] *)
| EvDebug (label : string) (p : debug_payload)  (* [debug(label, p)] *)
| EvErr (e : exn)                               (* [err(e)] *)
| EvStdout (text : string).                     (* [process.stdout.write] *)

(** How a spawned process behaves: the code its "exit" event carries
    ([None] for [null], the process was killed by a signal) and the
    "data" chunks of its two output streams. *)
Record proc_result : Type := {
  exit_code : option Z;
  stdout_chunks : list string;
  stderr_chunks : list string
}.

(** The object [run_ffprobe] resolves with: [{ _e }] after a failure,
    the parsed JSON otherwise. *)
Record probe_data : Type := {
  _e : value;
  streams : option (list stream);
  frames : option (list frame);
  probe_format : option format
}.

(** The environment of one run.  Every tool can be started; what it does
    may depend on everything that happened before. *)
Record host : Type := {
  env : string -> option string;                       (* [process.env] *)
  cwd_join : string -> string;                         (* [join(process.cwd(), x)] *)
  resolve : string -> string;                          (* [path.resolve] *)
  stem : string -> string;                             (* [basename(x, extname(x))] *)
  random_hex : nat -> string;                          (* n-th [randomBytes(3).toString("hex")] *)
  proc : list event -> string -> list value -> proc_result;
  rm_error : list event -> string -> option exn;       (* [rm] rejects with this *)
  JSON_parse : string -> option probe_data;            (* [None]: not JSON *)
  Date_parse : string -> float;
  inherited : string -> value                          (* members of [Object.prototype] *)
}.

Record state : Type := {
  trace : list event;
  nrand : nat
}.

(** How a computation ends: [Done], an exception or rejection on its way
    to the nearest [catch] ([Raised]), or an exception nobody can catch
    ([Crashed]: thrown inside an [async] promise executor or an event
    listener, which leaves the awaited promise pending for ever). *)
Inductive outcome (A : Type) : Type :=
| Done (a : A)
| Raised (e : exn)
| Crashed (e : exn).
Arguments Done {A} a.
Arguments Raised {A} e.
Arguments Crashed {A} e.

Definition M (A : Type) : Type := state -> outcome A * state.

Definition ret {A} (a : A) : M A := fun s => (Done a, s).

Definition bind {A B} (m : M A) (k : A -> M B) : M B :=
  fun s =>
    match m s with
    | (Done a, s') => k a s'
    | (Raised e, s') => (Raised e, s')
    | (Crashed e, s') => (Crashed e, s')
    end.

Declare Scope js_scope.
Delimit Scope js_scope with js.
Notation "x <- m ;; k" := (bind m (fun x => k))
  (at level 61, m at next level, right associativity) : js_scope.
Notation "' p <- m ;; k" := (bind m (fun x => let 'p := x in k))
  (at level 61, p pattern, m at next level, right associativity) : js_scope.
Notation "m ;; k" := (bind m (fun _ => k))
  (at level 61, right associativity) : js_scope.
Local Open Scope js_scope.

Definition raise {A} (e : exn) : M A := fun s => (Raised e, s).

Definition crash {A} (e : exn) : M A := fun s => (Crashed e, s).

Definition emit (ev : event) : M unit :=
  fun s => (Done tt, {| trace := trace s ++ [ev]; nrand := nrand s |}).

Definition lift {A} (r : res A) : M A :=
  match r with
  | Ret a => ret a
  | Throw e => raise e
  end.

(** [try { m } catch (e) { h e }]. *)
Definition try_catch {A} (m : M A) (h : exn -> M A) : M A :=
  fun s =>
    match m s with
    | (Raised e, s') => h e s'
    | r => r
    end.

(** How the body of a promise executor settles its promise. *)
Inductive settled (A : Type) : Type :=
| Resolve (a : A)
| Reject (e : exn).
Arguments Resolve {A} a.
Arguments Reject {A} e.

(** [new Promise(async (res, rej) => { body })], awaited: an exception
    inside [body] rejects the promise of the [async] function, not the
    one being awaited. *)
Definition promise_async {A} (body : M (settled A)) : M A :=
  fun s =>
    match body s with
    | (Done (Resolve a), s') => (Done a, s')
    | (Done (Reject e), s') => (Raised e, s')
    | (Raised e, s') => (Crashed e, s')
    | (Crashed e, s') => (Crashed e, s')
    end.

(** A loop over a list, threading an accumulator; [inl] leaves the loop
    and the function ([return] inside [for]). *)
Fixpoint for_each {A S R} (l : list A) (acc : S) (body : A -> S -> M (R + S))
  : M (R + S) :=
  match l with
  | [] => ret (inr acc)
  | a :: rest =>
      r <- body a acc ;;
      match r with
      | inl v => ret (inl v)
      | inr acc' => for_each rest acc' body
      end
  end.

Definition concat_chunks (l : list string) : string :=
  fold_right String.append EmptyString l.

Section Program.

Variable h : host.

(** [process.env.NAME || fallback]. *)
Definition tool (name fallback : string) : string :=
  match env h name with
  | Some p => if str_nonempty p then p else fallback
  | None => fallback
  end.

Definition FFMPEG : string := tool "FFMPEG_PATH" "ffmpeg".
Definition FFPROBE : string := tool "FFPROBE_PATH" "ffprobe".
Definition DOVI_TOOL : string := tool "DOVI_PATH" "dovi_tool".
Definition HDR10PLUS_TOOL : string := tool "HDR10PLUS_PATH" "hdr10plus_tool".
Definition X265 : string := tool "X265_PATH" "x265".
Definition MKVMERGE : string := tool "MKVMERGE_PATH" "mkvmerge".

Definition LOG_PREFIX : string := "[HDRS]".
Definition TEMP_BASE : string := ".hdrsucks-".
Definition X265_PREFIX : string := "[x265]".
Definition MKV_PREFIX : string := "[MKVT]".
Definition OPUS_PREFIX : string := "[OPUS]".

Definition CR : string := String "013" EmptyString.
Definition LF : string := String "010" EmptyString.

(** [COLOR_RANGE[key]]. *)
Definition COLOR_RANGE (key : value) : value :=
  let k := to_string key in
  if String.eqb k "pc" then VString "full"
  else if String.eqb k "tv" then VString "limited"
  else inherited h k.

(** [spawn(prog, args, ...)]: the process starts, and its behaviour is
    the host's. *)
Definition spawn (prog : string) (args : list value) : M proc_result :=
  fun s =>
    (Done (proc h (trace s) prog args),
     {| trace := trace s ++ [EvSpawn prog args]; nrand := nrand s |}).

(** [await rm(path)]. *)
Definition rm (path : string) : M unit :=
  fun s =>
    let s' := {| trace := trace s ++ [EvRm path]; nrand := nrand s |} in
    match rm_error h (trace s) path with
    | Some e => (Raised e, s')
    | None => (Done tt, s')
    end.

(** generate temporary file name (index.js, [generate_temp_name]). *)
Definition generate_temp_name (extra : string) : M string :=
  fun s =>
    (Done (cwd_join h (TEMP_BASE ++ random_hex h (nrand s) ++ extra)),
     {| trace := trace s; nrand := S (nrand s) |}).

(** log wrappers for adding prefix (index.js, [log], [err], [debug],
    [warn]). *)
Definition log_line (msg : string) : string := LOG_PREFIX ++ " " ++ msg.
Definition log (msg : string) : M unit := emit (EvLog (log_line msg)).
Definition err (e : exn) : M unit := emit (EvErr e).
Definition debug (label : string) (p : debug_payload) : M unit := emit (EvDebug label p).
Definition warn (msg : string) : M unit :=
  emit (EvLog (LOG_PREFIX ++ " [WARNING] " ++ msg)).

Definition strs (l : list string) : list value := map VString l.

(** [c !== 0] / [c === 0] on an exit code. *)
Definition exit_is_zero (c : option Z) : bool :=
  match c with
  | Some z => Z.eqb z 0
  | None => false
  end.

Definition exit_value (c : option Z) : value :=
  match c with
  | Some z => VNumber (float_of_Z z)
  | None => VNull
  end.

(** run ffprobe and grab info about file (index.js, [run_ffprobe]). *)
Definition run_ffprobe (file : string) : M probe_data :=
  r <- spawn FFPROBE (strs ["-i"; file; "-hide_banner"; "-of"; "json";
                            "-show_format"; "-show_streams"; "-show_frames";
                            "-read_intervals"; "%+#1"]) ;;
  if negb (exit_is_zero (exit_code r))
  then ret {| _e := VString (trim (concat_chunks (stderr_chunks r)));
              streams := None; frames := None; probe_format := None |}
  else match JSON_parse h (concat_chunks (stdout_chunks r)) with
       | Some d => ret d
       | None => crash SyntaxError
       end.

Definition QUOTE : string := String "034" EmptyString.

(** [result[n]] of a successful match. *)
Definition capture (n : nat) (result : captures) : value :=
  match group n result with
  | Some s => VString s
  | None => VUndefined
  end.

(** [if (avg.length === 500) avg.shift(); avg.push(fps);] *)
Definition window_push (avg : list float) (fps : float) : list float :=
  (if (List.length avg =? 500)%nat then tl avg else avg) ++ [fps].

(** The estimate printed after a sample: [Math.round((frames -
    doneFrames) / avg_)], through [toHHMMSS]. *)
Definition eta_text (frames doneFrames avg_ : float) : string :=
  toHHMMSS (Math_round ((frames - doneFrames) / avg_)).

(** The "data" listener on the encoder's diagnostic stream (index.js,
    [transcode]): [avg] is the window before the chunk [l], the result
    the window after it. *)
Definition x265_progress (frames : float) (avg : list float) (l : string)
  : M (list float) :=
  match exec X265_REGEX l with
  | None => ret avg
  | Some result =>
      let fps := to_number (capture 2 result) in
      let avg := window_push avg fps in
      let avg_ := average_of avg in
      let doneFrames := to_number (capture 1 result) in
      emit (EvStdout (CR ++ X265_PREFIX ++ " " ++ to_string (capture 1 result)
                      ++ " / " ++ num_to_string frames
                      ++ ", " ++ to_string (capture 2 result)
                      ++ " fps, " ++ to_string (capture 3 result)
                      ++ " kb/s, eta: " ++ eta_text frames doneFrames avg_)) ;;
      ret avg
  end.

Fixpoint x265_listen (frames : float) (chunks : list string) (avg : list float)
  : M (list float) :=
  match chunks with
  | [] => ret avg
  | l :: rest =>
      avg' <- x265_progress frames avg l ;;
      x265_listen frames rest avg'
  end.

(** transcode using x265 through ffmpeg (index.js, [transcode]).  With
    [v] the encoder's diagnostic stream is inherited and nothing is
    parsed. *)
Definition transcode (ff_args x265_args : list value) (frames : float) (v : bool)
  : M (option Z) :=
  _ <- spawn FFMPEG ff_args ;;
  x265_proc <- spawn X265 x265_args ;;
  _ <- (if v then ret [] else x265_listen frames (stderr_chunks x265_proc) []) ;;
  emit (EvLog (LF ++ LOG_PREFIX ++ " Done transcoding")) ;;
  ret (exit_code x265_proc).

(** The temp-file record of a job ([paths] in the main function). *)
Record paths : Type := {
  input : string;
  output : string;
  temp : string;
  dv : option string;
  plus : option string;
  audio_temp : list string
}.

Definition opt_value (o : option string) : value :=
  match o with
  | Some s => VString s
  | None => VNull
  end.

(** [Object.entries(paths)]: own keys in creation order. *)
Definition paths_entries (p : paths) : list (string * value) :=
  [ ("input", VString (input p)); ("output", VString (output p));
    ("temp", VString (temp p)); ("dv", opt_value (dv p));
    ("plus", opt_value (plus p));
    ("audio_temp", VObject (join "," (audio_temp p))) ].

(** [extra_tags] / [aud_extra_tags]. *)
Record track_tags : Type := {
  tag_language : value;
  tag_default : value;
  tag_forced : value;
  tag_hearing_impaired : value;
  tag_visual_impaired : value;
  tag_text_descriptions : value;
  tag_original : value;
  tag_commentary : value
}.

Definition track_flags (t : track_tags) : list value :=
  strs [ "--language"; "0:" ++ to_string (tag_language t);
         "--default-track-flag"; "0:" ++ to_string (tag_default t);
         "--forced-display-flag"; "0:" ++ to_string (tag_forced t);
         "--hearing-impaired-flag"; "0:" ++ to_string (tag_hearing_impaired t);
         "--visual-impaired-flag"; "0:" ++ to_string (tag_visual_impaired t);
         "--text-descriptions-flag"; "0:" ++ to_string (tag_text_descriptions t);
         "--original-flag"; "0:" ++ to_string (tag_original t);
         "--commentary-flag"; "0:" ++ to_string (tag_commentary t) ].

(** [paths.audio_temp[i]]. *)
Definition audio_temp_at (p : paths) (i : nat) : value :=
  match nth_error (audio_temp p) i with
  | Some s => VString s
  | None => VUndefined
  end.

Fixpoint audio_track_args (p : paths) (i : nat) (aud_tags : list track_tags)
  : list value :=
  match aud_tags with
  | [] => []
  | t :: rest => track_flags t ++ [audio_temp_at p i] ++ audio_track_args p (S i) rest
  end.

Definition mkv_args (p : paths) (extra_tags : track_tags) (aud_tags : list track_tags)
  : list value :=
  strs ["-o"; output p] ++ track_flags extra_tags ++ strs [temp p]
  ++ (if (0 <? List.length aud_tags)%nat
      then audio_track_args p 0 aud_tags ++ strs ["--no-audio"] else [])
  ++ strs ["--no-video"; input p].

(** The "data" listener on the multiplexer's standard output. *)
Definition mkv_progress (str : string) : M unit :=
  if includes str "%" && (List.length (split ":" str) =? 2)%nat
  then emit (EvStdout (CR ++ MKV_PREFIX ++ " Progress: "
                       ++ trim (nth 1 (split ":" str) EmptyString)))
  else ret tt.

Fixpoint mkv_listen (chunks : list string) : M unit :=
  match chunks with
  | [] => ret tt
  | l :: rest => mkv_progress l ;; mkv_listen rest
  end.

(** final mkv merge of old and new file (index.js, [mkvmerge]). *)
Definition mkvmerge (p : paths) (extra_tags : track_tags) (aud_tags : list track_tags)
    (v : bool) : M unit :=
  r <- spawn MKVMERGE (mkv_args p extra_tags aud_tags) ;;
  (if v then ret tt else mkv_listen (stdout_chunks r)) ;;
  if negb (exit_is_zero (exit_code r))
  then raise (Message (trim (concat_chunks (stderr_chunks r))))
  else emit (EvLog (LF ++ LOG_PREFIX ++ " Merge done")).

(** [{ c, e }], what [ff_xtract] and [ff_inject] resolve with. *)
Record tool_result : Type := {
  res_c : option Z;
  res_e : value
}.

Definition tool_exit (r : proc_result) : tool_result :=
  if exit_is_zero (exit_code r)
  then {| res_c := exit_code r; res_e := VNull |}
  else {| res_c := exit_code r;
          res_e := VString (trim (concat_chunks (stderr_chunks r))) |}.

(** helper function for extraction (index.js, [ff_xtract]). *)
Definition ff_xtract (file sec : string) (args : list string) (v : bool)
  : M tool_result :=
  _ <- spawn FFMPEG (strs ["-i"; file; "-map"; "0:v:0?"; "-c:v"; "copy";
                           "-bsf:v"; "hevc_mp4toannexb"; "-f"; "hevc"; "-"]) ;;
  sec_proc <- spawn sec (strs args) ;;
  ret (tool_exit sec_proc).

(** helper function for injecting (index.js, [ff_inject]). *)
Definition ff_inject (p : string) (args : list value) : M tool_result :=
  r <- spawn p args ;;
  ret (tool_exit r).

(** The locals of [pre_hdr]: the four [done] flags, [out], and the
    shared [paths] object it writes [dv] and [plus] into. *)
Record hdr_state : Type := {
  done0 : bool; done1 : bool; done2 : bool; done3 : bool;
  out : list string;
  hpaths : paths
}.

Definition set_dv (p : paths) (x : string) : paths :=
  {| input := input p; output := output p; temp := temp p;
     dv := Some x; plus := plus p; audio_temp := audio_temp p |}.

Definition set_plus (p : paths) (x : string) : paths :=
  {| input := input p; output := output p; temp := temp p;
     dv := dv p; plus := Some x; audio_temp := audio_temp p |}.

Definition set_temp (p : paths) (x : string) : paths :=
  {| input := input p; output := output p; temp := x;
     dv := dv p; plus := plus p; audio_temp := audio_temp p |}.

Definition push_audio_temp (p : paths) (x : string) : paths :=
  {| input := input p; output := output p; temp := temp p;
     dv := dv p; plus := plus p; audio_temp := audio_temp p ++ [x] |}.

Definition failed (what : string) (r : tool_result) : exn :=
  Message (what ++ " failed (" ++ to_string (exit_value (res_c r)) ++ "): "
           ++ QUOTE ++ to_string (res_e r) ++ QUOTE).

(** HDR10 / HLG: the mastering-display block of the loop body. *)
Definition hdr_master (e : option (list side_data)) (st : hdr_state) : M hdr_state :=
  match find e "Mastering display metadata" with
  | Some _temp =>
      if negb (done0 st) then
        log "Found HDR10 / HLG" ;;
        md <- lift (parse_master_display _temp) ;;
        ret {| done0 := true; done1 := done1 st; done2 := done2 st; done3 := done3 st;
               out := out st ++ ["--master-display"; md]; hpaths := hpaths st |}
      else ret st
  | None => ret st
  end.

(** The content-light-level block. *)
Definition hdr_cll (e : option (list side_data)) (st : hdr_state) : M hdr_state :=
  match find e "Content light level metadata" with
  | Some _temp =>
      if negb (done1 st) then
        ret {| done0 := done0 st; done1 := true; done2 := done2 st; done3 := done3 st;
               out := out st ++ ["--max-cll";
                                 to_string (max_content _temp) ++ ","
                                 ++ to_string (max_average _temp)];
               hpaths := hpaths st |}
      else ret st
  | None => ret st
  end.

(** DOLBY VISION: [inl] is [return rej(...)]. *)
Definition hdr_dovi (v : bool) (e : option (list side_data)) (st : hdr_state)
  : M (exn + hdr_state) :=
  match find e "DOVI configuration record" with
  | Some _temp =>
      if negb (done2 st) then
        log "Found Dolby Vision" ;;
        name <- generate_temp_name ".bin" ;;
        let p := set_dv (hpaths st) name in
        result <- ff_xtract (input p) DOVI_TOOL
                    (split " " ("extract-rpu -o " ++ name ++ " -")) v ;;
        if truthy (res_e result)
        then ret (inl (failed "Extracting Dolby Vision" result))
        else ret (inr {| done0 := done0 st; done1 := done1 st; done2 := true;
                         done3 := done3 st; out := out st; hpaths := p |})
      else ret (inr st)
  | None => ret (inr st)
  end.

(** HDR10+. *)
Definition hdr_plus (v : bool) (e : option (list side_data)) (st : hdr_state)
  : M (exn + hdr_state) :=
  match find e "HDR Dynamic Metadata SMPTE2094-40 (HDR10+)" with
  | Some _temp =>
      if negb (done3 st) then
        log "Found HDR10+" ;;
        name <- generate_temp_name ".json" ;;
        let p := set_plus (hpaths st) name in
        result <- ff_xtract (input p) HDR10PLUS_TOOL
                    (split " " ("extract -o " ++ name ++ " -")) v ;;
        if truthy (res_e result)
        then ret (inl (failed "Extracting HDR10+" result))
        else ret (inr {| done0 := done0 st; done1 := done1 st; done2 := done2 st;
                         done3 := true; out := out st; hpaths := p |})
      else ret (inr st)
  | None => ret (inr st)
  end.

(** The body of [for (const e of [stream, frame])]; [e] is the
    [side_data_list] of the element. *)
Definition pre_hdr_body (v : bool) (e : option (list side_data)) (st : hdr_state)
  : M (exn + hdr_state) :=
  match e with
  | None => ret (inr st)
  | Some l =>
      if (List.length l <? 1)%nat then ret (inr st)
      else
        st1 <- hdr_master e st ;;
        st2 <- hdr_cll e st1 ;;
        r <- hdr_dovi v e st2 ;;
        match r with
        | inl x => ret (inl x)
        | inr st3 => hdr_plus v e st3
        end
  end.

(** detect and extract hdr info (index.js, [pre_hdr]).  The result is
    [out] together with [paths] as the function leaves it. *)
Definition pre_hdr (st : stream) (fr : frame) (p : paths) (v : bool)
  : M (list string * paths) :=
  promise_async (
    r <- for_each [stream_side_data_list st; frame_side_data_list fr]
           {| done0 := false; done1 := false; done2 := false; done3 := false;
              out := []; hpaths := p |}
           (pre_hdr_body v) ;;
    match r with
    | inl x => ret (Reject x)
    | inr s => ret (Resolve (out s, hpaths s))
    end).

(** The body of [for (const [k, v] of Object.entries(paths))] in
    [post_hdr], on the entry [(k, v)] with [currentFile] as it stands. *)
Definition post_hdr_body (kv : string * value) (currentFile : string)
  : M (exn + string) :=
  let (k, v) := kv in
  let choice :=
    if String.eqb k "dv" && truthy v
    then Some ([VString "inject-rpu"; VString "--rpu-in"; v], DOVI_TOOL)
    else if String.eqb k "plus" && truthy v
    then Some ([VString "inject"; VString "-j"; v], HDR10PLUS_TOOL)
    else None in
  match choice with
  | None => ret (inr currentFile)
  | Some (args, tl) =>
      newTemp <- generate_temp_name ".hevc" ;;
      result <- ff_inject tl (args ++ strs ["-i"; currentFile; "-o"; newTemp]) ;;
      if truthy (res_e result)
      then ret (inl (failed ("Injecting HDR (" ++ k ++ ")") result))
      else
        rm currentFile ;;
        rm (to_string v) ;;
        ret (inr newTemp)
  end.

(** reinject hdr metadata after transcoding (index.js, [post_hdr]). *)
Definition post_hdr (p : paths) : M string :=
  promise_async (
    r <- for_each (paths_entries p) (temp p) post_hdr_body ;;
    match r with
    | inl x => ret (Reject x)
    | inr currentFile => ret (Resolve currentFile)
    end).

(** The lines of one "data" chunk, up to the first [return] of the
    listener (index.js, [opus_transcode]). *)
Fixpoint opus_lines (stream_len : float) (lines : list string) : M unit :=
  match lines with
  | [] => ret tt
  | line :: rest =>
      if (String.length (trim line) =? 0)%nat then ret tt
      else match exec FFMPEG_REGEX (remove_char " " line) with
           | None => ret tt
           | Some result =>
               emit (EvStdout (CR ++ OPUS_PREFIX ++ " " ++ to_string (capture 2 result)
                               ++ " / " ++ toHHMMSS stream_len ++ ", "
                               ++ to_string (capture 4 result) ++ "x")) ;;
               opus_lines stream_len rest
           end
  end.

Fixpoint opus_listen (stream_len : float) (chunks : list string) : M unit :=
  match chunks with
  | [] => ret tt
  | d :: rest =>
      opus_lines stream_len (split "010" (remove_char "013" d)) ;;
      opus_listen stream_len rest
  end.

(** EXPERIMENTAL opus audio transcoding (index.js, [opus_transcode]). *)
Definition opus_transcode (ff_args : list value) (stream_len : float) (v : bool)
  : M (option Z) :=
  ff_proc <- spawn FFMPEG ff_args ;;
  (if v then ret tt else opus_listen stream_len (stderr_chunks ff_proc)) ;;
  emit (EvLog (LF ++ LOG_PREFIX ++ " Done audio transcoding")) ;;
  ret (exit_code ff_proc).

(** ** The main function, block by block *)

(** [opts.x] used as a condition, for an option holding a string. *)
Definition given (o : option string) : bool :=
  match o with
  | Some s => str_nonempty s
  | None => false
  end.

Definition text (o : option string) : string :=
  match o with
  | Some s => s
  | None => "undefined"
  end.

(** "keep bit depth if requested and use aq mode 3 for 8 bit": the
    tokens this block pushes onto [x265_args]. *)
Definition output_depth (opts : options) (fmt : pix_fmt_info) : M (list value) :=
  if keepBit opts then
    if String.eqb (depth fmt) "8" then
      log ("Input depth is 8, using " ++ QUOTE ++ "aq-mode=3" ++ QUOTE
           ++ " to improve darker scenes") ;;
      ret (strs ["--output-depth"; depth fmt; "--aq-mode"; "3"])
    else ret (strs ["--output-depth"; depth fmt])
  else
    if String.eqb (depth fmt) "8" then
      log "Input depth is 8, using output depth 10 to improve darker scenes" ;;
      ret (strs ["--output-depth"; "10"])
    else ret (strs ["--output-depth"; depth fmt]).

(** "add color data if they exist". *)
Definition color_args (st : stream) : list value :=
  (if truthy (range st) then [VString "--range"; COLOR_RANGE (color_range st)] else [])
  ++ (if truthy (color_primaries st) then [VString "--colorprim"; color_primaries st] else [])
  ++ (if truthy (color_transfer st) then [VString "--transfer"; color_transfer st] else [])
  ++ (if truthy (color_space st) then [VString "--colormatrix"; color_space st] else []).

(** The [language] a loop over the tags leaves in a tag set. *)
Fixpoint language_of (entries : list (string * value)) (cur : value) : value :=
  match entries with
  | [] => cur
  | (k, v) :: rest =>
      language_of rest (if String.eqb (toLowerCase k) "language" then v else cur)
  end.

(** "export some tags and misc metadata". *)
Definition tags_of (st : stream) : track_tags :=
  let lang :=
    match tags st with
    | Some entries => language_of entries (VString "eng")
    | None => VString "eng"
    end in
  match stream_disposition st with
  | Some d =>
      {| tag_language := lang;
         tag_default := disp_default d;
         tag_forced := disp_forced d;
         tag_hearing_impaired := disp_hearing_impaired d;
         tag_visual_impaired := disp_visual_impaired d;
         tag_text_descriptions := disp_descriptions d;
         tag_original := disp_original d;
         tag_commentary := disp_comment d |}
  | None =>
      {| tag_language := lang;
         tag_default := VNumber 0; tag_forced := VNumber 0;
         tag_hearing_impaired := VNumber 0; tag_visual_impaired := VNumber 0;
         tag_text_descriptions := VNumber 0; tag_original := VNumber 0;
         tag_commentary := VNumber 0 |}
  end.

(** "add user supplied arguments if any": the tokens pushed for
    [opts.args]. *)
Fixpoint user_tokens (pieces : list string) : list value :=
  match pieces with
  | [] => []
  | a :: rest =>
      let ss := split "=" a in
      if negb (List.length ss =? 2)%nat then user_tokens rest
      else strs ["--" ++ nth 0 ss EmptyString; nth 1 ss EmptyString] ++ user_tokens rest
  end.

Definition user_args (opts : options) : list value :=
  match extra_args opts with
  | Some a => if str_nonempty a then user_tokens (split ":" a) else []
  | None => []
  end.

(** [stream.field_order && stream.field_order !== "progressive"]. *)
Definition interlaced (st : stream) : bool :=
  truthy (field_order st) && negb (is_string (field_order st) "progressive").

(** The encoder argument set as the main function hands it to
    [transcode]: [depth_tokens] from [output_depth], [hdr_tokens] from
    [pre_hdr], [tmp] the value of [paths.temp]. *)
Definition x265_args (opts : options) (st : stream) (depth_tokens : list value)
    (hdr_tokens : list string) (tmp : string) : list value :=
  strs ["--input"; "-"; "--y4m"]
  ++ depth_tokens
  ++ color_args st
  ++ strs hdr_tokens
  ++ strs ["--preset"; preset opts; "--crf"; crf opts; "--output"; tmp]
  ++ user_args opts.

(** The decoder argument set. *)
Definition ff_args (opts : options) (st : stream) (p : paths) : list value :=
  strs ["-i"; input p; "-map"; "0:v:0"]
  ++ (if interlaced st
      then strs ["-vf"; "yadif=" ++ (if doubleFps opts then "1" else "0")] else [])
  ++ (if given (time opts) then strs ["-t"; text (time opts)] else [])
  ++ strs ["-f"; "yuv4mpegpipe"; "-strict"; "-1"; "-"].

(** The locals the audio loop updates. *)
Record audio_state : Type := {
  apaths : paths;
  aud_tags : list track_tags;
  aud_i : nat
}.

(** The body of the "opus go brrr" loop for [audio_streams[i]]; [inl]
    is [return err(...)]. *)
Definition opus_body (opts : options) (fmt : option format) (a : stream)
    (st : audio_state) : M (unit + audio_state) :=
  let i := aud_i st in
  emit (EvLog (OPUS_PREFIX ++ " Transcoding audio stream "
               ++ num_to_string (float_of_Z (Z.of_nat i)))) ;;
  name <- generate_temp_name ".opus" ;;
  let p := push_audio_temp (apaths st) name in
  let aud_args :=
    List.app
      (strs ["-i"; input p; "-map"; "0:" ++ to_string (index a);
             "-map_chapters"; "-1"; "-map_metadata"; "-1"; "-c:a"; "libopus";
             "-b:a"; to_string (opusBitrate opts) ++ "k"])
      [audio_temp_at p i] in
  let tags' := List.app (aud_tags st) [tags_of a] in
  dur <- lift (get_duration (Date_parse h) a fmt) ;;
  code <- opus_transcode aud_args dur (verbose opts) ;;
  if negb (exit_is_zero code)
  then err (Message ("Opus transcode failed: " ++ to_string (exit_value code))) ;;
       ret (inl tt)
  else ret (inr {| apaths := p; aud_tags := tags'; aud_i := S i |}).

Fixpoint rm_all (files : list string) : M unit :=
  match files with
  | [] => ret tt
  | f :: rest => rm f ;; rm_all rest
  end.

(** From "reinject hdr metadata" to the end of the main function. *)
Definition finish (opts : options) (d : probe_data) (st : stream)
    (audio_streams : list stream) (p : paths) : M unit :=
  log "Injecting HDR metadata if any" ;;
  newTemp <- post_hdr p ;;
  let p := set_temp p newTemp in
  r <- (if opus opts
        then for_each audio_streams {| apaths := p; aud_tags := []; aud_i := 0 |}
               (opus_body opts (probe_format d))
        else ret (inr {| apaths := p; aud_tags := []; aud_i := 0 |})) ;;
  match r with
  | inl _ => ret tt
  | inr a =>
      log "Merging source and temp to output" ;;
      mkvmerge (apaths a) (tags_of st) (aud_tags a) (verbose opts) ;;
      log "Cleaning up" ;;
      rm (temp (apaths a)) ;;
      rm_all (audio_temp (apaths a))
  end.

(** From "lets start creating arguments" to the transcode. *)
Definition encode (opts : options) (d : probe_data) (st : stream) (fr : frame)
    (audio_streams : list stream) (p : paths) : M unit :=
  fmt <- lift (parse_pix_fmt_v (pix_fmt st)) ;;
  (if verbose opts then debug "pix_fmt" (DFmt fmt) else ret tt) ;;
  depth_tokens <- output_depth opts fmt ;;
  log "Extracting HDR metadata, this may take a while..." ;;
  '(temp_args, p) <- pre_hdr st fr p (verbose opts) ;;
  let x265 := x265_args opts st depth_tokens temp_args (temp p) in
  fps <- lift (parse_slash_number_v (r_frame_rate st)) ;;
  (if interlaced st then log "Interlaced video, using yadif to deinterlace" else ret tt) ;;
  let fps := if interlaced st && doubleFps opts then fps * 2 else fps in
  if given (time opts) && isNaN (Number (text (time opts)))
  then err (Message "Invalid time format")
  else
    let ff := ff_args opts st p in
    (if verbose opts
     then debug "ffmpeg args:" (DTokens ff) ;; debug "x265 args:" (DTokens x265)
     else ret tt) ;;
    duration <- lift (get_duration (Date_parse h) st (probe_format d)) ;;
    let totFrames :=
      Math_ceil ((if given (time opts) then Number (text (time opts)) else duration) * fps) in
    log ("Length: "
         ++ (if given (time opts) then text (time opts) else num_to_string duration)
         ++ "s, Frames: ~" ++ num_to_string totFrames) ;;
    log "Starting transcode, this will take a while" ;;
    code <- transcode ff x265 totFrames (verbose opts) ;;
    if negb (exit_is_zero code)
    then err (Message ("Transcode failed: " ++ to_string (exit_value code)))
    else finish opts d st audio_streams p.

(** The body of the [try] block, from the argument dump to the content
    checks.  [arg0] and [arg1] are [args[0]] and [args[1]]. *)
Definition job (arg0 : string) (arg1 : option string) (opts : options) : M unit :=
  (if verbose opts
   then debug "args:" (DArgs arg0 arg1) ;; debug "opts:" (DOpts opts)
   else ret tt) ;;
  tmp <- generate_temp_name ".hevc" ;;
  let p := {| input := resolve h arg0;
              output := if given arg1 then resolve h (text arg1)
                        else cwd_join h (stem h arg0 ++ ".hdr-sucks.mkv");
              temp := tmp; dv := None; plus := None; audio_temp := [] |} in
  log ("Input file: " ++ input p) ;;
  log ("Output file: " ++ output p) ;;
  log "Extracting file metadata" ;;
  d <- run_ffprobe (input p) ;;
  if truthy (_e d)
  then err (Message ("Could not parse with ffprobe: " ++ to_string (_e d)))
  else
    match streams d with
    | None => raise TypeError
    | Some ss =>
        if (List.length ss <? 1)%nat
        then err (Message "No streams were found in the file")
        else
          match List.find (fun x => is_string (codec_type x) "video") ss with
          | None => err (Message "No video stream was found in the file")
          | Some st =>
              match frames d with
              | None => raise TypeError
              | Some fs =>
                  match fs with
                  | [] => err (Message "No frames were found in the video stream")
                  | fr :: _ =>
                      let audio_streams :=
                        filter (fun x => is_string (codec_type x) "audio") ss in
                      (if opus opts && (List.length audio_streams <? 1)%nat
                       then warn "Opus requested but no audio streams found"
                       else ret tt) ;;
                      encode opts d st fr audio_streams p
                  end
              end
          end
    end.

(** main function, with its global error wrapper. *)
Definition main (arg0 : string) (arg1 : option string) (opts : options) : M unit :=
  try_catch (job arg0 arg1 opts) (fun e => err e).

End Program.

(* ================================================================== *)
(** * Auxiliary definitions used in the statements *)
(* ================================================================== *)

(** ** Rational parsing and the mastering display *)

(** Number of occurrences of a character in a string. *)
Fixpoint occurrences (c : ascii) (s : string) : nat :=
  match s with
  | EmptyString => O
  | String x r => if Ascii.eqb x c then S (occurrences c r) else occurrences c r
  end.

(** A mastering-display field the translation accepts: a non-empty
    string that the rational parser reads as a number. *)
Definition valid_field (v : value) : bool :=
  match v with
  | VString s => str_nonempty s && negb (isNaN (parse_slash_number s))
  | _ => false
  end.

(** The factor applied to the field at position [i]. *)
Definition scale (i : nat) : float := if (7 <? i)%nat then 10000 else 50000.

(** The value printed for the field at position [i]. *)
Definition scaled_field (i : nat) (v : value) : float :=
  match v with
  | VString s => Math_round (parse_slash_number s * scale i)
  | _ => nan
  end.

(** The values pushed for the fields [l], the first of which has
    position [i]. *)
Fixpoint scaled_fields (i : nat) (l : list value) : list float :=
  match l with
  | [] => []
  | v :: r => scaled_field i v :: scaled_fields (S i) r
  end.

(** The rounded value of one field, as printed. *)
Definition shown (k : float) (s : string) : string :=
  num_to_string (Math_round (parse_slash_number s * k)).

(** A field is present when the JSON object has the key. *)
Definition present (v : value) : bool :=
  match v with
  | VUndefined => false
  | _ => true
  end.

(** A field is numeric when it is a number other than NaN, or a string
    the rational parser reads as a number. *)
Definition numeric (v : value) : bool :=
  match v with
  | VNumber x => negb (isNaN x)
  | VString s => negb (isNaN (parse_slash_number s))
  | _ => false
  end.

(** A field the rational parser reads as a number, empty or not. *)
Definition parses_as_rational (v : value) : bool :=
  match v with
  | VString s => negb (isNaN (parse_slash_number s))
  | _ => false
  end.

(** A field as the probe tool writes it: a string, or absent. *)
Definition string_or_absent (v : value) : bool :=
  match v with
  | VString _ | VUndefined => true
  | _ => false
  end.

(** ** Progress samples *)

(** The rate sample a chunk of the encoder's diagnostic stream
    carries, if it matches the progress pattern. *)
Definition sample_of (l : string) : option float :=
  match exec X265_REGEX l with
  | Some result => Some (to_number (capture 2 result))
  | None => None
  end.

(** The samples of a sequence of chunks, in order of arrival. *)
Fixpoint samples (chunks : list string) : list float :=
  match chunks with
  | [] => []
  | l :: rest =>
      match sample_of l with
      | Some x => x :: samples rest
      | None => samples rest
      end
  end.

(** The progress line [x265_progress] prints for a match. *)
Definition progress_line (frames : float) (result : captures) (avg_ : float) : string :=
  CR ++ X265_PREFIX ++ " " ++ to_string (capture 1 result)
  ++ " / " ++ num_to_string frames
  ++ ", " ++ to_string (capture 2 result)
  ++ " fps, " ++ to_string (capture 3 result)
  ++ " kb/s, eta: "
  ++ toHHMMSS (Math_round ((frames - to_number (capture 1 result)) / avg_)).

(** The rate [k]/4, and whether the smoothed rate of a full window of
    that rate is that rate. *)
Definition quarter (k : Z) : float := (float_of_Z k / 4)%float.

Definition exact_at (k : Z) : bool :=
  PrimFloat.Leibniz.eqb (average_of (repeat (quarter k) 500)) (quarter k).

(** The two-digit text of a whole number from 0 to 99, and whether a
    field of the estimate is printed so. *)
Definition two_digits (k : Z) : string :=
  (if (k <? 10)%Z then "0" else "") ++ Z_digits k.

Definition pad_ok (k : Z) : bool := String.eqb (pad2 (float_of_Z k)) (two_digits k).

(** ** The side-data scan *)

(** The four kinds of side data [pre_hdr] looks for, in the order of
    its [done] flags. *)
Inductive kind : Type := Mastering | ContentLight | DolbyVision | HDR10Plus.

Definition kind_name (k : kind) : string :=
  match k with
  | Mastering => "Mastering display metadata"
  | ContentLight => "Content light level metadata"
  | DolbyVision => "DOVI configuration record"
  | HDR10Plus => "HDR Dynamic Metadata SMPTE2094-40 (HDR10+)"
  end.

Definition has_kind (k : kind) (a : side_data) : bool :=
  is_string (side_data_type a) (kind_name k).

(** A side-data collection with the records of one kind left out. *)
Definition without (k : kind) (e : option (list side_data)) : list side_data :=
  match e with
  | Some l => filter (fun a => negb (has_kind k a)) l
  | None => []
  end.

Definition done_flag (k : kind) (st : hdr_state) : bool :=
  match k with
  | Mastering => done0 st
  | ContentLight => done1 st
  | DolbyVision => done2 st
  | HDR10Plus => done3 st
  end.

(** The four blocks of the loop body of [pre_hdr], in sequence. *)
Definition hdr_blocks (h : host) (v : bool) (e : option (list side_data))
    (st : hdr_state) : M (exn + hdr_state) :=
  (st1 <- hdr_master e st ;;
   st2 <- hdr_cll e st1 ;;
   r <- hdr_dovi h v e st2 ;;
   match r with
   | inl x => ret (inl x)
   | inr st3 => hdr_plus h v e st3
   end)%js.

(** Two collections that differ only after a first record of kind [k],
    and there only in records of kind [k]. *)
Definition same_first (k : kind) (e e' : option (list side_data)) : Prop :=
  exists l1 r l2 l2',
    e = Some (l1 ++ r :: l2)%list /\ e' = Some (l1 ++ r :: l2')%list
    /\ has_kind k r = true
    /\ without k (Some l2) = without k (Some l2').

(** [st1] has every flag of [st], and the flag of [k] if [e] carries a
    record of that kind. *)
Definition advances (k : kind) (e : option (list side_data)) (st st1 : hdr_state) : Prop :=
  (forall k', done_flag k' st = true -> done_flag k' st1 = true)
  /\ (forall k', k' <> k -> done_flag k' st1 = done_flag k' st)
  /\ (find e (kind_name k) <> None -> done_flag k st1 = true).

(** A computation only ever adds events to the trace. *)
Definition grows {A} (m : M A) : Prop :=
  forall s, exists rest, trace (snd (m s)) = (trace s ++ rest)%list.

(** A frame without side data. *)
Definition plain_frame : frame := {| frame_side_data_list := None |}.

(** ** The injection stage *)

(** The two injections of [post_hdr] and the events that follow each,
    for sidecars [d] and [pl], starting from the state [s]. *)
Definition first_temp (h : host) (s : state) : string :=
  cwd_join h (TEMP_BASE ++ random_hex h (nrand s) ++ ".hevc").

Definition second_temp (h : host) (s : state) : string :=
  cwd_join h (TEMP_BASE ++ random_hex h (S (nrand s)) ++ ".hevc").

Definition inject_dv_args (h : host) (p : paths) (s : state) (d : string) : list value :=
  strs ["inject-rpu"; "--rpu-in"; d; "-i"; temp p; "-o"; first_temp h s].

Definition inject_plus_args (h : host) (s : state) (pl : string) : list value :=
  strs ["inject"; "-j"; pl; "-i"; first_temp h s; "-o"; second_temp h s].

Definition injection_events (h : host) (p : paths) (s : state) (d pl : string)
  : list event :=
  [ EvSpawn (DOVI_TOOL h) (inject_dv_args h p s d);
    EvRm (temp p); EvRm d;
    EvSpawn (HDR10PLUS_TOOL h) (inject_plus_args h s pl);
    EvRm (first_temp h s); EvRm pl ].

(** What [post_hdr] does when both sidecars are set, by what the two
    tools and the removals do: [n] events of [injection_events] have
    happened when it stops. *)
Definition post_hdr_result (h : host) (p : paths) (s : state) (d pl : string)
  : outcome string * state :=
  let ev := injection_events h p s d pl in
  let at_ n k := {| trace := (trace s ++ firstn n ev)%list; nrand := k |} in
  let r1 := tool_exit (proc h (trace s) (DOVI_TOOL h) (inject_dv_args h p s d)) in
  if truthy (res_e r1)
  then (Raised (failed "Injecting HDR (dv)" r1), at_ 1%nat (S (nrand s)))
  else
    match rm_error h (trace s ++ firstn 1 ev) (temp p) with
    | Some x => (Crashed x, at_ 2%nat (S (nrand s)))
    | None =>
    match rm_error h (trace s ++ firstn 2 ev) d with
    | Some x => (Crashed x, at_ 3%nat (S (nrand s)))
    | None =>
        let r2 := tool_exit (proc h (trace s ++ firstn 3 ev) (HDR10PLUS_TOOL h)
                               (inject_plus_args h s pl)) in
        if truthy (res_e r2)
        then (Raised (failed "Injecting HDR (plus)" r2), at_ 4%nat (S (S (nrand s))))
        else
          match rm_error h (trace s ++ firstn 4 ev) (first_temp h s) with
          | Some x => (Crashed x, at_ 5%nat (S (S (nrand s))))
          | None =>
          match rm_error h (trace s ++ firstn 5 ev) pl with
          | Some x => (Crashed x, at_ 6%nat (S (S (nrand s))))
          | None => (Done (second_temp h s), at_ 6%nat (S (S (nrand s))))
          end
          end
    end
    end.

(** ** The probe stage *)

(** The events of the main function up to the probe, the arguments of
    the probe, and what the probe does after them. *)
Definition job_input (h : host) (arg0 : string) : string := resolve h arg0.

Definition job_output (h : host) (arg0 : string) (arg1 : option string) : string :=
  if given arg1 then resolve h (text arg1)
  else cwd_join h (stem h arg0 ++ ".hdr-sucks.mkv").

Definition prelude (h : host) (arg0 : string) (arg1 : option string) (opts : options)
  : list event :=
  ((if verbose opts
    then [EvDebug "args:" (DArgs arg0 arg1); EvDebug "opts:" (DOpts opts)] else [])
   ++ [ EvLog (log_line ("Input file: " ++ job_input h arg0));
        EvLog (log_line ("Output file: " ++ job_output h arg0 arg1));
        EvLog (log_line "Extracting file metadata") ])%list.

Definition probe_args (h : host) (arg0 : string) : list value :=
  strs ["-i"; job_input h arg0; "-hide_banner"; "-of"; "json"; "-show_format";
        "-show_streams"; "-show_frames"; "-read_intervals"; "%+#1"].

Definition probe_run (h : host) (arg0 : string) (arg1 : option string) (opts : options)
    (s : state) : proc_result :=
  proc h (trace s ++ prelude h arg0 arg1 opts)%list (FFPROBE h) (probe_args h arg0).

(** The diagnostic text [run_ffprobe] captures. *)
Definition probe_diagnostic (r : proc_result) : string :=
  trim (concat_chunks (stderr_chunks r)).

(** The processes started, in order. *)
Fixpoint spawned (t : list event) : list (string * list value) :=
  match t with
  | [] => []
  | EvSpawn prog args :: r => (prog, args) :: spawned r
  | _ :: r => spawned r
  end.

(** What [err] was called with, in order. *)
Fixpoint reported (t : list event) : list exn :=
  match t with
  | [] => []
  | EvErr x :: r => x :: reported r
  | _ :: r => reported r
  end.

(** ** The encoder argument set *)

(** The tokens the bit-depth block of the main function pushes. *)
Definition policy_tokens (keep : bool) (d : string) : list value :=
  if String.eqb d "8"
  then (if keep then strs ["--output-depth"; "8"; "--aq-mode"; "3"]
        else strs ["--output-depth"; "10"])
  else strs ["--output-depth"; d].

(** The tokens pushed after the bit-depth block: colour data, the result
    of the HDR scan, preset, crf and output path, and the user's extra
    arguments. *)
Definition later_tokens (h : host) (opts : options) (st : stream)
    (hdr_tokens : list string) (tmp : string) : list value :=
  (color_args h st ++ strs hdr_tokens
   ++ strs ["--preset"; preset opts; "--crf"; crf opts; "--output"; tmp]
   ++ user_args opts)%list.

(** The argument lists of the encoder processes started. *)
Definition encoder_calls (h : host) (t : list event) : list (list value) :=
  map snd (filter (fun c => String.eqb (fst c) (X265 h)) (spawned t)).

Definition has_token (tok : string) (args : list value) : bool :=
  existsb (fun v => is_string v tok) args.

(* ================================================================== *)
(** * Inputs of the examples *)
(* ================================================================== *)

(** ** Records, streams and frames *)

(** A mastering-display record from its ten fields, in the order of
    [master_display_fields]. *)
Definition mastering (l : list value) : side_data :=
  let g i := nth i l VUndefined in
  {| side_data_type := VString "Mastering display metadata";
     green_x := g 0%nat; green_y := g 1%nat; blue_x := g 2%nat; blue_y := g 3%nat;
     red_x := g 4%nat; red_y := g 5%nat;
     white_point_x := g 6%nat; white_point_y := g 7%nat;
     max_luminance := g 8%nat; min_luminance := g 9%nat;
     max_content := VUndefined; max_average := VUndefined |}.

(** The mastering display of a BT.2020 / 1000-nit title, as the probe
    tool reports it. *)
Definition bt2020_fields : list string :=
  ["8500/50000"; "39850/50000"; "6550/50000"; "2300/50000"; "35400/50000";
   "14600/50000"; "15635/50000"; "16450/50000"; "10000000/10000"; "50/10000"].

(** A side-data record of the given type with content-light values. *)
Definition side_record (type : string) (content average : Z) : side_data :=
  {| side_data_type := VString type;
     green_x := VUndefined; green_y := VUndefined; blue_x := VUndefined;
     blue_y := VUndefined; red_x := VUndefined; red_y := VUndefined;
     white_point_x := VUndefined; white_point_y := VUndefined;
     max_luminance := VUndefined; min_luminance := VUndefined;
     max_content := VNumber (float_of_Z content);
     max_average := VNumber (float_of_Z average) |}.

(** A stream with the given [duration] and [tags], nothing else set. *)
Definition bare_stream (d : value) (t : option (list (string * value))) : stream :=
  {| index := VNumber 0; codec_type := VString "video"; pix_fmt := VString "yuv420p";
     r_frame_rate := VString "24/1"; field_order := VUndefined; range := VUndefined;
     color_range := VUndefined; color_primaries := VUndefined;
     color_transfer := VUndefined; color_space := VUndefined;
     duration := d; tags := t; stream_disposition := None;
     stream_side_data_list := None |}.

(** [st] with the given [side_data_list]. *)
Definition with_side_data (st : stream) (l : option (list side_data)) : stream :=
  {| index := index st; codec_type := codec_type st; pix_fmt := pix_fmt st;
     r_frame_rate := r_frame_rate st; field_order := field_order st;
     range := range st; color_range := color_range st;
     color_primaries := color_primaries st; color_transfer := color_transfer st;
     color_space := color_space st; duration := duration st; tags := tags st;
     stream_disposition := stream_disposition st;
     stream_side_data_list := l |}.

(** A stream with mastering-display and content-light-level records,
    and two frames: one with a mastering-display record of its own and
    an HDR10+ record, one with the HDR10+ record only. *)
Definition hdr_stream : stream :=
  with_side_data (bare_stream VUndefined None)
    (Some [mastering (map VString bt2020_fields);
           side_record "Content light level metadata" 1000 400]).

Definition frame_with_mastering : frame :=
  {| frame_side_data_list :=
       Some [mastering (map VString (repeat "1/2" 10));
             side_record "HDR Dynamic Metadata SMPTE2094-40 (HDR10+)" 0 0] |}.

Definition frame_without_mastering : frame :=
  {| frame_side_data_list :=
       Some [side_record "HDR Dynamic Metadata SMPTE2094-40 (HDR10+)" 0 0] |}.

(** Progress chunks at the constant rate written [rate]. *)
Definition chunks_at (rate : string) (n : nat) : list string :=
  map (fun i => Z_digits (24 * Z.of_nat i) ++ " frames: " ++ rate ++ " fps, 2000.00 kb/s")
      (seq 1 n).

(** Progress chunks at a constant 23.97 frames per second. *)
Definition steady_chunks (n : nat) : list string :=
  map (fun i => Z_digits (24 * Z.of_nat i) ++ " frames: 23.97 fps, 2000.00 kb/s")
      (seq 1 n).

(** ** Hosts, options and probe results *)

(** A reading of [Date.parse] on time stamps of the epoch day,
    "1970-01-01THH:MM:SS[.fff]Z", in milliseconds; NaN elsewhere. *)
Definition epoch_day_ms (s : string) : float :=
  if startsWith s "1970-01-01T" then
    match split ":" (substring 11 (String.length s - 12) s) with
    | [hh; mm; ss] => ((Number hh * 3600 + Number mm * 60) + Number ss) * 1000
    | _ => nan
    end
  else nan.

(** A host on which every tool exits with code 0 and prints nothing,
    and every removal succeeds. *)
Definition quiet_host : host :=
  {| env := fun _ => None;
     cwd_join := fun x => "/work/" ++ x;
     resolve := fun x => "/work/" ++ x;
     stem := fun x => hd EmptyString (split "." x);
     random_hex := fun n => "00000" ++ Z_digits (Z.of_nat n);
     proc := fun _ _ _ =>
       {| exit_code := Some 0%Z; stdout_chunks := []; stderr_chunks := [] |};
     rm_error := fun _ _ => None;
     JSON_parse := fun _ => None;
     Date_parse := epoch_day_ms;
     inherited := fun _ => VUndefined |}.

Definition start : state := {| trace := []; nrand := 0 |}.

Definition job_paths (d p : option string) : paths :=
  {| input := "/work/in.mkv"; output := "/work/out.mkv";
     temp := "/work/.hdrsucks-aaaaaa.hevc"; dv := d; plus := p; audio_temp := [] |}.

(** The options commander yields when only the input is given. *)
Definition default_options : options :=
  {| preset := "medium"; crf := "23"; keepBit := false; doubleFps := false;
     time := None; seek := None; extra_args := None; verbose := false;
     opus := false; opusBitrate := VString "128" |}.

Definition with_keep_bit (o : options) : options :=
  {| preset := preset o; crf := crf o; keepBit := true; doubleFps := doubleFps o;
     time := time o; seek := seek o; extra_args := extra_args o;
     verbose := verbose o; opus := opus o; opusBitrate := opusBitrate o |}.

Definition with_extra_args (o : options) (a : string) : options :=
  {| preset := preset o; crf := crf o; keepBit := keepBit o; doubleFps := doubleFps o;
     time := time o; seek := seek o; extra_args := Some a;
     verbose := verbose o; opus := opus o; opusBitrate := opusBitrate o |}.

(** A host whose probe tool exits with code 1 and the given text on its
    diagnostic stream; the other tools as on [quiet_host]. *)
Definition failing_probe_host (diagnostic : list string) : host :=
  {| env := env quiet_host;
     cwd_join := cwd_join quiet_host;
     resolve := resolve quiet_host;
     stem := stem quiet_host;
     random_hex := random_hex quiet_host;
     proc := fun t prog args =>
       if String.eqb prog "ffprobe"
       then {| exit_code := Some 1%Z; stdout_chunks := []; stderr_chunks := diagnostic |}
       else proc quiet_host t prog args;
     rm_error := rm_error quiet_host;
     JSON_parse := JSON_parse quiet_host;
     Date_parse := Date_parse quiet_host;
     inherited := inherited quiet_host |}.

(** A probe result with one video stream of the given pixel format, and
    a host whose probe tool reports it. *)
Definition probe_of (pix : string) : probe_data :=
  {| _e := VUndefined;
     streams := Some [ {| index := VNumber 0; codec_type := VString "video";
                          pix_fmt := VString pix; r_frame_rate := VString "24/1";
                          field_order := VString "progressive"; range := VUndefined;
                          color_range := VUndefined; color_primaries := VUndefined;
                          color_transfer := VUndefined; color_space := VUndefined;
                          duration := VString "10.000000"; tags := None;
                          stream_disposition := None;
                          stream_side_data_list := None |} ];
     frames := Some [ {| frame_side_data_list := None |} ];
     probe_format := Some {| format_duration := VString "10.000000" |} |}.

Definition host_with_probe (d : probe_data) : host :=
  {| env := env quiet_host;
     cwd_join := cwd_join quiet_host;
     resolve := resolve quiet_host;
     stem := stem quiet_host;
     random_hex := random_hex quiet_host;
     proc := proc quiet_host;
     rm_error := rm_error quiet_host;
     JSON_parse := fun _ => Some d;
     Date_parse := Date_parse quiet_host;
     inherited := inherited quiet_host |}.

(* ================================================================== *)
(** * Vocabulary of the further properties *)
(* ================================================================== *)

(** ** Traces and outcomes *)

(** The files removed, in order. *)
Fixpoint removed (t : list event) : list string :=
  match t with
  | [] => []
  | EvRm f :: r => f :: removed r
  | _ :: r => removed r
  end.

(** The diagnostic text kept of a process: what it wrote on its error
    stream, trimmed. *)
Definition diagnostic (r : proc_result) : string :=
  trim (concat_chunks (stderr_chunks r)).

(** The state after the events [ev] and [n] draws of a temporary name. *)
Definition after (s : state) (ev : list event) (n : nat) : state :=
  {| trace := (trace s ++ ev)%list; nrand := (n + nrand s)%nat |}.

(** Events that only print. *)
Definition quiet_event (e : event) : bool :=
  match e with
  | EvLog _ | EvDebug _ _ | EvStdout _ => true
  | EvSpawn _ _ | EvRm _ | EvErr _ => false
  end.

Definition quiet (ev : list event) : bool := forallb quiet_event ev.

(** From the state [s] the computation [m] ends as [o], having started
    the processes [sp], removed the files [rmv] and reported the errors
    [rep], in these orders. *)
Definition behaves {A} (m : M A) (s : state) (o : outcome A)
    (sp : list (string * list value)) (rmv : list string) (rep : list exn) : Prop :=
  exists ev n,
    m s = (o, after s ev n)
    /\ spawned ev = sp /\ removed ev = rmv /\ reported ev = rep.

(** The tool [prog] called with [args] behaves as [r] whatever happened
    before. *)
Definition steady (h : host) (prog : string) (args : list value) (r : proc_result)
  : Prop :=
  forall t, proc h t prog args = r.

(** ** Encoder arguments and track tags *)

(** The text of one "key=value" piece of the extra-arguments option. *)
Definition piece (kv : string * string) : string :=
  fst kv ++ String "=" (snd kv).

(** The text of the extra-arguments option for a list of key/value
    pairs: "k1=v1:k2=v2:...". *)
Definition render_pairs (pairs : list (string * string)) : string :=
  join ":" (map piece pairs).

(** A key or value with neither ":" nor "=" in it. *)
Definition word (s : string) : bool :=
  (occurrences ":" s =? 0)%nat && (occurrences "=" s =? 0)%nat.

(** The two tokens the encoder receives for a pair. *)
Definition pair_tokens (kv : string * string) : list value :=
  strs ["--" ++ fst kv; snd kv].

(** A tag whose key is "language" in any letter case. *)
Definition is_language (kv : string * value) : bool :=
  String.eqb (toLowerCase (fst kv)) "language".

(** ** The side-data scan and its sidecars *)

(** Whether the collection [e] carries a record of kind [k]. *)
Definition found (k : kind) (e : option (list side_data)) : bool :=
  match find e (kind_name k) with
  | Some _ => true
  | None => false
  end.

(** The first record of kind [k] of the frame, when the stream has
    none. *)
Definition late (k : kind) (st : stream) (fr : frame) : option side_data :=
  if found k (stream_side_data_list st) then None
  else find (frame_side_data_list fr) (kind_name k).

(** The encoder tokens for a mastering-display record and for a
    content-light-level record. *)
Definition master_tokens (r : option side_data) : list string :=
  match r with
  | Some t =>
      match parse_master_display t with
      | Ret m => ["--master-display"; m]
      | Throw _ => []
      end
  | None => []
  end.

Definition cll_tokens (r : option side_data) : list string :=
  match r with
  | Some t => ["--max-cll"; to_string (max_content t) ++ "," ++ to_string (max_average t)]
  | None => []
  end.

(** A path that is set. *)
Definition is_set (o : option string) : bool :=
  match o with
  | Some _ => true
  | None => false
  end.

(** The first temporary name drawn from the state [s], with the given
    extension. *)
Definition next_temp (h : host) (s : state) (extra : string) : string :=
  cwd_join h (TEMP_BASE ++ random_hex h (nrand s) ++ extra).

(** The arguments of the demuxer that feeds an extractor, and of the
    two extractors told to write [name]. *)
Definition demux_args (p : paths) : list value :=
  strs ["-i"; input p; "-map"; "0:v:0?"; "-c:v"; "copy"; "-bsf:v";
        "hevc_mp4toannexb"; "-f"; "hevc"; "-"].

Definition extract_rpu_args (name : string) : list value :=
  strs (split " " ("extract-rpu -o " ++ name ++ " -")).

Definition extract_plus_args (name : string) : list value :=
  strs (split " " ("extract -o " ++ name ++ " -")).

(** The line printed before a Dolby Vision extraction into [name], and
    its two processes. *)
Definition extract_rpu_events (h : host) (p : paths) (name : string) : list event :=
  [ EvLog (log_line "Found Dolby Vision");
    EvSpawn (FFMPEG h) (demux_args p);
    EvSpawn (DOVI_TOOL h) (extract_rpu_args name) ].

(** A sidecar path, if set, names the file the extractor [tool] was
    told to write, in a process of the trace [t]. *)
Definition written_by (h : host) (o : option string) (tool : string)
    (mk : string -> list value) (t : list event) : Prop :=
  match o with
  | Some name => In (tool, mk name) (spawned t)
  | None => True
  end.

(** Both sidecars of [p] are accounted for in [t]. *)
Definition linked (h : host) (p : paths) (t : list event) : Prop :=
  written_by h (dv p) (DOVI_TOOL h) extract_rpu_args t
  /\ written_by h (plus p) (HDR10PLUS_TOOL h) extract_plus_args t.

(** ** The main function *)

(** The [paths] record the main function builds, from the state [s] in
    which it draws the name of the transcode target. *)
Definition job_record (h : host) (arg0 : string) (arg1 : option string) (s : state)
  : paths :=
  {| input := job_input h arg0; output := job_output h arg0 arg1;
     temp := first_temp h s; dv := None; plus := None; audio_temp := [] |}.

(** The state of the main function when the probe has exited. *)
Definition probed (h : host) (arg0 : string) (arg1 : option string) (opts : options)
    (s : state) : state :=
  after s (prelude h arg0 arg1 opts ++ [EvSpawn (FFPROBE h) (probe_args h arg0)]) 1.

(** The probe exits with code 0 and its output parses as [d]. *)
Definition probe_yields (h : host) (arg0 : string) (arg1 : option string)
    (opts : options) (s : state) (d : probe_data) : Prop :=
  let r := probe_run h arg0 arg1 opts s in
  exit_is_zero (exit_code r) = true
  /\ JSON_parse h (concat_chunks (stdout_chunks r)) = Some d.

(** The main function from the test of [d._e] on: the content checks
    and what follows them. *)
Definition content_checks (h : host) (opts : options) (d : probe_data) (p : paths)
  : M unit :=
  if truthy (_e d)
  then err (Message ("Could not parse with ffprobe: " ++ to_string (_e d)))
  else
    match streams d with
    | None => raise TypeError
    | Some ss =>
        if (List.length ss <? 1)%nat
        then err (Message "No streams were found in the file")
        else
          match List.find (fun x => is_string (codec_type x) "video") ss with
          | None => err (Message "No video stream was found in the file")
          | Some st =>
              match frames d with
              | None => raise TypeError
              | Some fs =>
                  match fs with
                  | [] => err (Message "No frames were found in the video stream")
                  | fr :: _ =>
                      let audio_streams :=
                        filter (fun x => is_string (codec_type x) "audio") ss in
                      (if opus opts && (List.length audio_streams <? 1)%nat
                       then warn "Opus requested but no audio streams found"
                       else ret tt) ;;
                      encode h opts d st fr audio_streams p
                  end
              end
          end
    end.

Definition is_video (x : stream) : bool := is_string (codec_type x) "video".
Definition is_audio (x : stream) : bool := is_string (codec_type x) "audio".

(** The line printed when opus is requested for a file without audio. *)
Definition opus_warning (opts : options) (ss : list stream) : list event :=
  if opus opts && (List.length (filter is_audio ss) <? 1)%nat
  then [EvLog (LOG_PREFIX ++ " [WARNING] " ++ "Opus requested but no audio streams found")]
  else [].

(** The closing lines of the encoder stage and of the multiplexer. *)
Definition transcode_done : event := EvLog (LF ++ LOG_PREFIX ++ " Done transcoding").
Definition merge_done : event := EvLog (LF ++ LOG_PREFIX ++ " Merge done").

(** What the main function reports after the encoder and the
    multiplexer behaved as [rx] and [rm]. *)
Definition run_report (rx rm : proc_result) : list exn :=
  if exit_is_zero (exit_code rx)
  then (if exit_is_zero (exit_code rm) then [] else [Message (diagnostic rm)])
  else [Message ("Transcode failed: " ++ to_string (exit_value (exit_code rx)))].

(** ** The audio loop and the multiplexer *)

(** The decoder call of the audio loop for the stream [a] of the file
    [file], writing to [name]. *)
Definition opus_call (h : host) (opts : options) (file : string) (a : stream)
    (name : string) : string * list value :=
  (FFMPEG h,
   strs ["-i"; file; "-map"; "0:" ++ to_string (index a);
         "-map_chapters"; "-1"; "-map_metadata"; "-1"; "-c:a"; "libopus";
         "-b:a"; to_string (opusBitrate opts) ++ "k"; name]).

Definition opus_calls (h : host) (opts : options) (file : string)
    (auds : list stream) (names : list string) : list (string * list value) :=
  map (fun an => opus_call h opts file (fst an) (snd an)) (combine auds names).

(** The locals of the audio loop before its first turn. *)
Definition audio_start (p : paths) : audio_state :=
  {| apaths := p; aud_tags := []; aud_i := 0 |}.

(** The arguments of one audio track: its flags, then its file. *)
Definition audio_track (tf : track_tags * string) : list value :=
  (track_flags (fst tf) ++ [VString (snd tf)])%list.

(** ** The progress pattern *)

(** Every character of [s] satisfies [p]. *)
Fixpoint all_chars (p : ascii -> bool) (s : string) : bool :=
  match s with
  | EmptyString => true
  | String c r => p c && all_chars p r
  end.

(** A non-empty string of decimal digits; a string without any. *)
Definition numeral (s : string) : bool := str_nonempty s && all_chars is_digit s.
Definition digitless (s : string) : bool := all_chars (fun c => negb (is_digit c)) s.

(** A progress line of the encoder: frames done, rate and bit rate. *)
Definition x265_line (f a b c d : string) : string :=
  f ++ " frames: " ++ a ++ "." ++ b ++ " fps, " ++ c ++ "." ++ d ++ " kb/s".

(** What follows a run of digits: the end, or a character that is not
    a digit. *)
Definition stops (rest : string) : bool :=
  match rest with
  | EmptyString => true
  | String y _ => negb (is_digit y)
  end.

(** ** Inputs of the further examples *)

(** A process that exits with [code] after writing [text] on its error
    stream. *)
Definition exits (code : Z) (text : list string) : proc_result :=
  {| exit_code := Some code; stdout_chunks := []; stderr_chunks := text |}.

(** A host on which the tool named [prog] behaves as [r] and every
    other tool exits with code 0, the probe result parses as [d], and
    the files [locked] cannot be removed. *)
Definition scripted_host (d : option probe_data) (prog : string) (r : proc_result)
    (locked : string -> bool) : host :=
  {| env := env quiet_host;
     cwd_join := cwd_join quiet_host;
     resolve := resolve quiet_host;
     stem := stem quiet_host;
     random_hex := random_hex quiet_host;
     proc := fun _ p _ => if String.eqb p prog then r else exits 0 [];
     rm_error := fun _ f => if locked f then Some (Error "EPERM") else None;
     JSON_parse := fun _ => d;
     Date_parse := Date_parse quiet_host;
     inherited := inherited quiet_host |}.

(** A stream with a content-light-level record only. *)
Definition cll_stream : stream :=
  with_side_data (bare_stream VUndefined None)
    (Some [side_record "Content light level metadata" 1000 400]).

(** A stream with a Dolby Vision record and an HDR10+ record. *)
Definition dovi_stream : stream :=
  with_side_data (bare_stream VUndefined None)
    (Some [side_record "DOVI configuration record" 0 0;
           side_record "HDR Dynamic Metadata SMPTE2094-40 (HDR10+)" 0 0]).

(** A probe result with the given streams and frames. *)
Definition probe_with (ss : list stream) (fs : list frame) : probe_data :=
  {| _e := VUndefined; streams := Some ss; frames := Some fs;
     probe_format := Some {| format_duration := VString "10.000000" |} |}.

(** An audio stream. *)
Definition audio_stream (i : Z) (t : option (list (string * value))) : stream :=
  {| index := VNumber (float_of_Z i); codec_type := VString "audio";
     pix_fmt := VUndefined; r_frame_rate := VString "0/0";
     field_order := VUndefined; range := VUndefined;
     color_range := VUndefined; color_primaries := VUndefined;
     color_transfer := VUndefined; color_space := VUndefined;
     duration := VString "10.000000"; tags := t; stream_disposition := None;
     stream_side_data_list := None |}.

(** Two audio streams, and the audio loop over them on [quiet_host]. *)
Definition two_tracks : list stream :=
  [audio_stream 1 (Some [("language", VString "jpn")]); audio_stream 2 None].

Definition two_tracks_run : outcome (unit + audio_state) * state :=
  for_each two_tracks (audio_start (job_paths None None))
    (opus_body quiet_host default_options None) start.

Definition loop_state (r : outcome (unit + audio_state) * state) : audio_state :=
  match fst r with
  | Done (inr a) => a
  | _ => audio_start (job_paths None None)
  end.

(** The default options with opus audio requested. *)
Definition default_options_opus : options :=
  {| preset := "medium"; crf := "23"; keepBit := false; doubleFps := false;
     time := None; seek := None; extra_args := None; verbose := false;
     opus := true; opusBitrate := VString "128" |}.

(** [o] with a time limit. *)
Definition with_time (o : options) (t : string) : options :=
  {| preset := preset o; crf := crf o; keepBit := keepBit o; doubleFps := doubleFps o;
     time := Some t; seek := seek o; extra_args := extra_args o;
     verbose := verbose o; opus := opus o; opusBitrate := opusBitrate o |}.

(** The paths of a job with the given audio files. *)
Definition with_audio (p : paths) (names : list string) : paths :=
  {| input := input p; output := output p; temp := temp p;
     dv := dv p; plus := plus p; audio_temp := names |}.

(* ================================================================== *)
(** * Rational parsing *)
(* ================================================================== *)

Lemma split_length (c : ascii) (s : string) :
  List.length (split c s) = S (occurrences c s).
Proof.
  induction s as [|x r IH]; simpl; [reflexivity|].
  destruct (Ascii.eqb x c); simpl.
  - now rewrite IH.
  - destruct (split c r) as [|p ps] eqn:E; simpl in *; [discriminate|exact IH].
Qed.

Lemma split_no_sep (c : ascii) (s : string) :
  occurrences c s = O -> split c s = [s].
Proof.
  induction s as [|x r IH]; simpl; [reflexivity|].
  destruct (Ascii.eqb x c); [discriminate|].
  intros H. now rewrite (IH H).
Qed.

Lemma split_app (c : ascii) (n d : string) :
  occurrences c n = O -> split c (n ++ String c d) = n :: split c d.
Proof.
  induction n as [|x r IH]; simpl.
  - intros _. now rewrite Ascii.eqb_refl.
  - destruct (Ascii.eqb x c); [discriminate|].
    intros H. now rewrite (IH H).
Qed.

(** The equations of [parse_slash_number], by the shape of the split. *)
Lemma parse_slash_number_one (input : string) :
  occurrences "/" input = O -> parse_slash_number input = Number input.
Proof.
  intros H. unfold parse_slash_number.
  now rewrite split_length, H.
Qed.

Lemma parse_slash_number_two (input n d : string) :
  split "/" input = [n; d] ->
  parse_slash_number input =
    if isNaN (Number n) || isNaN (Number d) then nan else Number n / Number d.
Proof.
  intros H. unfold parse_slash_number. rewrite H. reflexivity.
Qed.

Lemma parse_slash_number_many (input : string) :
  (1 < occurrences "/" input)%nat -> parse_slash_number input = nan.
Proof.
  intros H. unfold parse_slash_number. rewrite split_length.
  destruct (occurrences "/" input) as [|[|k]]; [lia|lia|reflexivity].
Qed.

(** C4 (as amended): a string "N/D" with no further "/" and numeric
    parts gives Number(N) / Number(D); a string with no "/" gives
    Number(input), its numeric value, rather than the sentinel; a string
    with more than one "/" gives NaN; a string "N/D" with a non-numeric
    part gives NaN. *)
Theorem parse_slash_number_spec (n d : string) :
  (occurrences "/" n = O -> occurrences "/" d = O ->
   isNaN (Number n) = false -> isNaN (Number d) = false ->
   parse_slash_number (n ++ String "/" d) = Number n / Number d)
  /\ (occurrences "/" n = O -> parse_slash_number n = Number n)
  /\ ((1 < occurrences "/" n)%nat -> parse_slash_number n = nan)
  /\ (occurrences "/" n = O -> occurrences "/" d = O ->
      isNaN (Number n) = true \/ isNaN (Number d) = true ->
      parse_slash_number (n ++ String "/" d) = nan).
Proof.
  assert (two : occurrences "/" n = O -> occurrences "/" d = O ->
                split "/" (n ++ String "/" d) = [n; d]).
  { intros Hn Hd. now rewrite (split_app _ _ _ Hn), (split_no_sep _ _ Hd). }
  repeat split.
  - intros Hn Hd Nn Nd.
    rewrite (parse_slash_number_two _ _ _ (two Hn Hd)), Nn, Nd. reflexivity.
  - apply parse_slash_number_one.
  - apply parse_slash_number_many.
  - intros Hn Hd [N|N]; rewrite (parse_slash_number_two _ _ _ (two Hn Hd)), N.
    + reflexivity.
    + now rewrite orb_true_r.
Qed.

Lemma parse_slash_number_spec_witness :
  parse_slash_number ("24000" ++ String "/" "1001") = Number "24000" / Number "1001"
  /\ parse_slash_number "24000" = Number "24000"
  /\ parse_slash_number "1/2/3" = nan
  /\ parse_slash_number ("a" ++ String "/" "1") = nan.
Proof.
  split; [|split; [|split]].
  - apply (proj1 (parse_slash_number_spec "24000" "1001")); vm_compute; reflexivity.
  - apply (proj1 (proj2 (parse_slash_number_spec "24000" ""))); vm_compute; reflexivity.
  - apply (proj1 (proj2 (proj2 (parse_slash_number_spec "1/2/3" "")))); vm_compute; lia.
  - apply (proj2 (proj2 (proj2 (parse_slash_number_spec "a" "1"))));
      [vm_compute; reflexivity | vm_compute; reflexivity | left; vm_compute; reflexivity].
Defined.

(** C4 (as stated) fails: "24" has no "/", yet the parser returns the
    number 24, not the sentinel. *)
Lemma parse_slash_number_bare_number :
  occurrences "/" "24" = O
  /\ parse_slash_number "24" = 24
  /\ isNaN (parse_slash_number "24") = false
  /\ ~ (forall input, occurrences "/" input = O -> isNaN (parse_slash_number input) = true).
Proof.
  assert (E : isNaN (parse_slash_number "24") = false) by (vm_compute; reflexivity).
  split; [|split; [|split]].
  - vm_compute; reflexivity.
  - vm_compute; reflexivity.
  - exact E.
  - intros H. specialize (H "24" eq_refl). rewrite E in H. discriminate.
Qed.

(* ================================================================== *)
(** * Mastering-display translation *)
(* ================================================================== *)

Lemma master_display_loop_valid (l : list value) :
  forall i o, forallb valid_field l = true ->
  master_display_loop i l o = Ret (o ++ scaled_fields i l)%list.
Proof.
  induction l as [|v r IH]; intros i o H; simpl.
  - now rewrite app_nil_r.
  - simpl in H. apply andb_prop in H as [Hv Hr].
    destruct v; try discriminate.
    unfold valid_field in Hv. apply andb_prop in Hv as [Hs Hn].
    simpl. rewrite Hs. simpl.
    apply negb_true_iff in Hn. rewrite Hn.
    rewrite (IH _ _ Hr), <- app_assoc. reflexivity.
Qed.

Lemma master_display_loop_invalid (l : list value) :
  forall i o, forallb valid_field l = false ->
  exists e, master_display_loop i l o = Throw e.
Proof.
  induction l as [|v r IH]; intros i o H; simpl in *; [discriminate|].
  destruct (truthy v) eqn:T; simpl; [|eauto].
  destruct v; simpl in *; eauto.
  rewrite T in H. simpl in H.
  destruct (isNaN (parse_slash_number s)); simpl in *; eauto.
Qed.

Lemma master_display_loop_this_wrong (l : list value) :
  forall i o, forallb string_or_absent l = true -> forallb valid_field l = false ->
  master_display_loop i l o = Throw (Error "this wrong").
Proof.
  induction l as [|v r IH]; intros i o S H; simpl in *; [discriminate|].
  apply andb_prop in S as [Sv Sr].
  destruct v; simpl in *; try discriminate; try reflexivity.
  destruct (str_nonempty s); simpl in *; [|reflexivity].
  destruct (isNaN (parse_slash_number s)); simpl in *; [reflexivity|].
  now apply IH.
Qed.

Lemma master_display_loop_falsy (l : list value) :
  forall i o,
  Forall (fun v => valid_field v = true \/ truthy v = false) l ->
  Exists (fun v => truthy v = false) l ->
  master_display_loop i l o = Throw (Error "this wrong").
Proof.
  induction l as [|v r IH]; intros i o F E; [inversion E|].
  inversion F as [|? ? Fv Fr]; subst.
  simpl. destruct (truthy v) eqn:T; [|reflexivity].
  destruct Fv as [Fv|Fv]; [|discriminate].
  destruct v; try discriminate.
  unfold valid_field in Fv. apply andb_prop in Fv as [_ Hn].
  apply negb_true_iff in Hn. simpl. rewrite Hn.
  apply IH; [exact Fr|].
  inversion E as [? ? E1|? ? E1]; subst; [congruence|exact E1].
Qed.

(** C5 (as amended): a record whose ten fields are all non-empty
    strings that parse as rationals yields the full pattern, the first
    eight values scaled by 50000 and the last two by 10000, each through
    Math.round; the translation fails exactly when some field is not
    such a string (absent, empty, not a string, or not numeric), with
    the Error "this wrong" when the fields are strings or absent; and a
    returned string is always the full pattern. *)
Theorem parse_master_display_spec (p : side_data) :
  (forall gx gy bx by_ rx ry wx wy maxl minl,
     master_display_fields p = map VString [gx; gy; bx; by_; rx; ry; wx; wy; maxl; minl] ->
     forallb valid_field (master_display_fields p) = true ->
     parse_master_display p =
       Ret ("G(" ++ shown 50000 gx ++ "," ++ shown 50000 gy
            ++ ")B(" ++ shown 50000 bx ++ "," ++ shown 50000 by_
            ++ ")R(" ++ shown 50000 rx ++ "," ++ shown 50000 ry
            ++ ")WP(" ++ shown 50000 wx ++ "," ++ shown 50000 wy
            ++ ")L(" ++ shown 10000 maxl ++ "," ++ shown 10000 minl ++ ")"))
  /\ ((exists e, parse_master_display p = Throw e)
      <-> forallb valid_field (master_display_fields p) = false)
  /\ (forallb string_or_absent (master_display_fields p) = true ->
      forallb valid_field (master_display_fields p) = false ->
      parse_master_display p = Throw (Error "this wrong"))
  /\ (forall s, parse_master_display p = Ret s ->
      forallb valid_field (master_display_fields p) = true
      /\ s = master_display_string (scaled_fields 0 (master_display_fields p))).
Proof.
  unfold parse_master_display.
  split; [|split; [|split]].
  - intros gx gy bx by_ rx ry wx wy maxl minl E V.
    rewrite (master_display_loop_valid _ 0%nat [] V), E. reflexivity.
  - split.
    + intros [e H].
      destruct (forallb valid_field (master_display_fields p)) eqn:V; [|reflexivity].
      rewrite (master_display_loop_valid _ 0%nat [] V) in H. discriminate.
    + intros V.
      destruct (master_display_loop_invalid _ 0%nat [] V) as [e ->]. eauto.
  - intros S V. now rewrite (master_display_loop_this_wrong _ 0%nat [] S V).
  - intros s H.
    destruct (forallb valid_field (master_display_fields p)) eqn:V.
    + rewrite (master_display_loop_valid _ 0%nat [] V) in H.
      injection H as <-. auto.
    + destruct (master_display_loop_invalid _ 0%nat [] V) as [e E].
      rewrite E in H. discriminate.
Qed.

Lemma parse_master_display_spec_witness :
  parse_master_display (mastering (map VString bt2020_fields))
  = Ret "G(8500,39850)B(6550,2300)R(35400,14600)WP(15635,16450)L(10000000,50)"
  /\ parse_master_display (mastering (map VString (firstn 9 bt2020_fields)))
     = Throw (Error "this wrong").
Proof.
  split.
  - rewrite (proj1 (parse_master_display_spec (mastering (map VString bt2020_fields)))
               "8500/50000" "39850/50000" "6550/50000" "2300/50000" "35400/50000"
               "14600/50000" "15635/50000" "16450/50000" "10000000/10000" "50/10000");
      vm_compute; reflexivity.
  - apply (proj1 (proj2 (proj2 (parse_master_display_spec
                                  (mastering (map VString (firstn 9 bt2020_fields)))))));
      vm_compute; reflexivity.
Defined.

(** C5 (as stated) fails: every field is present and is read by the
    rational parser as a number (the empty string as 0), yet the
    translation fails instead of returning the formatted string. *)
Lemma parse_master_display_empty_string :
  let p := mastering (map VString (firstn 9 bt2020_fields ++ [EmptyString])) in
  forallb present (master_display_fields p) = true
  /\ forallb parses_as_rational (master_display_fields p) = true
  /\ parse_slash_number EmptyString = 0
  /\ parse_master_display p = Throw (Error "this wrong").
Proof.
  cbv zeta. split; [|split; [|split]]; vm_compute; reflexivity.
Qed.

(** C10: the presence test is a truthiness test.  Whenever some field
    is falsy and the others are acceptable the translation throws the
    Error "this wrong"; any falsy field makes it fail; and this happens
    on records whose fields are all present and numeric: with a
    luminance given as the JSON number 0, and with one given as the
    empty string. *)
Theorem parse_master_display_truthiness :
  (forall p,
     forallb (fun v => valid_field v || negb (truthy v)) (master_display_fields p) = true ->
     existsb (fun v => negb (truthy v)) (master_display_fields p) = true ->
     parse_master_display p = Throw (Error "this wrong"))
  /\ (forall p,
        existsb (fun v => negb (truthy v)) (master_display_fields p) = true ->
        exists e, parse_master_display p = Throw e)
  /\ (exists p,
        forallb present (master_display_fields p) = true
        /\ forallb numeric (master_display_fields p) = true
        /\ min_luminance p = VNumber 0
        /\ parse_master_display p = Throw (Error "this wrong"))
  /\ (exists p,
        forallb present (master_display_fields p) = true
        /\ forallb numeric (master_display_fields p) = true
        /\ green_x p = VString EmptyString
        /\ parse_master_display p = Throw (Error "this wrong")).
Proof.
  split; [|split; [|split]].
  - intros p F E. unfold parse_master_display.
    rewrite (master_display_loop_falsy _ 0%nat []); [reflexivity| |].
    + apply Forall_forall. intros v I.
      rewrite forallb_forall in F. specialize (F v I).
      apply orb_prop in F as [F|F]; [now left|right].
      now apply negb_true_iff.
    + apply existsb_exists in E as (v & I & T).
      apply Exists_exists. exists v. split; [exact I|now apply negb_true_iff].
  - intros p E. unfold parse_master_display.
    assert (V : forallb valid_field (master_display_fields p) = false).
    { apply existsb_exists in E as (v & I & T). apply negb_true_iff in T.
      destruct (forallb valid_field (master_display_fields p)) eqn:V; [|reflexivity].
      rewrite forallb_forall in V. specialize (V v I).
      destruct v; try discriminate. simpl in *. rewrite T in V. discriminate. }
    destruct (master_display_loop_invalid _ 0%nat [] V) as [e ->]. eauto.
  - exists (mastering (map VString (firstn 9 bt2020_fields) ++ [VNumber 0])%list).
    split; [|split; [|split]]; vm_compute; reflexivity.
  - exists (mastering (VString EmptyString :: map VString (skipn 1 bt2020_fields))).
    split; [|split; [|split]]; vm_compute; reflexivity.
Qed.

Lemma parse_master_display_truthiness_witness :
  parse_master_display
    (mastering (map VString (firstn 9 bt2020_fields) ++ [VNumber 0])%list)
  = Throw (Error "this wrong").
Proof.
  apply (proj1 parse_master_display_truthiness); vm_compute; reflexivity.
Defined.

(* ================================================================== *)
(** * Pixel-format translation *)
(* ================================================================== *)

Lemma parse_pix_fmt_not_yuv (input : string) :
  includes input "yuv" = false -> parse_pix_fmt input = Throw (Error "Input must be YUV").
Proof.
  intros H. unfold parse_pix_fmt. now rewrite H.
Qed.

Lemma parse_pix_fmt_yuv (input s0 s1 : string) (rest : list string) :
  includes input "yuv" = true -> split "p" input = s0 :: s1 :: rest ->
  parse_pix_fmt input =
    Ret {| csp := "i" ++ digits_only s0;
           depth := if str_nonempty (digits_only s1) then digits_only s1 else "8" |}.
Proof.
  intros H E. unfold parse_pix_fmt. now rewrite H, E.
Qed.

Example parse_pix_fmt_yuv420p10le :
  parse_pix_fmt "yuv420p10le" = Ret {| csp := "i420"; depth := "10" |}.
Proof. reflexivity. Qed.

Example parse_pix_fmt_yuv444p :
  parse_pix_fmt "yuv444p" = Ret {| csp := "i444"; depth := "8" |}.
Proof. reflexivity. Qed.

(** C6: the code on a format string that contains "yuv" but no "p":
    [s[1]] is undefined and the translation faults with a TypeError,
    where the claim promises a csp and a depth of "8". *)
Theorem parse_pix_fmt_without_p (input : string) :
  includes input "yuv" = true -> occurrences "p" input = O ->
  parse_pix_fmt input = Throw TypeError.
Proof.
  intros H P. unfold parse_pix_fmt.
  now rewrite H, (split_no_sep _ _ P).
Qed.

Lemma parse_pix_fmt_without_p_witness :
  includes "ayuv64le" "yuv" = true /\ parse_pix_fmt "ayuv64le" = Throw TypeError.
Proof.
  split; [reflexivity|].
  apply (parse_pix_fmt_without_p "ayuv64le"); reflexivity.
Defined.

(* ================================================================== *)
(** * Duration resolution *)
(* ================================================================== *)

Section DurationFacts.

Variable Date_parse : string -> float.

Lemma get_duration_own (st : stream) (fmt : option format) :
  truthy (duration st) = true ->
  get_duration Date_parse st fmt = Ret (to_number (duration st)).
Proof.
  intros H. unfold get_duration. now rewrite H.
Qed.

Lemma get_duration_first_tag (st : stream) (fmt : option format) k v rest :
  truthy (duration st) = false -> tags st = Some ((k, v) :: rest) ->
  startsWith (toLowerCase k) "duration" = true ->
  get_duration Date_parse st fmt
  = Ret (Date_parse ("1970-01-01T" ++ to_string v ++ "Z") / 1000).
Proof.
  intros H T K. unfold get_duration. rewrite H, T. simpl. now rewrite K.
Qed.

(** C3: what the code does where the claim says otherwise.  Without
    tags on the stream the container-level duration is never consulted
    and the result is NaN; and a tag that is not a duration tag, met
    first, sends the function to the container-level duration even
    though a duration tag follows. *)
Theorem get_duration_fallback (st : stream) (f : format) :
  truthy (duration st) = false ->
  (tags st = None \/ tags st = Some [] -> get_duration Date_parse st (Some f) = Ret nan)
  /\ (forall k v rest,
        tags st = Some ((k, v) :: rest) ->
        startsWith (toLowerCase k) "duration" = false ->
        truthy (format_duration f) = true ->
        get_duration Date_parse st (Some f) = Ret (to_number (format_duration f))).
Proof.
  intros H. unfold get_duration. rewrite H. split.
  - intros [-> | ->]; reflexivity.
  - intros k v rest -> K F. simpl. now rewrite K, F.
Qed.

End DurationFacts.

Lemma get_duration_fallback_witness :
  get_duration epoch_day_ms (bare_stream VUndefined None)
    (Some {| format_duration := VString "60.000000" |}) = Ret nan
  /\ get_duration epoch_day_ms
       (bare_stream VUndefined
          (Some [("language", VString "eng"); ("DURATION", VString "00:01:00.000")]))
       (Some {| format_duration := VString "61.000000" |})
     = Ret (to_number (VString "61.000000")).
Proof.
  split.
  - apply (proj1 (get_duration_fallback epoch_day_ms (bare_stream VUndefined None)
                    {| format_duration := VString "60.000000" |} eq_refl)).
    left. reflexivity.
  - apply (proj2 (get_duration_fallback epoch_day_ms
                    (bare_stream VUndefined
                       (Some [("language", VString "eng");
                              ("DURATION", VString "00:01:00.000")]))
                    {| format_duration := VString "61.000000" |} eq_refl)
             "language" (VString "eng") [("DURATION", VString "00:01:00.000")]);
      reflexivity.
Defined.

(** The same stream with the duration tag first resolves to 60 s. *)
Example get_duration_tag_first :
  get_duration epoch_day_ms
    (bare_stream VUndefined
       (Some [("DURATION", VString "00:01:00.000"); ("language", VString "eng")]))
    (Some {| format_duration := VString "61.000000" |})
  = Ret 60.
Proof. vm_compute. reflexivity. Qed.

(* ================================================================== *)
(** * Rolling-average ETA *)
(* ================================================================== *)

Lemma window_push_full (w : list float) (x : float) :
  List.length w = 500%nat -> window_push w x = (tl w ++ [x])%list.
Proof.
  intros H. unfold window_push. rewrite H. reflexivity.
Qed.

Lemma window_push_room (w : list float) (x : float) :
  List.length w <> 500%nat -> window_push w x = (w ++ [x])%list.
Proof.
  intros H. unfold window_push.
  destruct (Nat.eqb_spec (List.length w) 500); [contradiction|reflexivity].
Qed.

Lemma window_push_length (w : list float) (x : float) :
  (List.length w <= 500)%nat -> (List.length (window_push w x) <= 500)%nat.
Proof.
  intros H. destruct (Nat.eq_dec (List.length w) 500) as [E|E].
  - rewrite (window_push_full _ _ E), length_app. simpl.
    destruct w; simpl in *; lia.
  - rewrite (window_push_room _ _ E), length_app. simpl. lia.
Qed.

Lemma tl_skipn {A} (l : list A) : forall k, tl (skipn k l) = skipn (S k) l.
Proof.
  induction l as [|a l IH]; intros [|k]; try reflexivity.
  simpl. apply IH.
Qed.

(** Fed from an empty window, the window holds the most recent samples,
    500 at most. *)
Lemma window_fold (xs : list float) :
  fold_left window_push xs [] = skipn (List.length xs - 500) xs.
Proof.
  induction xs as [|x xs IH] using rev_ind; [reflexivity|].
  rewrite fold_left_app, IH, length_app. simpl.
  destruct (Nat.lt_ge_cases (List.length xs) 500) as [L|G].
  - replace (List.length xs - 500)%nat with 0%nat by lia.
    replace (List.length xs + 1 - 500)%nat with 0%nat by lia.
    rewrite !skipn_0. apply window_push_room. lia.
  - rewrite window_push_full by (rewrite length_skipn; lia).
    rewrite tl_skipn, skipn_app.
    replace (List.length xs + 1 - 500)%nat with (S (List.length xs - 500)) by lia.
    replace (S (List.length xs - 500) - List.length xs)%nat with 0%nat by lia.
    reflexivity.
Qed.

Lemma skipn_repeat {A} (x : A) (n k : nat) :
  skipn k (repeat x n) = repeat x (n - k).
Proof.
  revert k. induction n as [|n IH]; intros [|k]; simpl; try reflexivity.
  apply IH.
Qed.

Lemma window_constant (R : float) (n : nat) :
  (500 < n)%nat -> fold_left window_push (repeat R n) [] = repeat R 500.
Proof.
  intros H. rewrite window_fold, repeat_length, skipn_repeat.
  f_equal. lia.
Qed.

Lemma x265_progress_match (frames : float) (avg : list float) (l : string)
    (result : captures) (s : state) :
  exec X265_REGEX l = Some result ->
  x265_progress frames avg l s =
    (Done (window_push avg (to_number (capture 2 result))),
     {| trace := trace s
                 ++ [EvStdout (progress_line frames result
                                 (average_of (window_push avg (to_number (capture 2 result)))))];
        nrand := nrand s |}).
Proof.
  intros H. unfold x265_progress. rewrite H. reflexivity.
Qed.

Lemma x265_progress_no_match (frames : float) (avg : list float) (l : string) (s : state) :
  exec X265_REGEX l = None -> x265_progress frames avg l s = (Done avg, s).
Proof.
  intros H. unfold x265_progress. rewrite H. reflexivity.
Qed.

Lemma x265_listen_window (frames : float) (chunks : list string) :
  forall avg s,
  fst (x265_listen frames chunks avg s) = Done (fold_left window_push (samples chunks) avg).
Proof.
  induction chunks as [|l rest IH]; intros avg s; [reflexivity|].
  simpl. unfold bind, sample_of.
  destruct (exec X265_REGEX l) as [result|] eqn:E.
  - rewrite (x265_progress_match _ _ _ _ _ E). apply IH.
  - rewrite (x265_progress_no_match _ _ _ _ E). apply IH.
Qed.

Lemma steps_in_range (n : nat) (k : Z) :
  (0 <= k < Z.of_nat n)%Z -> In k (map Z.of_nat (seq 0 n)).
Proof.
  intros H. apply in_map_iff. exists (Z.to_nat k). split; [lia|].
  apply in_seq. lia.
Qed.

Lemma quarter_rates_checked : forallb exact_at (map Z.of_nat (seq 0 1001)) = true.
Proof. vm_compute. reflexivity. Qed.

(** A full window of a rate that is a multiple of 0.25 up to 250 has
    that rate as its smoothed rate. *)
Lemma quarter_rates_exact (k : Z) :
  (0 <= k <= 1000)%Z -> average_of (repeat (quarter k) 500) = quarter k.
Proof.
  intros H. apply FloatAxioms.Leibniz.eqb_spec.
  apply (proj1 (forallb_forall exact_at _) quarter_rates_checked).
  apply steps_in_range. lia.
Qed.

Lemma fields_checked : forallb pad_ok (map Z.of_nat (seq 0 100)) = true.
Proof. vm_compute. reflexivity. Qed.

(** A field of the estimate that is a whole number from 0 to 99 is
    printed with two digits. *)
Lemma pad2_two_digits (k : Z) :
  (0 <= k < 100)%Z -> pad2 (float_of_Z k) = two_digits k.
Proof.
  intros H. apply String.eqb_eq.
  apply (proj1 (forallb_forall pad_ok _) fields_checked).
  now apply steps_in_range.
Qed.

(** C7 (as amended): the window never exceeds 500 samples and its
    oldest sample is dropped exactly when a sample arrives with the
    window full, so that the parser holds the most recent 500 samples.
    The smoothed rate of a window is its binary64 sum, added oldest
    first from 0, divided by the number of its samples, and a matching
    chunk prints the estimate made with the smoothed rate of the
    updated window.  After more than 500 samples all equal to R the
    window is 500 copies of R, and the smoothed rate is R itself for
    every R that is a multiple of 0.25 from 0 to 250.  The estimate is
    Math.round((frames - done) / smoothed rate), printed as
    hours:minutes:seconds where, for n the integer reading of the
    estimate, hours is floor(n / 3600), minutes is floor(n / 60) mod 60
    and seconds is n mod 60; a field that is a whole number from 0 to
    99 is printed with two digits, so that 3661 is printed 01:01:01
    and 359999 is printed 99:59:59. *)
Theorem rolling_average (frames : float) :
  (forall w x, (List.length w <= 500)%nat ->
     (List.length (window_push w x) <= 500)%nat
     /\ (List.length w = 500%nat -> window_push w x = (tl w ++ [x])%list)
     /\ ((List.length w < 500)%nat -> window_push w x = (w ++ [x])%list))
  /\ (forall chunks s,
        fst (x265_listen frames chunks [] s)
        = Done (skipn (List.length (samples chunks) - 500) (samples chunks)))
  /\ (forall w,
        average_of w
        = fold_left PrimFloat.add w 0 / float_of_Z (Z.of_nat (List.length w)))
  /\ (forall avg l result s,
        exec X265_REGEX l = Some result ->
        let avg' := window_push avg (to_number (capture 2 result)) in
        x265_progress frames avg l s =
          (Done avg',
           {| trace := trace s ++ [EvStdout (progress_line frames result (average_of avg'))];
              nrand := nrand s |}))
  /\ (forall chunks R n s,
        samples chunks = repeat R n -> (500 < n)%nat ->
        fst (x265_listen frames chunks [] s) = Done (repeat R 500))
  /\ (forall chunks k n s,
        (0 <= k <= 1000)%Z -> samples chunks = repeat (quarter k) n -> (500 < n)%nat ->
        exists w, fst (x265_listen frames chunks [] s) = Done w
                  /\ average_of w = quarter k)
  /\ (forall result avg_,
        progress_line frames result avg_
        = CR ++ X265_PREFIX ++ " " ++ to_string (capture 1 result)
          ++ " / " ++ num_to_string frames
          ++ ", " ++ to_string (capture 2 result)
          ++ " fps, " ++ to_string (capture 3 result)
          ++ " kb/s, eta: "
          ++ toHHMMSS (Math_round ((frames - to_number (capture 1 result)) / avg_)))
  /\ (forall secs,
        let n := parseInt10 (num_to_string secs) in
        toHHMMSS secs
        = pad2 (Math_floor (n / 3600)) ++ ":" ++ pad2 (rem (Math_floor (n / 60)) 60)
          ++ ":" ++ pad2 (rem n 60))
  /\ (forall k, (0 <= k < 100)%Z -> pad2 (float_of_Z k) = two_digits k)
  /\ toHHMMSS 3661 = "01:01:01"
  /\ toHHMMSS 359999 = "99:59:59".
Proof.
  split; [|split; [|split; [|split; [|split; [|split; [|split; [|split; [|split;
    [|split]]]]]]]]].
  - intros w x H. split; [|split].
    + now apply window_push_length.
    + apply window_push_full.
    + intros L. apply window_push_room. lia.
  - intros chunks s. now rewrite x265_listen_window, window_fold.
  - intros w. reflexivity.
  - intros avg l result s E. apply (x265_progress_match _ _ _ _ _ E).
  - intros chunks R n s E L. now rewrite x265_listen_window, E, window_constant.
  - intros chunks k n s K E L. exists (repeat (quarter k) 500). split.
    + now rewrite x265_listen_window, E, window_constant.
    + now apply quarter_rates_exact.
  - intros result avg_. reflexivity.
  - intros secs. reflexivity.
  - apply pad2_two_digits.
  - vm_compute. reflexivity.
  - vm_compute. reflexivity.
Qed.

Lemma rolling_average_witness :
  (List.length (window_push (repeat 24%float 500) 30%float) <= 500)%nat
  /\ (exists w,
        fst (x265_listen 100000 (chunks_at "24.00" 501) [] {| trace := []; nrand := 0 |})
        = Done w
        /\ average_of w = quarter 96)
  /\ pad2 (float_of_Z 7) = two_digits 7.
Proof.
  split; [|split].
  - refine (proj1 (proj1 (rolling_average 0%float) (repeat 24%float 500) 30%float _)).
    rewrite repeat_length. lia.
  - refine (proj1 (proj2 (proj2 (proj2 (proj2 (proj2 (rolling_average 100000))))))
              (chunks_at "24.00" 501) 96%Z 501%nat {| trace := []; nrand := 0 |} _ _ _);
      [lia | vm_compute; reflexivity | lia].
  - refine (proj1 (proj2 (proj2 (proj2 (proj2 (proj2 (proj2 (proj2 (proj2
              (rolling_average 0%float))))))))) 7%Z _).
    lia.
Defined.

(** C7 (as stated) fails twice.  After 501 samples at a constant 23.97
    frames per second the window holds 500 copies of that rate, and the
    smoothed rate is 23.96999999999985, not 23.97.  And the estimate is
    not always printed as HH:MM:SS: an estimate of 360000 seconds is
    printed with three digits for the hours, a first chunk at 0.00
    frames per second prints NaN:NaN:NaN, and a chunk that reports more
    frames than expected prints negative fields. *)
Lemma rolling_average_drifts :
  samples (steady_chunks 501) = repeat (Number "23.97") 501
  /\ (exists w,
        fst (x265_listen 100000 (steady_chunks 501) [] {| trace := []; nrand := 0 |}) = Done w
        /\ w = repeat (Number "23.97") 500
        /\ num_to_string (average_of w) = "23.96999999999985"
        /\ average_of w <> Number "23.97")
  /\ toHHMMSS 360000 = "100:00:00"
  /\ trace (snd (x265_progress 1000 [] "10 frames: 0.00 fps, 0.00 kb/s"
                   {| trace := []; nrand := 0 |}))
     = [EvStdout (CR ++ "[x265] 10 / 1000, 0.00 fps, 0.00 kb/s, eta: NaN:NaN:NaN")]
  /\ trace (snd (x265_progress 1000 [] "1200 frames: 24.00 fps, 0.00 kb/s"
                   {| trace := []; nrand := 0 |}))
     = [EvStdout (CR ++ "[x265] 1200 / 1000, 24.00 fps, 0.00 kb/s, eta: 0-1:0-1:0-8")].
Proof.
  split; [vm_compute; reflexivity|]. split.
  - exists (repeat (Number "23.97") 500).
    split; [|split; [|split]].
    + vm_compute. reflexivity.
    + reflexivity.
    + vm_compute. reflexivity.
    + intros H. apply (f_equal num_to_string) in H. vm_compute in H. discriminate H.
  - split; [|split]; vm_compute; reflexivity.
Qed.

(** At a rate whose multiples are exact, the smoothed rate is the rate. *)
Example rolling_average_exact_at_24 :
  average_of (fold_left window_push (repeat 24%float 501) []) = 24%float.
Proof. vm_compute. reflexivity. Qed.

(* ================================================================== *)
(** * The HDR side-data scan *)
(* ================================================================== *)

Lemma grows_ret {A} (a : A) : grows (ret a).
Proof. intros s. exists []. simpl. now rewrite app_nil_r. Qed.

Lemma grows_raise {A} (x : exn) : grows (@raise A x).
Proof. intros s. exists []. simpl. now rewrite app_nil_r. Qed.

Lemma grows_emit (ev : event) : grows (emit ev).
Proof. intros s. now exists [ev]. Qed.

Lemma grows_lift {A} (r : res A) : grows (lift r).
Proof. destruct r; [apply grows_ret|apply grows_raise]. Qed.

Lemma grows_bind {A B} (m : M A) (k : A -> M B) :
  grows m -> (forall a, grows (k a)) -> grows (bind m k).
Proof.
  intros Gm Gk s. unfold bind.
  destruct (Gm s) as [r1 E1].
  destruct (m s) as [[a|x|x] s1]; simpl in *; try (now exists r1).
  destruct (Gk a s1) as [r2 E2].
  exists (r1 ++ r2)%list. now rewrite E2, E1, app_assoc.
Qed.

Lemma grows_spawn (h : host) (prog : string) (args : list value) :
  grows (spawn h prog args).
Proof. intros s. now exists [EvSpawn prog args]. Qed.

Lemma grows_temp (h : host) (extra : string) : grows (generate_temp_name h extra).
Proof. intros s. exists []. simpl. now rewrite app_nil_r. Qed.

Create HintDb grows.
#[local] Hint Resolve grows_ret grows_raise grows_emit grows_lift grows_spawn
  grows_temp : grows.

Ltac grow :=
  repeat first
    [ apply grows_bind; [|intros]
    | match goal with
      | |- grows (match ?x with _ => _ end) => destruct x
      | |- grows (if ?x then _ else _) => destruct x
      end
    | solve [auto with grows] ].

Lemma find_list (e : option (list side_data)) (type : string) :
  find e type =
    match e with
    | Some l => List.find (fun a => is_string (side_data_type a) type) l
    | None => None
    end.
Proof.
  destruct e as [[|a l]|]; reflexivity.
Qed.

Lemma kind_name_inj (k k' : kind) : kind_name k = kind_name k' -> k = k'.
Proof.
  destruct k, k'; intros H; try reflexivity; discriminate H.
Qed.

Lemma has_kind_excl (k k' : kind) (a : side_data) :
  k <> k' -> has_kind k' a = true -> has_kind k a = false.
Proof.
  intros N H. unfold has_kind, is_string in *.
  destruct (side_data_type a); try discriminate.
  apply String.eqb_eq in H. subst s.
  apply String.eqb_neq. intros E. apply N. symmetry. now apply kind_name_inj.
Qed.

Lemma find_without (k k' : kind) (e : option (list side_data)) :
  k <> k' -> find e (kind_name k') = List.find (has_kind k') (without k e).
Proof.
  intros N. rewrite find_list. destruct e as [l|]; [|reflexivity].
  simpl. induction l as [|a l IH]; [reflexivity|].
  simpl. fold (has_kind k' a). destruct (has_kind k' a) eqn:H.
  - rewrite (has_kind_excl _ _ _ N H). simpl. now rewrite H.
  - destruct (has_kind k a); simpl; [exact IH|]. now rewrite H.
Qed.

Lemma find_first (k k' : kind) (l1 l2 l2' : list side_data) (r : side_data) :
  has_kind k r = true -> without k (Some l2) = without k (Some l2') ->
  find (Some (l1 ++ r :: l2)%list) (kind_name k')
  = find (Some (l1 ++ r :: l2')%list) (kind_name k').
Proof.
  intros R W. rewrite !find_list.
  induction l1 as [|a l1 IH]; simpl.
  - fold (has_kind k' r). destruct (has_kind k' r) eqn:H; [reflexivity|].
    assert (N : k <> k') by (intros ->; congruence).
    pose proof (find_without k k' (Some l2) N) as A.
    pose proof (find_without k k' (Some l2') N) as B.
    rewrite find_list in A, B. rewrite A, B, W. reflexivity.
  - destruct (is_string (side_data_type a) (kind_name k')); [reflexivity|exact IH].
Qed.

Section Scan.

Variable h : host.

Lemma hdr_master_ext e e' st :
  (done0 st = false -> find e (kind_name Mastering) = find e' (kind_name Mastering)) ->
  hdr_master e st = hdr_master e' st.
Proof.
  intros H. unfold hdr_master. simpl kind_name in H.
  destruct (done0 st).
  - now destruct (find e _), (find e' _).
  - now rewrite H.
Qed.

Lemma hdr_cll_ext e e' st :
  (done1 st = false -> find e (kind_name ContentLight) = find e' (kind_name ContentLight)) ->
  hdr_cll e st = hdr_cll e' st.
Proof.
  intros H. unfold hdr_cll. simpl kind_name in H.
  destruct (done1 st).
  - now destruct (find e _), (find e' _).
  - now rewrite H.
Qed.

Lemma hdr_dovi_ext v e e' st :
  (done2 st = false -> find e (kind_name DolbyVision) = find e' (kind_name DolbyVision)) ->
  hdr_dovi h v e st = hdr_dovi h v e' st.
Proof.
  intros H. unfold hdr_dovi. simpl kind_name in H.
  destruct (done2 st).
  - now destruct (find e _), (find e' _).
  - now rewrite H.
Qed.

Lemma hdr_plus_ext v e e' st :
  (done3 st = false -> find e (kind_name HDR10Plus) = find e' (kind_name HDR10Plus)) ->
  hdr_plus h v e st = hdr_plus h v e' st.
Proof.
  intros H. unfold hdr_plus. simpl kind_name in H.
  destruct (done3 st).
  - now destruct (find e _), (find e' _).
  - now rewrite H.
Qed.

Ltac flags :=
  unfold advances; split; [|split];
  [ intros []; simpl; intros; congruence
  | intros []; simpl; intros; congruence
  | simpl; intros; congruence ].

Lemma hdr_master_advances e st s st1 s1 :
  hdr_master e st s = (Done st1, s1) -> advances Mastering e st st1.
Proof.
  unfold hdr_master. simpl kind_name.
  destruct (find e _) as [t|] eqn:F.
  - destruct (done0 st) eqn:D; simpl.
    + intros E. injection E as <- <-. flags.
    + unfold bind, log, emit, lift.
      destruct (parse_master_display t); simpl; intros E; [|discriminate].
      injection E as <- <-. flags.
  - intros E. injection E as <- <-. flags.
Qed.

Lemma hdr_cll_advances e st s st1 s1 :
  hdr_cll e st s = (Done st1, s1) -> advances ContentLight e st st1.
Proof.
  unfold hdr_cll. simpl kind_name.
  destruct (find e _) as [t|] eqn:F.
  - destruct (done1 st) eqn:D; simpl; intros E; injection E as <- <-; flags.
  - intros E. injection E as <- <-. flags.
Qed.

Lemma hdr_dovi_advances v e st s st1 s1 :
  hdr_dovi h v e st s = (Done (inr st1), s1) -> advances DolbyVision e st st1.
Proof.
  unfold hdr_dovi. simpl kind_name.
  destruct (find e _) as [t|] eqn:F.
  - destruct (done2 st) eqn:D; simpl.
    + intros E. injection E as <- <-. flags.
    + unfold bind, log, emit, generate_temp_name, ff_xtract, spawn, ret. simpl.
      match goal with |- context [truthy ?x] => destruct (truthy x) end;
        intros E; [discriminate|].
      injection E as <- <-. flags.
  - intros E. injection E as <- <-. flags.
Qed.

Lemma hdr_plus_advances v e st s st1 s1 :
  hdr_plus h v e st s = (Done (inr st1), s1) -> advances HDR10Plus e st st1.
Proof.
  unfold hdr_plus. simpl kind_name.
  destruct (find e _) as [t|] eqn:F.
  - destruct (done3 st) eqn:D; simpl.
    + intros E. injection E as <- <-. flags.
    + unfold bind, log, emit, generate_temp_name, ff_xtract, spawn, ret. simpl.
      match goal with |- context [truthy ?x] => destruct (truthy x) end;
        intros E; [discriminate|].
      injection E as <- <-. flags.
  - intros E. injection E as <- <-. flags.
Qed.

Lemma pre_hdr_body_blocks v e st s :
  pre_hdr_body h v e st s = hdr_blocks h v e st s.
Proof.
  destruct e as [[|a l]|]; reflexivity.
Qed.

Lemma hdr_blocks_agree v e e' st s :
  (forall k, done_flag k st = false -> find e (kind_name k) = find e' (kind_name k)) ->
  hdr_blocks h v e st s = hdr_blocks h v e' st s.
Proof.
  intros A. unfold hdr_blocks, bind.
  rewrite (hdr_master_ext e e' st (A Mastering)).
  destruct (hdr_master e' st s) as [[st1| |] s1] eqn:E1; try reflexivity.
  destruct (hdr_master_advances _ _ _ _ _ E1) as (G1 & K1 & _).
  assert (A1 : forall k, done_flag k st1 = false ->
                         find e (kind_name k) = find e' (kind_name k)).
  { intros k D. apply A. destruct (done_flag k st) eqn:D0; [|reflexivity].
    rewrite (G1 k D0) in D. discriminate. }
  rewrite (hdr_cll_ext e e' st1 (A1 ContentLight)).
  destruct (hdr_cll e' st1 s1) as [[st2| |] s2] eqn:E2; try reflexivity.
  destruct (hdr_cll_advances _ _ _ _ _ E2) as (G2 & K2 & _).
  assert (A2 : forall k, done_flag k st2 = false ->
                         find e (kind_name k) = find e' (kind_name k)).
  { intros k D. apply A1. destruct (done_flag k st1) eqn:D0; [|reflexivity].
    rewrite (G2 k D0) in D. discriminate. }
  rewrite (hdr_dovi_ext v e e' st2 (A2 DolbyVision)).
  destruct (hdr_dovi h v e' st2 s2) as [[[x|st3]| |] s3] eqn:E3; try reflexivity.
  destruct (hdr_dovi_advances _ _ _ _ _ _ E3) as (G3 & K3 & _).
  apply f_equal with (f := fun m => m s3).
  apply hdr_plus_ext. intros D. apply (A2 HDR10Plus).
  destruct (done_flag HDR10Plus st2) eqn:D0; [|reflexivity].
  pose proof (G3 HDR10Plus D0) as X. simpl in X. congruence.
Qed.

Lemma hdr_blocks_advances v e st s st4 s4 :
  hdr_blocks h v e st s = (Done (inr st4), s4) ->
  forall k, find e (kind_name k) <> None -> done_flag k st4 = true.
Proof.
  unfold hdr_blocks, bind.
  destruct (hdr_master e st s) as [[st1| |] s1] eqn:E1; try discriminate.
  destruct (hdr_cll e st1 s1) as [[st2| |] s2] eqn:E2; try discriminate.
  destruct (hdr_dovi h v e st2 s2) as [[[x|st3]| |] s3] eqn:E3; try discriminate.
  intros E4.
  destruct (hdr_master_advances _ _ _ _ _ E1) as (G1 & _ & S1).
  destruct (hdr_cll_advances _ _ _ _ _ E2) as (G2 & _ & S2).
  destruct (hdr_dovi_advances _ _ _ _ _ _ E3) as (G3 & _ & S3).
  destruct (hdr_plus_advances _ _ _ _ _ _ E4) as (G4 & _ & S4).
  intros [] F.
  - apply G4, G3, G2, S1, F.
  - apply G4, G3, S2, F.
  - apply G4, S3, F.
  - apply S4, F.
Qed.

(** The scan of [frame] after [stream]: the loop of [pre_hdr] unrolled. *)
Lemma pre_hdr_loop v es ef st s :
  for_each [es; ef] st (pre_hdr_body h v) s =
    match hdr_blocks h v es st s with
    | (Done (inl x), s1) => (Done (inl x), s1)
    | (Done (inr st1), s1) =>
        match hdr_blocks h v ef st1 s1 with
        | (Done r, s2) => (Done r, s2)
        | (Raised x, s2) => (Raised x, s2)
        | (Crashed x, s2) => (Crashed x, s2)
        end
    | (Raised x, s1) => (Raised x, s1)
    | (Crashed x, s1) => (Crashed x, s1)
    end.
Proof.
  simpl. unfold bind. rewrite pre_hdr_body_blocks.
  destruct (hdr_blocks h v es st s) as [[[x|st1]| |] s1]; try reflexivity.
  rewrite pre_hdr_body_blocks.
  destruct (hdr_blocks h v ef st1 s1) as [[[x|st2]| |] s2]; reflexivity.
Qed.

Lemma pre_hdr_scan (st : stream) (fr : frame) (p : paths) (v : bool) (s : state) :
  pre_hdr h st fr p v s =
    promise_async
      (fun s0 =>
         match for_each [stream_side_data_list st; frame_side_data_list fr]
                 {| done0 := false; done1 := false; done2 := false; done3 := false;
                    out := []; hpaths := p |} (pre_hdr_body h v) s0 with
         | (Done (inl x), s1) => (Done (Reject x), s1)
         | (Done (inr r), s1) => (Done (Resolve (out r, hpaths r)), s1)
         | (Raised x, s1) => (Raised x, s1)
         | (Crashed x, s1) => (Crashed x, s1)
         end) s.
Proof.
  unfold pre_hdr, promise_async, bind.
  destruct (for_each _ _ _ s) as [[[x|r]| |] s1]; reflexivity.
Qed.

Lemma grows_blocks v e st : grows (hdr_blocks h v e st).
Proof.
  unfold hdr_blocks, hdr_master, hdr_cll, hdr_dovi, hdr_plus, log, ff_xtract.
  grow.
Qed.

(** Later occurrences are ignored.  What the scan of a stream alone
    does is the first part of what the scan of the stream and a frame
    does.  When the stream carries a record of a kind, the frame's
    records of that kind do not matter: two frames that differ only in
    such records give the same result and the same effects.  Within a
    collection only the first record of a kind matters: collections
    that differ only in later records of that kind, on the stream or on
    the frame, give the same result and the same effects. *)
Lemma pre_hdr_later_records (k : kind) (p : paths) (v : bool) (s : state) :
  (forall st fr,
     exists rest,
       trace (snd (pre_hdr h st fr p v s))
       = (trace (snd (pre_hdr h st plain_frame p v s)) ++ rest)%list)
  /\ (forall st fr fr',
        find (stream_side_data_list st) (kind_name k) <> None ->
        without k (frame_side_data_list fr) = without k (frame_side_data_list fr') ->
        pre_hdr h st fr p v s = pre_hdr h st fr' p v s)
  /\ (forall st st' fr,
        same_first k (stream_side_data_list st) (stream_side_data_list st') ->
        pre_hdr h st fr p v s = pre_hdr h st' fr p v s)
  /\ (forall st fr fr',
        same_first k (frame_side_data_list fr) (frame_side_data_list fr') ->
        pre_hdr h st fr p v s = pre_hdr h st fr' p v s).
Proof.
  split; [|split; [|split]].
  - intros st fr. rewrite !pre_hdr_scan. unfold promise_async.
    rewrite !pre_hdr_loop.
    destruct (hdr_blocks h v (stream_side_data_list st) _ s) as [[[x|st1]| |] s1];
      try (exists []; now rewrite app_nil_r).
    destruct (grows_blocks v (frame_side_data_list fr) st1 s1) as [rest E].
    exists rest. simpl.
    destruct (hdr_blocks h v (frame_side_data_list fr) st1 s1) as [[[x|st2]| |] s2];
      exact E.
  - intros st fr fr' F W. rewrite !pre_hdr_scan. unfold promise_async.
    rewrite !pre_hdr_loop.
    destruct (hdr_blocks h v (stream_side_data_list st) _ s) as [[[x|st1]| |] s1] eqn:E;
      try reflexivity.
    pose proof (hdr_blocks_advances _ _ _ _ _ _ E k F) as D.
    rewrite (hdr_blocks_agree v (frame_side_data_list fr) (frame_side_data_list fr')).
    + reflexivity.
    + intros k' D'. assert (N : k <> k') by (intros ->; congruence).
      now rewrite !(find_without k k' _ N), W.
  - intros st st' fr (l1 & r & l2 & l2' & E & E' & R & W).
    rewrite !pre_hdr_scan. unfold promise_async. rewrite !pre_hdr_loop.
    rewrite (hdr_blocks_agree v (stream_side_data_list st) (stream_side_data_list st')).
    + reflexivity.
    + intros k' _. rewrite E, E'. now apply (find_first k).
  - intros st fr fr' (l1 & r & l2 & l2' & E & E' & R & W).
    rewrite !pre_hdr_scan. unfold promise_async. rewrite !pre_hdr_loop.
    destruct (hdr_blocks h v (stream_side_data_list st) _ s) as [[[x|st1]| |] s1];
      try reflexivity.
    rewrite (hdr_blocks_agree v (frame_side_data_list fr) (frame_side_data_list fr')).
    + reflexivity.
    + intros k' _. rewrite E, E'. now apply (find_first k).
Qed.

End Scan.

(** The run behind the witness: the stream's mastering display is the
    one translated, the frame's is not. *)
Example pre_hdr_stream_wins :
  fst (pre_hdr quiet_host hdr_stream frame_with_mastering (job_paths None None) false start)
  = Done (["--master-display";
           "G(8500,39850)B(6550,2300)R(35400,14600)WP(15635,16450)L(10000000,50)";
           "--max-cll"; "1000,400"],
          job_paths None (Some "/work/.hdrsucks-000000.json")).
Proof. vm_compute. reflexivity. Qed.

(* ================================================================== *)
(** * The injection stage *)
(* ================================================================== *)

Lemma post_hdr_body_skip (h : host) (k : string) (v : value) (cur : string) (s : state) :
  String.eqb k "dv" = false -> String.eqb k "plus" = false ->
  post_hdr_body h (k, v) cur s = (Done (inr cur), s).
Proof.
  intros A B. unfold post_hdr_body. now rewrite A, B.
Qed.

Lemma post_hdr_unfold (h : host) (p : paths) (s : state) (d pl : string) :
  dv p = Some d -> plus p = Some pl ->
  post_hdr h p s =
    promise_async
      (r <- post_hdr_body h ("dv", VString d) (temp p) ;;
       match r with
       | inl x => ret (Reject x)
       | inr cur =>
           r' <- post_hdr_body h ("plus", VString pl) cur ;;
           match r' with
           | inl x => ret (Reject x)
           | inr cur' => ret (Resolve cur')
           end
       end) s.
Proof.
  intros D P. unfold post_hdr, promise_async, paths_entries.
  rewrite D, P. cbn [for_each opt_value]. unfold bind.
  do 3 (rewrite post_hdr_body_skip by reflexivity; cbv beta iota).
  destruct (post_hdr_body h ("dv", VString d) (temp p) s) as [[[x|cur]| |] s1];
    try reflexivity.
  destruct (post_hdr_body h ("plus", VString pl) cur s1) as [[[x|cur']| |] s2];
    reflexivity.
Qed.

(** One injection step, for the entry [k] with a non-empty sidecar
    path [v]: the tool [tl] is spawned on the current artifact; when it
    reports no error, the current artifact and the sidecar are removed
    and the new artifact becomes current. *)
Lemma post_hdr_body_inject (h : host) (k : string) (v cur : string) (s : state)
    (tl : string) (args : list value) :
  str_nonempty v = true ->
  (String.eqb k "dv" = true /\ tl = DOVI_TOOL h
   /\ args = strs ["inject-rpu"; "--rpu-in"; v]
   \/ String.eqb k "plus" = true /\ tl = HDR10PLUS_TOOL h
      /\ args = strs ["inject"; "-j"; v]) ->
  let new := first_temp h s in
  let call := (args ++ strs ["-i"; cur; "-o"; new])%list in
  let t1 := (trace s ++ [EvSpawn tl call])%list in
  let result := tool_exit (proc h (trace s) tl call) in
  post_hdr_body h (k, VString v) cur s =
    if truthy (res_e result)
    then (Done (inl (failed ("Injecting HDR (" ++ k ++ ")") result)),
          {| trace := t1; nrand := S (nrand s) |})
    else match rm_error h t1 cur with
         | Some x => (Raised x, {| trace := t1 ++ [EvRm cur]; nrand := S (nrand s) |})
         | None =>
             match rm_error h (t1 ++ [EvRm cur]) v with
             | Some x => (Raised x, {| trace := (t1 ++ [EvRm cur]) ++ [EvRm v];
                                       nrand := S (nrand s) |})
             | None => (Done (inr new), {| trace := (t1 ++ [EvRm cur]) ++ [EvRm v];
                                          nrand := S (nrand s) |})
             end
         end.
Proof.
  intros V K. cbv zeta.
  assert (E : post_hdr_body h (k, VString v) cur s =
              (newTemp <- generate_temp_name h ".hevc" ;;
               result <- ff_inject h tl (args ++ strs ["-i"; cur; "-o"; newTemp])%list ;;
               if truthy (res_e result)
               then ret (inl (failed ("Injecting HDR (" ++ k ++ ")") result))
               else rm h cur ;; rm h (to_string (VString v)) ;; ret (inr newTemp)) s).
  { unfold post_hdr_body. cbv beta iota zeta. cbn [truthy]. rewrite V.
    destruct K as [(K & -> & ->)|(K & -> & ->)].
    - rewrite K. reflexivity.
    - rewrite K. destruct (String.eqb k "dv") eqn:K'; [|reflexivity].
      apply String.eqb_eq in K', K. congruence. }
  rewrite E.
  cbv [bind generate_temp_name ff_inject spawn rm ret first_temp trace nrand to_string].
  destruct (truthy _); [reflexivity|].
  destruct (rm_error h _ cur); [reflexivity|].
  destruct (rm_error h _ v); reflexivity.
Qed.

Ltac tidy :=
  cbn [firstn injection_events inject_dv_args inject_plus_args strs map app trace nrand];
  rewrite <- ?app_assoc;
  cbn [app].

Lemma post_hdr_both (h : host) (p : paths) (s : state) (d pl : string) :
  dv p = Some d -> plus p = Some pl ->
  str_nonempty d = true -> str_nonempty pl = true ->
  post_hdr h p s = post_hdr_result h p s d pl.
Proof.
  intros D P Hd Hp.
  rewrite (post_hdr_unfold h p s d pl D P).
  unfold promise_async, bind, post_hdr_result.
  rewrite (post_hdr_body_inject h "dv" d (temp p) s (DOVI_TOOL h)
             (strs ["inject-rpu"; "--rpu-in"; d]) Hd) by (left; auto).
  cbv zeta. tidy.
  destruct (truthy _); [reflexivity|].
  destruct (rm_error h _ (temp p)); [reflexivity|].
  destruct (rm_error h _ d); [reflexivity|].
  cbv beta iota.
  match goal with
  | |- context [post_hdr_body h _ _ ?s1] =>
      rewrite (post_hdr_body_inject h "plus" pl (first_temp h s) s1 (HDR10PLUS_TOOL h)
                 (strs ["inject"; "-j"; pl]) Hp) by (right; auto)
  end.
  cbv zeta. unfold second_temp, first_temp. tidy.
  destruct (truthy _); [reflexivity|].
  destruct (rm_error h _ (cwd_join h _)); [reflexivity|].
  destruct (rm_error h _ pl); reflexivity.
Qed.

Lemma tool_exit_ok (r : proc_result) :
  exit_code r = Some 0%Z -> truthy (res_e (tool_exit r)) = false.
Proof.
  intros H. unfold tool_exit. rewrite H. reflexivity.
Qed.

(** C2: with both sidecars set, the Dolby Vision injection comes first.
    Whatever the tools do, the stage performs a non-empty initial part
    of: Dolby Vision injection, removal of the transcoded artifact,
    removal of the RPU sidecar, HDR10+ injection on the artifact the
    first injection wrote, removal of that artifact, removal of the
    HDR10+ sidecar.  When both injections exit with code 0 and the
    removals succeed it performs all of it and returns the artifact
    the HDR10+ injection wrote. *)
Theorem post_hdr_dv_before_plus (h : host) (p : paths) (s : state) (d pl : string) :
  dv p = Some d -> plus p = Some pl ->
  str_nonempty d = true -> str_nonempty pl = true ->
  let events := injection_events h p s d pl in
  (exists n, (1 <= n)%nat
             /\ trace (snd (post_hdr h p s)) = (trace s ++ firstn n events)%list)
  /\ (exit_code (proc h (trace s) (DOVI_TOOL h) (inject_dv_args h p s d)) = Some 0%Z ->
      rm_error h (trace s ++ firstn 1 events) (temp p) = None ->
      rm_error h (trace s ++ firstn 2 events) d = None ->
      exit_code (proc h (trace s ++ firstn 3 events) (HDR10PLUS_TOOL h)
                   (inject_plus_args h s pl)) = Some 0%Z ->
      rm_error h (trace s ++ firstn 4 events) (first_temp h s) = None ->
      rm_error h (trace s ++ firstn 5 events) pl = None ->
      post_hdr h p s =
        (Done (second_temp h s),
         {| trace := (trace s ++ events)%list; nrand := S (S (nrand s)) |})).
Proof.
  intros D P Hd Hp events.
  rewrite (post_hdr_both h p s d pl D P Hd Hp).
  unfold post_hdr_result. fold events. cbv zeta.
  split.
  - destruct (truthy _); [exists 1%nat; split; [lia|reflexivity]|].
    destruct (rm_error h _ (temp p)); [exists 2%nat; split; [lia|reflexivity]|].
    destruct (rm_error h _ d); [exists 3%nat; split; [lia|reflexivity]|].
    destruct (truthy _); [exists 4%nat; split; [lia|reflexivity]|].
    destruct (rm_error h _ (first_temp h s)); [exists 5%nat; split; [lia|reflexivity]|].
    destruct (rm_error h _ pl); exists 6%nat; split; try lia; reflexivity.
  - intros X1 R1 R2 X2 R3 R4.
    rewrite (tool_exit_ok _ X1), R1, R2, (tool_exit_ok _ X2), R3, R4. reflexivity.
Qed.

Lemma post_hdr_dv_before_plus_witness :
  post_hdr quiet_host
    (job_paths (Some "/work/.hdrsucks-rpu000.bin") (Some "/work/.hdrsucks-plus00.json"))
    start
  = (Done "/work/.hdrsucks-000001.hevc",
     {| trace :=
          [ EvSpawn "dovi_tool"
              (strs ["inject-rpu"; "--rpu-in"; "/work/.hdrsucks-rpu000.bin";
                     "-i"; "/work/.hdrsucks-aaaaaa.hevc";
                     "-o"; "/work/.hdrsucks-000000.hevc"]);
            EvRm "/work/.hdrsucks-aaaaaa.hevc";
            EvRm "/work/.hdrsucks-rpu000.bin";
            EvSpawn "hdr10plus_tool"
              (strs ["inject"; "-j"; "/work/.hdrsucks-plus00.json";
                     "-i"; "/work/.hdrsucks-000000.hevc";
                     "-o"; "/work/.hdrsucks-000001.hevc"]);
            EvRm "/work/.hdrsucks-000000.hevc";
            EvRm "/work/.hdrsucks-plus00.json" ];
        nrand := 2 |}).
Proof.
  apply (proj2 (post_hdr_dv_before_plus quiet_host
                  (job_paths (Some "/work/.hdrsucks-rpu000.bin")
                             (Some "/work/.hdrsucks-plus00.json"))
                  start "/work/.hdrsucks-rpu000.bin" "/work/.hdrsucks-plus00.json"
                  eq_refl eq_refl eq_refl eq_refl));
    reflexivity.
Defined.

(* ================================================================== *)
(** * The probe stage of the main function *)
(* ================================================================== *)

(** The main function when the probe tool does not exit with code 0:
    the probe is the last process started, and what is reported depends
    on whether the captured diagnostic text is empty. *)
Lemma main_probe_failure (h : host) (arg0 : string) (arg1 : option string)
    (opts : options) (s : state) :
  let r := probe_run h arg0 arg1 opts s in
  exit_is_zero (exit_code r) = false ->
  main h arg0 arg1 opts s =
    (Done tt,
     {| trace := (trace s ++ prelude h arg0 arg1 opts
                  ++ [ EvSpawn (FFPROBE h) (probe_args h arg0);
                       EvErr (if str_nonempty (probe_diagnostic r)
                              then Message ("Could not parse with ffprobe: "
                                            ++ probe_diagnostic r)
                              else TypeError) ])%list;
        nrand := S (nrand s) |}).
Proof.
  cbv zeta. unfold probe_run, prelude, probe_diagnostic, probe_args, job_input, job_output.
  destruct s as [t n]. cbn [trace nrand]. intros X.
  unfold main, try_catch, job.
  cbv [bind generate_temp_name log debug err emit ret raise run_ffprobe spawn
       trace nrand input output temp].
  destruct (verbose opts); cbn [app] in *;
    rewrite <- ?app_assoc in *; cbn [app] in *;
    rewrite X; cbn [negb _e streams truthy to_string];
    destruct (str_nonempty _); cbn [app]; rewrite <- ?app_assoc; cbn [app]; reflexivity.
Qed.

Lemma spawned_app (a b : list event) : spawned (a ++ b) = (spawned a ++ spawned b)%list.
Proof.
  induction a as [|x a IH]; [reflexivity|].
  destruct x; simpl; now rewrite IH.
Qed.

Lemma reported_app (a b : list event) : reported (a ++ b) = (reported a ++ reported b)%list.
Proof.
  induction a as [|x a IH]; [reflexivity|].
  destruct x; simpl; now rewrite IH.
Qed.

Lemma prelude_quiet (h : host) (arg0 : string) (arg1 : option string) (opts : options) :
  spawned (prelude h arg0 arg1 opts) = [] /\ reported (prelude h arg0 arg1 opts) = [].
Proof.
  unfold prelude. destruct (verbose opts); split; reflexivity.
Qed.

(** Whenever the probe tool does not exit with code 0, the probe is the
    only process the job starts. *)
Lemma probe_failure_starts_nothing_else (h : host) (arg0 : string)
    (arg1 : option string) (opts : options) (s : state) :
  exit_is_zero (exit_code (probe_run h arg0 arg1 opts s)) = false ->
  fst (main h arg0 arg1 opts s) = Done tt
  /\ spawned (trace (snd (main h arg0 arg1 opts s)))
     = (spawned (trace s) ++ [(FFPROBE h, probe_args h arg0)])%list.
Proof.
  intros X. rewrite (main_probe_failure h arg0 arg1 opts s X). split; [reflexivity|].
  cbn [snd trace]. rewrite !spawned_app.
  rewrite (proj1 (prelude_quiet h arg0 arg1 opts)). reflexivity.
Qed.

(** With a non-empty diagnostic text the job reports it. *)
Lemma probe_failure_reported (h : host) (arg0 : string) (arg1 : option string)
    (opts : options) (s : state) :
  exit_is_zero (exit_code (probe_run h arg0 arg1 opts s)) = false ->
  str_nonempty (probe_diagnostic (probe_run h arg0 arg1 opts s)) = true ->
  reported (trace (snd (main h arg0 arg1 opts s)))
  = (reported (trace s)
     ++ [Message ("Could not parse with ffprobe: "
                  ++ probe_diagnostic (probe_run h arg0 arg1 opts s))])%list.
Proof.
  intros X T. rewrite (main_probe_failure h arg0 arg1 opts s X).
  cbn [snd trace]. rewrite !reported_app, T.
  rewrite (proj2 (prelude_quiet h arg0 arg1 opts)). reflexivity.
Qed.

(** C9: the code when the probe tool fails without diagnostic text
    (nothing but white space on its diagnostic stream).  The job stops
    after the probe and starts no other process, but what it reports is
    the TypeError raised by [d.streams.length], not the probe failure. *)
Theorem probe_failure_without_diagnostic (h : host) (arg0 : string)
    (arg1 : option string) (opts : options) (s : state) :
  exit_is_zero (exit_code (probe_run h arg0 arg1 opts s)) = false ->
  probe_diagnostic (probe_run h arg0 arg1 opts s) = EmptyString ->
  fst (main h arg0 arg1 opts s) = Done tt
  /\ reported (trace (snd (main h arg0 arg1 opts s)))
     = (reported (trace s) ++ [TypeError])%list
  /\ spawned (trace (snd (main h arg0 arg1 opts s)))
     = (spawned (trace s) ++ [(FFPROBE h, probe_args h arg0)])%list.
Proof.
  intros X T.
  destruct (probe_failure_starts_nothing_else h arg0 arg1 opts s X) as [A B].
  split; [exact A|split; [|exact B]].
  rewrite (main_probe_failure h arg0 arg1 opts s X).
  cbn [snd trace]. rewrite !reported_app, T.
  rewrite (proj2 (prelude_quiet h arg0 arg1 opts)). reflexivity.
Qed.

Lemma probe_failure_without_diagnostic_witness :
  main (failing_probe_host []) "in.mkv" None default_options start
  = (Done tt,
     {| trace :=
          [ EvLog "[HDRS] Input file: /work/in.mkv";
            EvLog "[HDRS] Output file: /work/in.hdr-sucks.mkv";
            EvLog "[HDRS] Extracting file metadata";
            EvSpawn "ffprobe"
              (strs ["-i"; "/work/in.mkv"; "-hide_banner"; "-of"; "json";
                     "-show_format"; "-show_streams"; "-show_frames";
                     "-read_intervals"; "%+#1"]);
            EvErr TypeError ];
        nrand := 1 |})
  /\ reported (trace (snd (main (failing_probe_host []) "in.mkv" None default_options start)))
     = [TypeError].
Proof.
  split; [vm_compute; reflexivity|].
  apply (proj1 (proj2 (probe_failure_without_diagnostic (failing_probe_host [])
                         "in.mkv" None default_options start eq_refl eq_refl))).
Defined.

(** The same failure with a diagnostic text is reported as such. *)
Example probe_failure_with_diagnostic :
  reported (trace (snd (main (failing_probe_host ["in.mkv: No such file or directory"])
                          "in.mkv" None default_options start)))
  = [Message "Could not parse with ffprobe: in.mkv: No such file or directory"].
Proof. vm_compute. reflexivity. Qed.

(* ================================================================== *)
(** * Output bit-depth policy *)
(* ================================================================== *)

Lemma output_depth_tokens (opts : options) (fmt : pix_fmt_info) (s : state) :
  fst (output_depth opts fmt s) = Done (policy_tokens (keepBit opts) (depth fmt)).
Proof.
  unfold output_depth, policy_tokens.
  destruct (keepBit opts), (String.eqb (depth fmt) "8") eqn:E; try reflexivity.
  apply String.eqb_eq in E. rewrite E. reflexivity.
Qed.

Lemma has_token_app (tok : string) (a b : list value) :
  has_token tok (a ++ b) = has_token tok a || has_token tok b.
Proof.
  unfold has_token. apply existsb_app.
Qed.

Lemma x265_args_layout (h : host) (opts : options) (st : stream)
    (depth_tokens : list value) (hdr_tokens : list string) (tmp : string) :
  x265_args h opts st depth_tokens hdr_tokens tmp
  = (strs ["--input"; "-"; "--y4m"] ++ depth_tokens
     ++ later_tokens h opts st hdr_tokens tmp)%list.
Proof.
  reflexivity.
Qed.

Lemma digits_only_head (s : string) (c : ascii) (r : string) :
  digits_only s = String c r -> is_digit c = true.
Proof.
  induction s as [|x s IH]; simpl; [discriminate|].
  destruct (is_digit x) eqn:D; [|exact IH].
  intros E. injection E as <- _. exact D.
Qed.

Lemma parse_pix_fmt_depth (pix : string) (fmt : pix_fmt_info) :
  parse_pix_fmt pix = Ret fmt -> String.eqb (depth fmt) "--aq-mode" = false.
Proof.
  unfold parse_pix_fmt. destruct (includes pix "yuv"); cbn [negb]; [|discriminate].
  destruct (nth_error (split "p" pix) 1) as [s1|]; [|discriminate].
  intros E. injection E as <-. cbn [depth].
  destruct (digits_only s1) as [|c r] eqn:D; [reflexivity|].
  apply digits_only_head in D. cbn [str_nonempty String.eqb].
  destruct (Ascii.eqb c "-") eqn:C; [|reflexivity].
  apply Ascii.eqb_eq in C. subst c. vm_compute in D. discriminate D.
Qed.

(** C8 (as amended): the bit-depth block pushes --output-depth 10 for a
    parsed depth of "8" without the keep-bit-depth option,
    --output-depth 8 with --aq-mode 3 for a depth of "8" with it, and
    --output-depth with the input depth otherwise; the encoder argument
    set is --input - --y4m, these tokens, then the tokens pushed later;
    and it contains --aq-mode exactly when the option is set on a depth
    of "8" or a later token (a user-supplied extra argument, for one) is
    --aq-mode. *)
Theorem output_depth_policy (h : host) (opts : options) (pix : string)
    (fmt : pix_fmt_info) (st : stream) (hdr_tokens : list string) (tmp : string)
    (s : state) :
  parse_pix_fmt pix = Ret fmt ->
  let toks := policy_tokens (keepBit opts) (depth fmt) in
  let args := x265_args h opts st toks hdr_tokens tmp in
  fst (output_depth opts fmt s) = Done toks
  /\ args = (strs ["--input"; "-"; "--y4m"] ++ toks
             ++ later_tokens h opts st hdr_tokens tmp)%list
  /\ (depth fmt = "8" -> keepBit opts = false -> toks = strs ["--output-depth"; "10"])
  /\ (depth fmt = "8" -> keepBit opts = true ->
      toks = strs ["--output-depth"; "8"; "--aq-mode"; "3"])
  /\ (depth fmt <> "8" -> toks = strs ["--output-depth"; depth fmt])
  /\ has_token "--aq-mode" args
     = (keepBit opts && String.eqb (depth fmt) "8")
       || has_token "--aq-mode" (later_tokens h opts st hdr_tokens tmp).
Proof.
  intros F. cbv zeta. split; [apply output_depth_tokens|].
  split; [apply x265_args_layout|].
  unfold policy_tokens.
  split; [|split; [|split]].
  - intros -> ->. reflexivity.
  - intros -> ->. reflexivity.
  - intros N. apply String.eqb_neq in N. now rewrite N.
  - rewrite x265_args_layout, !has_token_app.
    destruct (String.eqb (depth fmt) "8") eqn:E, (keepBit opts); try reflexivity.
    + unfold has_token at 2. simpl. now rewrite (parse_pix_fmt_depth _ _ F).
    + unfold has_token at 2. simpl. now rewrite (parse_pix_fmt_depth _ _ F).
Qed.

Lemma output_depth_policy_witness :
  x265_args quiet_host default_options (bare_stream VUndefined None)
    (policy_tokens false "8") [] "/work/t.hevc"
  = strs ["--input"; "-"; "--y4m"; "--output-depth"; "10";
          "--preset"; "medium"; "--crf"; "23"; "--output"; "/work/t.hevc"]
  /\ policy_tokens true "8" = strs ["--output-depth"; "8"; "--aq-mode"; "3"]
  /\ policy_tokens true "10" = strs ["--output-depth"; "10"].
Proof.
  split; [|split].
  - etransitivity;
      [exact (proj1 (proj2 (output_depth_policy quiet_host default_options "yuv420p"
                              {| csp := "i420"; depth := "8" |}
                              (bare_stream VUndefined None) [] "/work/t.hevc" start
                              eq_refl)))
      |reflexivity].
  - apply (proj1 (proj2 (proj2 (proj2 (output_depth_policy quiet_host
             (with_keep_bit default_options) "yuv420p"
             {| csp := "i420"; depth := "8" |}
             (bare_stream VUndefined None) [] "/work/t.hevc" start eq_refl)))));
      reflexivity.
  - apply (proj1 (proj2 (proj2 (proj2 (proj2 (output_depth_policy quiet_host
             (with_keep_bit default_options) "yuv420p10le"
             {| csp := "i420"; depth := "10" |}
             (bare_stream VUndefined None) [] "/work/t.hevc" start eq_refl)))))).
    intros H. discriminate H.
Defined.

(** C8 (as stated) fails: on an 8-bit input without the keep-bit-depth
    option, an extra argument "aq-mode=1" puts --aq-mode in the
    argument set the encoder is started with. *)
Lemma aq_mode_from_extra_arguments :
  let h := host_with_probe (probe_of "yuv420p") in
  let opts := with_extra_args default_options "aq-mode=1" in
  keepBit opts = false
  /\ parse_pix_fmt "yuv420p" = Ret {| csp := "i420"; depth := "8" |}
  /\ encoder_calls h (trace (snd (main h "in.mkv" None opts start)))
     = [ strs ["--input"; "-"; "--y4m"; "--output-depth"; "10";
               "--preset"; "medium"; "--crf"; "23";
               "--output"; "/work/.hdrsucks-000000.hevc"; "--aq-mode"; "1"] ]
  /\ forallb (has_token "--aq-mode")
       (encoder_calls h (trace (snd (main h "in.mkv" None opts start)))) = true.
Proof.
  cbv zeta. split; [|split; [|split]]; vm_compute; reflexivity.
Qed.

(** The three cases of the policy on whole runs of the main function. *)
Example main_promotes_8_bit :
  let h := host_with_probe (probe_of "yuv420p") in
  encoder_calls h (trace (snd (main h "in.mkv" None default_options start)))
  = [ strs ["--input"; "-"; "--y4m"; "--output-depth"; "10";
            "--preset"; "medium"; "--crf"; "23";
            "--output"; "/work/.hdrsucks-000000.hevc"] ].
Proof. vm_compute. reflexivity. Qed.

Example main_keeps_8_bit :
  let h := host_with_probe (probe_of "yuv420p") in
  encoder_calls h
    (trace (snd (main h "in.mkv" None (with_keep_bit default_options) start)))
  = [ strs ["--input"; "-"; "--y4m"; "--output-depth"; "8"; "--aq-mode"; "3";
            "--preset"; "medium"; "--crf"; "23";
            "--output"; "/work/.hdrsucks-000000.hevc"] ].
Proof. vm_compute. reflexivity. Qed.

Example main_keeps_10_bit :
  let h := host_with_probe (probe_of "yuv420p10le") in
  encoder_calls h (trace (snd (main h "in.mkv" None default_options start)))
  = [ strs ["--input"; "-"; "--y4m"; "--output-depth"; "10";
            "--preset"; "medium"; "--crf"; "23";
            "--output"; "/work/.hdrsucks-000000.hevc"] ].
Proof. vm_compute. reflexivity. Qed.

(* ================================================================== *)
(** * Further properties of the translators *)
(* ================================================================== *)

(** X1: [find] returns the first record of the requested type: the
    record it returns has that type and no record before it has; and
    it returns nothing exactly when the collection is absent or holds
    no record of that type. *)
Theorem find_first_match (sd : option (list side_data)) (type : string) :
  (forall a, find sd type = Some a ->
     exists l1 l2,
       sd = Some (l1 ++ a :: l2)%list
       /\ is_string (side_data_type a) type = true
       /\ forall b, In b l1 -> is_string (side_data_type b) type = false)
  /\ (find sd type = None <->
      forall l, sd = Some l ->
                forall b, In b l -> is_string (side_data_type b) type = false).
Proof.
  rewrite find_list. destruct sd as [l|].
  - split.
    + intros a H. induction l as [|x l IH]; [discriminate|].
      simpl in H. destruct (is_string (side_data_type x) type) eqn:T.
      * injection H as ->. exists [], l. repeat split; auto. intros b [].
      * destruct (IH H) as (l1 & l2 & E & Ta & Hb).
        injection E as ->. exists (x :: l1), l2. repeat split; auto.
        intros b [<-|I]; auto.
    + split.
      * intros H l' E b I. injection E as <-. apply (find_none _ _ H b I).
      * intros H. destruct (List.find _ l) as [a|] eqn:F; [|reflexivity].
        apply find_some in F as [I T]. rewrite (H l eq_refl a I) in T. discriminate.
  - split; [discriminate|]. split; [intros _ l E; discriminate|reflexivity].
Qed.

Lemma find_first_match_witness :
  exists l1 l2,
    Some [side_record "DOVI configuration record" 0 0;
          side_record "Content light level metadata" 1000 400;
          side_record "Content light level metadata" 4000 1000]
    = Some (l1 ++ side_record "Content light level metadata" 1000 400 :: l2)%list
    /\ is_string (side_data_type (side_record "Content light level metadata" 1000 400))
         "Content light level metadata" = true
    /\ forall b, In b l1 ->
                 is_string (side_data_type b) "Content light level metadata" = false.
Proof.
  apply (proj1 (find_first_match
                  (Some [side_record "DOVI configuration record" 0 0;
                         side_record "Content light level metadata" 1000 400;
                         side_record "Content light level metadata" 4000 1000])
                  "Content light level metadata")).
  reflexivity.
Defined.

Lemma startsWith_app (a x p : string) :
  startsWith a p = true -> startsWith (a ++ x) p = true.
Proof.
  revert a. induction p as [|c p IH]; intros a.
  - intros _. destruct (a ++ x); reflexivity.
  - destruct a as [|b a]; simpl; [discriminate|].
    destruct (Ascii.eqb c b); simpl; auto.
Qed.

Lemma includes_app (a x sub : string) :
  includes a sub = true -> includes (a ++ x) sub = true.
Proof.
  induction a as [|c a IH]; simpl.
  - rewrite orb_false_r. destruct sub; [|discriminate].
    intros _. destruct x; reflexivity.
  - intros H. apply orb_true_iff in H as [H|H].
    + apply (startsWith_app (String c a) x) in H. simpl in H. rewrite H. reflexivity.
    + rewrite (IH H). apply orb_true_r.
Qed.

(** X2: a pixel format whose text before the first "p" contains "yuv"
    is translated by position: the chroma code is "i" followed by all
    the digits before the first "p", the depth is all the digits
    between the first "p" and the second one (or the end), "8" when
    there are none; what follows a second "p" is ignored. *)
Theorem parse_pix_fmt_pieces (a b : string) :
  includes a "yuv" = true -> occurrences "p" a = O -> occurrences "p" b = O ->
  let r := Ret {| csp := "i" ++ digits_only a;
                  depth := if str_nonempty (digits_only b) then digits_only b else "8" |} in
  parse_pix_fmt (a ++ String "p" b) = r
  /\ forall c, parse_pix_fmt (a ++ String "p" (b ++ String "p" c)) = r.
Proof.
  intros Y A B r. split; [|intros c]; unfold parse_pix_fmt.
  - rewrite (includes_app _ _ _ Y), (split_app _ _ _ A), (split_no_sep _ _ B).
    reflexivity.
  - rewrite (includes_app _ _ _ Y), (split_app _ _ _ A), (split_app _ _ _ B).
    reflexivity.
Qed.

Lemma parse_pix_fmt_pieces_witness :
  parse_pix_fmt ("yuva444" ++ String "p" "12le")
  = Ret {| csp := "i444"; depth := "12" |}
  /\ forall c, parse_pix_fmt ("yuva444" ++ String "p" ("12le" ++ String "p" c))
               = Ret {| csp := "i444"; depth := "12" |}.
Proof.
  exact (parse_pix_fmt_pieces "yuva444" "12le" eq_refl eq_refl eq_refl).
Defined.

(* ================================================================== *)
(** * User-supplied encoder arguments and track tags *)
(* ================================================================== *)

Lemma word_colon (s : string) : word s = true -> occurrences ":" s = O.
Proof.
  unfold word. intros H. apply andb_true_iff in H as [H _].
  now apply Nat.eqb_eq in H.
Qed.

Lemma word_equals (s : string) : word s = true -> occurrences "=" s = O.
Proof.
  unfold word. intros H. apply andb_true_iff in H as [_ H].
  now apply Nat.eqb_eq in H.
Qed.

Lemma occurrences_app (c : ascii) (a b : string) :
  occurrences c (a ++ b) = (occurrences c a + occurrences c b)%nat.
Proof.
  induction a as [|x a IH]; simpl; [reflexivity|].
  destruct (Ascii.eqb x c); simpl; now rewrite IH.
Qed.

Lemma split_piece (kv : string * string) :
  word (fst kv) = true -> word (snd kv) = true ->
  split "=" (piece kv) = [fst kv; snd kv].
Proof.
  intros K V. unfold piece.
  rewrite (split_app _ _ _ (word_equals _ K)), (split_no_sep _ _ (word_equals _ V)).
  reflexivity.
Qed.

Lemma piece_colon (kv : string * string) :
  word (fst kv) = true -> word (snd kv) = true -> occurrences ":" (piece kv) = O.
Proof.
  intros K V. unfold piece. rewrite occurrences_app. simpl.
  now rewrite (word_colon _ K), (word_colon _ V).
Qed.

Lemma split_join (c : ascii) (x : string) (l : list string) :
  forallb (fun s => (occurrences c s =? 0)%nat) (x :: l) = true ->
  split c (join (String c EmptyString) (x :: l)) = x :: l.
Proof.
  revert x. induction l as [|y l IH]; intros x H.
  - simpl in *. rewrite andb_true_r in H. apply Nat.eqb_eq in H.
    now apply split_no_sep.
  - change (forallb _ (x :: y :: l)) with
      ((occurrences c x =? 0)%nat && forallb (fun s => (occurrences c s =? 0)%nat) (y :: l)) in H.
    apply andb_true_iff in H as [X H]. apply Nat.eqb_eq in X.
    change (join (String c EmptyString) (x :: y :: l))
      with (x ++ String c (join (String c EmptyString) (y :: l))).
    now rewrite (split_app _ _ _ X), (IH y H).
Qed.

Lemma user_tokens_pairs (pairs : list (string * string)) :
  forallb (fun kv => word (fst kv) && word (snd kv)) pairs = true ->
  user_tokens (map piece pairs) = flat_map pair_tokens pairs.
Proof.
  induction pairs as [|kv l IH]; [reflexivity|].
  simpl forallb. intros H. apply andb_true_iff in H as [H Hl].
  apply andb_true_iff in H as [K V].
  simpl. rewrite (split_piece _ K V). simpl. now rewrite (IH Hl).
Qed.

Lemma user_tokens_app (l1 l2 : list string) :
  user_tokens (l1 ++ l2) = (user_tokens l1 ++ user_tokens l2)%list.
Proof.
  induction l1 as [|a l1 IH]; [reflexivity|].
  simpl. destruct (negb _); rewrite IH; reflexivity.
Qed.

Lemma user_args_join (opts : options) (l : list string) :
  forallb (fun s => (occurrences ":" s =? 0)%nat) l = true ->
  extra_args opts = Some (join ":" l) ->
  user_args opts = user_tokens l.
Proof.
  intros H E. unfold user_args. rewrite E.
  destruct l as [|x l]; [reflexivity|].
  destruct (join ":" (x :: l)) as [|c r] eqn:J.
  - destruct l as [|y l].
    + simpl in J. subst x. reflexivity.
    + change (join ":" (x :: y :: l)) with (x ++ String ":" (join ":" (y :: l))) in J.
      destruct x; discriminate.
  - simpl str_nonempty. cbv iota. rewrite <- J. now rewrite split_join.
Qed.

(** X3: extra encoder arguments given as "k1=v1:k2=v2:..." reach the
    encoder as the tokens --k1 v1 --k2 v2 ..., in the order written,
    whenever no key or value contains ":" or "=". *)
Theorem user_args_round_trip (opts : options) (pairs : list (string * string)) :
  forallb (fun kv => word (fst kv) && word (snd kv)) pairs = true ->
  extra_args opts = Some (render_pairs pairs) ->
  user_args opts = flat_map pair_tokens pairs.
Proof.
  intros W E. rewrite <- (user_tokens_pairs _ W).
  apply user_args_join; [|exact E].
  clear E. induction pairs as [|kv l IH]; [reflexivity|].
  simpl forallb in W. apply andb_true_iff in W as [W Wl].
  apply andb_true_iff in W as [K V].
  simpl. rewrite (piece_colon _ K V). simpl. now apply IH.
Qed.

Lemma user_args_round_trip_witness :
  user_args (with_extra_args default_options
               (render_pairs [("aq-mode", "3"); ("psy-rd", "2.0")]))
  = flat_map pair_tokens [("aq-mode", "3"); ("psy-rd", "2.0")].
Proof.
  apply (user_args_round_trip
           (with_extra_args default_options
              (render_pairs [("aq-mode", "3"); ("psy-rd", "2.0")]))
           [("aq-mode", "3"); ("psy-rd", "2.0")]); reflexivity.
Defined.

(** X4: a piece of the extra encoder arguments that does not contain
    exactly one "=" (a bare flag, or a value with "=" in it) is dropped
    without a message: the encoder receives the same tokens as if the
    piece had not been written. *)
Theorem user_args_skips (opts : options) (l1 l2 : list string) (a : string) :
  forallb (fun s => (occurrences ":" s =? 0)%nat) (l1 ++ a :: l2) = true ->
  occurrences "=" a <> 1%nat ->
  user_args (with_extra_args opts (join ":" (l1 ++ a :: l2)))
  = user_args (with_extra_args opts (join ":" (l1 ++ l2))).
Proof.
  intros H A.
  rewrite (user_args_join (with_extra_args opts (join ":" (l1 ++ a :: l2))) _ H eq_refl).
  assert (H' : forallb (fun s => (occurrences ":" s =? 0)%nat) (l1 ++ l2) = true).
  { rewrite forallb_app in *. simpl in H.
    apply andb_true_iff in H as [H1 H2]. apply andb_true_iff in H2 as [_ H2].
    now rewrite H1, H2. }
  rewrite (user_args_join (with_extra_args opts (join ":" (l1 ++ l2))) _ H' eq_refl).
  rewrite !user_tokens_app. f_equal.
  simpl. rewrite split_length.
  destruct (S (occurrences "=" a) =? 2)%nat eqn:T; [|reflexivity].
  apply Nat.eqb_eq in T. lia.
Qed.

Lemma user_args_skips_witness :
  user_args (with_extra_args default_options
               (join ":" (["aq-mode=3"] ++ "zones=0,100,q=20" :: ["psy-rd=2.0"])))
  = user_args (with_extra_args default_options
                 (join ":" (["aq-mode=3"] ++ ["psy-rd=2.0"]))).
Proof.
  apply (user_args_skips default_options ["aq-mode=3"] ["psy-rd=2.0"] "zones=0,100,q=20").
  - reflexivity.
  - simpl. lia.
Defined.

Lemma language_of_none (entries : list (string * value)) (cur : value) :
  forallb (fun kv => negb (is_language kv)) entries = true ->
  language_of entries cur = cur.
Proof.
  revert cur. induction entries as [|[k v] l IH]; intros cur H; [reflexivity|].
  simpl in H. apply andb_true_iff in H as [K H].
  simpl. unfold is_language in K. simpl in K.
  destruct (String.eqb (toLowerCase k) "language"); [discriminate|].
  now apply IH.
Qed.

Lemma language_of_last (l1 l2 : list (string * value)) (k : string) (v cur : value) :
  is_language (k, v) = true ->
  forallb (fun kv => negb (is_language kv)) l2 = true ->
  language_of (l1 ++ (k, v) :: l2) cur = v.
Proof.
  intros K H. revert cur. induction l1 as [|[k1 v1] l1 IH]; intros cur.
  - simpl. unfold is_language in K. simpl in K. rewrite K.
    now apply language_of_none.
  - simpl. apply IH.
Qed.

(** X5: the language exported for a track is the value of the last tag
    whose key is "language" in any letter case; a track without tags,
    or without such a tag, is exported as "eng". *)
Theorem tags_of_language (st : stream) :
  (tags st = None -> tag_language (tags_of st) = VString "eng")
  /\ (forall l, tags st = Some l ->
        forallb (fun kv => negb (is_language kv)) l = true ->
        tag_language (tags_of st) = VString "eng")
  /\ (forall l1 k v l2, tags st = Some (l1 ++ (k, v) :: l2)%list ->
        is_language (k, v) = true ->
        forallb (fun kv => negb (is_language kv)) l2 = true ->
        tag_language (tags_of st) = v).
Proof.
  unfold tags_of. split; [|split].
  - intros ->. destruct (stream_disposition st); reflexivity.
  - intros l -> H. rewrite (language_of_none _ _ H).
    destruct (stream_disposition st); reflexivity.
  - intros l1 k v l2 -> K H. rewrite (language_of_last _ _ _ _ _ K H).
    destruct (stream_disposition st); reflexivity.
Qed.

Lemma tags_of_language_witness :
  tag_language
    (tags_of (bare_stream VUndefined
                (Some ([("language", VString "jpn")]
                       ++ ("LANGUAGE", VString "ger") :: [("title", VString "Main")])%list)))
  = VString "ger".
Proof.
  apply (proj2 (proj2 (tags_of_language
                  (bare_stream VUndefined
                     (Some ([("language", VString "jpn")]
                       ++ ("LANGUAGE", VString "ger") :: [("title", VString "Main")])%list))))
           [("language", VString "jpn")] "LANGUAGE" (VString "ger")
           [("title", VString "Main")]); reflexivity.
Defined.

(* ================================================================== *)
(** * The estimate printed with the encoder's progress *)
(* ================================================================== *)

Lemma div_zero_cases (x : float) :
  (x / 0)%float = nan \/ (x / 0)%float = infinity \/ (x / 0)%float = neg_infinity.
Proof.
  rewrite <- (SF2Prim_Prim2SF (x / 0)), div_spec.
  change (Prim2SF 0) with (S754_zero false).
  destruct (Prim2SF x) as [s|s| |s m e]; [| |left; reflexivity|].
  - left; reflexivity.
  - destruct s; [right; right|right; left]; reflexivity.
  - destruct s; [right; right|right; left]; reflexivity.
Qed.

Lemma nan_sub_div (d a : float) : ((nan - d) / a)%float = nan.
Proof.
  rewrite <- (SF2Prim_Prim2SF ((nan - d) / a)), div_spec, sub_spec.
  change (Prim2SF nan) with S754_nan.
  destruct (Prim2SF d); destruct (Prim2SF a); reflexivity.
Qed.

(** X6: the remaining-time estimate is printed as "NaN:NaN:NaN"
    whenever the smoothed rate is zero (whatever the frame counts are),
    and whenever the expected number of frames is not a number
    (whatever the rate is): no division fault, no other text. *)
Theorem eta_text_undefined (frames doneFrames avg_ : float) :
  eta_text frames doneFrames 0 = "NaN:NaN:NaN"
  /\ eta_text nan doneFrames avg_ = "NaN:NaN:NaN".
Proof.
  unfold eta_text. split.
  - destruct (div_zero_cases (frames - doneFrames)) as [E|[E|E]]; rewrite E;
      vm_compute; reflexivity.
  - rewrite nan_sub_div. vm_compute; reflexivity.
Qed.

(* ================================================================== *)
(** * Injection with one sidecar, with none, and its failures *)
(* ================================================================== *)

Lemma truthy_opt_value (o : option string) : truthy (opt_value o) = given o.
Proof. destruct o; reflexivity. Qed.

Lemma post_hdr_body_falsy (h : host) (k : string) (v : value) (cur : string) (s : state) :
  truthy v = false -> post_hdr_body h (k, v) cur s = (Done (inr cur), s).
Proof.
  intros H. unfold post_hdr_body. rewrite H, !andb_false_r. reflexivity.
Qed.

(** The loop of [post_hdr] over the entries of [paths]: only the
    entries "dv" and "plus" can do anything. *)
Lemma post_hdr_entries (h : host) (p : paths) (s : state) :
  post_hdr h p s =
    promise_async
      (r <- post_hdr_body h ("dv", opt_value (dv p)) (temp p) ;;
       match r with
       | inl x => ret (Reject x)
       | inr cur =>
           r' <- post_hdr_body h ("plus", opt_value (plus p)) cur ;;
           match r' with
           | inl x => ret (Reject x)
           | inr cur' => ret (Resolve cur')
           end
       end) s.
Proof.
  unfold post_hdr, promise_async, paths_entries.
  cbn [for_each]. unfold bind.
  do 3 (rewrite post_hdr_body_skip by reflexivity; cbv beta iota).
  destruct (post_hdr_body h ("dv", _) (temp p) s) as [[[x|cur]| |] s1];
    try reflexivity.
  destruct (post_hdr_body h ("plus", _) cur s1) as [[[x|cur']| |] s2];
    reflexivity.
Qed.

Lemma post_hdr_idle (h : host) (p : paths) (s : state) :
  truthy (opt_value (dv p)) = false -> truthy (opt_value (plus p)) = false ->
  post_hdr h p s = (Done (temp p), s).
Proof.
  intros D P. rewrite post_hdr_entries. unfold promise_async, bind.
  now rewrite (post_hdr_body_falsy h "dv" _ _ _ D), (post_hdr_body_falsy h "plus" _ _ _ P).
Qed.

(** X7: when neither sidecar is set, the injection stage starts no
    process, removes nothing, draws no temporary name and hands back
    the transcoded artifact itself. *)
Theorem post_hdr_without_sidecars (h : host) (p : paths) (s : state) :
  given (dv p) = false -> given (plus p) = false ->
  post_hdr h p s = (Done (temp p), s).
Proof.
  intros D P. rewrite post_hdr_entries. unfold promise_async, bind.
  rewrite post_hdr_body_falsy by (now rewrite truthy_opt_value).
  rewrite post_hdr_body_falsy by (now rewrite truthy_opt_value).
  reflexivity.
Qed.

Lemma post_hdr_without_sidecars_witness :
  post_hdr quiet_host (job_paths None (Some EmptyString)) start
  = (Done (temp (job_paths None (Some EmptyString))), start).
Proof.
  apply (post_hdr_without_sidecars quiet_host (job_paths None (Some EmptyString)) start);
    reflexivity.
Defined.

Lemma post_hdr_dv_step (h : host) (p : paths) (s : state) (d : string) :
  dv p = Some d -> str_nonempty d = true ->
  post_hdr_body h ("dv", opt_value (dv p)) (temp p) s =
    let call := inject_dv_args h p s d in
    let t1 := (trace s ++ [EvSpawn (DOVI_TOOL h) call])%list in
    let result := tool_exit (proc h (trace s) (DOVI_TOOL h) call) in
    if truthy (res_e result)
    then (Done (inl (failed "Injecting HDR (dv)" result)),
          {| trace := t1; nrand := S (nrand s) |})
    else match rm_error h t1 (temp p) with
         | Some x => (Raised x, {| trace := t1 ++ [EvRm (temp p)]; nrand := S (nrand s) |})
         | None =>
             match rm_error h (t1 ++ [EvRm (temp p)]) d with
             | Some x => (Raised x, {| trace := (t1 ++ [EvRm (temp p)]) ++ [EvRm d];
                                       nrand := S (nrand s) |})
             | None => (Done (inr (first_temp h s)),
                        {| trace := (t1 ++ [EvRm (temp p)]) ++ [EvRm d];
                           nrand := S (nrand s) |})
             end
         end.
Proof.
  intros D V. rewrite D. cbn [opt_value].
  rewrite (post_hdr_body_inject h "dv" d (temp p) s (DOVI_TOOL h)
             (strs ["inject-rpu"; "--rpu-in"; d]) V) by (left; auto).
  reflexivity.
Qed.

(** X8: a Dolby Vision injection that exits with a non-zero code and a
    non-empty diagnostic rejects with that code and text; the injector
    is the only process started, the HDR10+ injection is not reached
    and nothing is removed, whatever the HDR10+ sidecar is. *)
Theorem post_hdr_dv_failure (h : host) (p : paths) (s : state) (d : string) :
  dv p = Some d -> str_nonempty d = true ->
  let r := proc h (trace s) (DOVI_TOOL h) (inject_dv_args h p s d) in
  exit_is_zero (exit_code r) = false -> str_nonempty (diagnostic r) = true ->
  post_hdr h p s =
    (Raised (Message ("Injecting HDR (dv) failed ("
                      ++ to_string (exit_value (exit_code r)) ++ "): "
                      ++ QUOTE ++ diagnostic r ++ QUOTE)),
     after s [EvSpawn (DOVI_TOOL h) (inject_dv_args h p s d)] 1).
Proof.
  intros D V r Z T. rewrite post_hdr_entries. unfold promise_async, bind.
  rewrite (post_hdr_dv_step h p s d D V). cbv zeta. fold r.
  unfold tool_exit. rewrite Z. cbn [res_e res_c truthy]. fold (diagnostic r). rewrite T.
  unfold failed, after. cbn [res_e res_c to_string ret].
  reflexivity.
Qed.

Lemma post_hdr_dv_failure_witness :
  post_hdr (scripted_host None "dovi_tool" (exits 1 ["bad rpu"; LF]) (fun _ => false))
    (job_paths (Some "/work/rpu.bin") (Some "/work/plus.json")) start
  = (Raised (Message ("Injecting HDR (dv) failed (1): " ++ QUOTE ++ "bad rpu" ++ QUOTE)),
     after start
       [EvSpawn "dovi_tool"
          (strs ["inject-rpu"; "--rpu-in"; "/work/rpu.bin"; "-i";
                 "/work/.hdrsucks-aaaaaa.hevc"; "-o"; "/work/.hdrsucks-000000.hevc"])] 1).
Proof.
  exact (post_hdr_dv_failure
           (scripted_host None "dovi_tool" (exits 1 ["bad rpu"; LF]) (fun _ => false))
           (job_paths (Some "/work/rpu.bin") (Some "/work/plus.json")) start
           "/work/rpu.bin" eq_refl eq_refl eq_refl eq_refl).
Defined.

(** X9: the injection stage tells success from failure by the
    diagnostic text alone.  With the Dolby Vision sidecar set and no
    HDR10+ sidecar, an injector that exits with code 0, or with any
    code and an empty diagnostic, is taken to have succeeded: the
    transcoded artifact and the sidecar are removed, in that order, and
    the new artifact is handed back. *)
Theorem post_hdr_dv_only (h : host) (p : paths) (s : state) (d : string) :
  dv p = Some d -> str_nonempty d = true -> given (plus p) = false ->
  let call := inject_dv_args h p s d in
  let r := proc h (trace s) (DOVI_TOOL h) call in
  let t1 := (trace s ++ [EvSpawn (DOVI_TOOL h) call])%list in
  exit_is_zero (exit_code r) = true \/ diagnostic r = EmptyString ->
  rm_error h t1 (temp p) = None ->
  rm_error h (t1 ++ [EvRm (temp p)]) d = None ->
  post_hdr h p s =
    (Done (first_temp h s),
     after s [EvSpawn (DOVI_TOOL h) call; EvRm (temp p); EvRm d] 1).
Proof.
  intros D V P call r t1 Z R1 R2. rewrite post_hdr_entries. unfold promise_async, bind.
  rewrite (post_hdr_dv_step h p s d D V). cbv zeta. fold call r t1.
  assert (T : truthy (res_e (tool_exit r)) = false).
  { unfold tool_exit. destruct (exit_is_zero (exit_code r)); [reflexivity|].
    destruct Z as [Z|Z]; [discriminate|].
    cbn [res_e truthy]. fold (diagnostic r). now rewrite Z. }
  rewrite T, R1, R2.
  rewrite post_hdr_body_falsy by (now rewrite truthy_opt_value).
  unfold after, t1. cbn [ret]. rewrite <- !app_assoc. reflexivity.
Qed.

Lemma post_hdr_dv_only_witness :
  post_hdr (scripted_host None "dovi_tool" (exits 1 []) (fun _ => false))
    (job_paths (Some "/work/rpu.bin") None) start
  = (Done "/work/.hdrsucks-000000.hevc",
     after start
       [EvSpawn "dovi_tool"
          (strs ["inject-rpu"; "--rpu-in"; "/work/rpu.bin"; "-i";
                 "/work/.hdrsucks-aaaaaa.hevc"; "-o"; "/work/.hdrsucks-000000.hevc"]);
        EvRm "/work/.hdrsucks-aaaaaa.hevc"; EvRm "/work/rpu.bin"] 1).
Proof.
  exact (post_hdr_dv_only
           (scripted_host None "dovi_tool" (exits 1 []) (fun _ => false))
           (job_paths (Some "/work/rpu.bin") None) start
           "/work/rpu.bin" eq_refl eq_refl eq_refl (or_intror eq_refl) eq_refl eq_refl).
Defined.

(** X10: a removal that fails during the injection stage is thrown
    inside the promise executor: the stage neither resolves nor
    rejects, and the error cannot reach the error handler of the main
    function.  Shown for the removal of the transcoded artifact after a
    Dolby Vision injection that reported no error. *)
Theorem post_hdr_removal_failure (h : host) (p : paths) (s : state) (d : string) (x : exn) :
  dv p = Some d -> str_nonempty d = true ->
  let call := inject_dv_args h p s d in
  let r := proc h (trace s) (DOVI_TOOL h) call in
  exit_is_zero (exit_code r) = true ->
  rm_error h (trace s ++ [EvSpawn (DOVI_TOOL h) call])%list (temp p) = Some x ->
  post_hdr h p s =
    (Crashed x, after s [EvSpawn (DOVI_TOOL h) call; EvRm (temp p)] 1).
Proof.
  intros D V call r Z R1. rewrite post_hdr_entries. unfold promise_async, bind.
  rewrite (post_hdr_dv_step h p s d D V). cbv zeta. fold call r.
  unfold tool_exit. rewrite Z. cbn [res_e truthy]. rewrite R1.
  unfold after. rewrite <- !app_assoc. reflexivity.
Qed.

Lemma post_hdr_removal_failure_witness :
  post_hdr (scripted_host None "dovi_tool" (exits 0 [])
              (fun f => String.eqb f "/work/.hdrsucks-aaaaaa.hevc"))
    (job_paths (Some "/work/rpu.bin") (Some "/work/plus.json")) start
  = (Crashed (Error "EPERM"),
     after start
       [EvSpawn "dovi_tool"
          (strs ["inject-rpu"; "--rpu-in"; "/work/rpu.bin"; "-i";
                 "/work/.hdrsucks-aaaaaa.hevc"; "-o"; "/work/.hdrsucks-000000.hevc"]);
        EvRm "/work/.hdrsucks-aaaaaa.hevc"] 1).
Proof.
  exact (post_hdr_removal_failure
           (scripted_host None "dovi_tool" (exits 0 [])
              (fun f => String.eqb f "/work/.hdrsucks-aaaaaa.hevc"))
           (job_paths (Some "/work/rpu.bin") (Some "/work/plus.json")) start
           "/work/rpu.bin" (Error "EPERM") eq_refl eq_refl eq_refl eq_refl).
Defined.

(* ================================================================== *)
(** * What the side-data scan hands to the encoder *)
(* ================================================================== *)

Section ScanResult.

Variable h : host.

Lemma hdr_master_exact e st s st1 s1 :
  hdr_master e st s = (Done st1, s1) ->
  st1 = {| done0 := done0 st || found Mastering e;
           done1 := done1 st; done2 := done2 st; done3 := done3 st;
           out := out st ++ (if done0 st then []
                             else master_tokens (find e (kind_name Mastering)));
           hpaths := hpaths st |}.
Proof.
  unfold hdr_master, found, master_tokens. simpl kind_name.
  destruct st as [d0 d1 d2 d3 o hp]. cbn [done0 done1 done2 done3 out hpaths].
  destruct (find e _) as [t|].
  - destruct d0; simpl.
    + intros E. injection E as <- <-. now rewrite app_nil_r.
    + unfold bind, log, emit, lift.
      destruct (parse_master_display t); simpl; intros E; [|discriminate].
      injection E as <- <-. reflexivity.
  - intros E. injection E as <- <-.
    rewrite orb_false_r. destruct d0; now rewrite app_nil_r.
Qed.

Lemma hdr_cll_exact e st s st1 s1 :
  hdr_cll e st s = (Done st1, s1) ->
  st1 = {| done0 := done0 st; done1 := done1 st || found ContentLight e;
           done2 := done2 st; done3 := done3 st;
           out := out st ++ (if done1 st then []
                             else cll_tokens (find e (kind_name ContentLight)));
           hpaths := hpaths st |}.
Proof.
  unfold hdr_cll, found, cll_tokens. simpl kind_name.
  destruct st as [d0 d1 d2 d3 o hp]. cbn [done0 done1 done2 done3 out hpaths].
  destruct (find e _) as [t|].
  - destruct d1; simpl; intros E; injection E as <- <-;
      [now rewrite app_nil_r|reflexivity].
  - intros E. injection E as <- <-.
    rewrite orb_false_r. destruct d1; now rewrite app_nil_r.
Qed.

Lemma hdr_dovi_exact v e st s st1 s1 :
  hdr_dovi h v e st s = (Done (inr st1), s1) ->
  exists name,
    st1 = {| done0 := done0 st; done1 := done1 st;
             done2 := done2 st || found DolbyVision e; done3 := done3 st;
             out := out st;
             hpaths := if negb (done2 st) && found DolbyVision e
                       then set_dv (hpaths st) name else hpaths st |}.
Proof.
  unfold hdr_dovi, found. simpl kind_name.
  destruct st as [d0 d1 d2 d3 o hp]. cbn [done0 done1 done2 done3 out hpaths].
  destruct (find e _) as [t|].
  - destruct d2; simpl.
    + intros E. injection E as <- <-. now exists EmptyString.
    + unfold bind, log, emit, generate_temp_name, ff_xtract, spawn, ret. simpl.
      destruct (truthy _); intros E; [discriminate|].
      injection E as <- <-. eexists. reflexivity.
  - intros E. injection E as <- <-. exists EmptyString.
    now rewrite orb_false_r, andb_false_r.
Qed.

Lemma hdr_plus_exact v e st s st1 s1 :
  hdr_plus h v e st s = (Done (inr st1), s1) ->
  exists name,
    st1 = {| done0 := done0 st; done1 := done1 st; done2 := done2 st;
             done3 := done3 st || found HDR10Plus e;
             out := out st;
             hpaths := if negb (done3 st) && found HDR10Plus e
                       then set_plus (hpaths st) name else hpaths st |}.
Proof.
  unfold hdr_plus, found. simpl kind_name.
  destruct st as [d0 d1 d2 d3 o hp]. cbn [done0 done1 done2 done3 out hpaths].
  destruct (find e _) as [t|].
  - destruct d3; simpl.
    + intros E. injection E as <- <-. now exists EmptyString.
    + unfold bind, log, emit, generate_temp_name, ff_xtract, spawn, ret. simpl.
      destruct (truthy _); intros E; [discriminate|].
      injection E as <- <-. eexists. reflexivity.
  - intros E. injection E as <- <-. exists EmptyString.
    now rewrite orb_false_r, andb_false_r.
Qed.

(** One pass of the loop body that ran to its end: flags, tokens and
    paths afterwards. *)
Lemma hdr_blocks_exact v e st s st4 s4 :
  hdr_blocks h v e st s = (Done (inr st4), s4) ->
  (forall k, done_flag k st4 = done_flag k st || found k e)
  /\ out st4 = (out st
                ++ (if done0 st then [] else master_tokens (find e (kind_name Mastering)))
                ++ (if done1 st then [] else cll_tokens (find e (kind_name ContentLight))))%list
  /\ input (hpaths st4) = input (hpaths st)
  /\ output (hpaths st4) = output (hpaths st)
  /\ temp (hpaths st4) = temp (hpaths st)
  /\ audio_temp (hpaths st4) = audio_temp (hpaths st)
  /\ is_set (dv (hpaths st4))
     = is_set (dv (hpaths st)) || (negb (done2 st) && found DolbyVision e)
  /\ is_set (plus (hpaths st4))
     = is_set (plus (hpaths st)) || (negb (done3 st) && found HDR10Plus e).
Proof.
  unfold hdr_blocks, bind.
  destruct (hdr_master e st s) as [[st1| |] s1] eqn:E1; try discriminate.
  destruct (hdr_cll e st1 s1) as [[st2| |] s2] eqn:E2; try discriminate.
  destruct (hdr_dovi h v e st2 s2) as [[[x|st3]| |] s3] eqn:E3; try discriminate.
  intros E4.
  apply hdr_master_exact in E1. apply hdr_cll_exact in E2.
  apply hdr_dovi_exact in E3 as [n3 E3]. apply hdr_plus_exact in E4 as [n4 E4].
  subst st4 st3 st2 st1. cbn [done0 done1 done2 done3 out hpaths].
  split; [intros []; reflexivity|].
  split; [now rewrite <- app_assoc|].
  destruct (negb (done2 st) && found DolbyVision e);
    destruct (negb (done3 st) && found HDR10Plus e);
    cbn [set_dv set_plus input output temp audio_temp dv plus is_set];
    rewrite ?orb_true_r, ?orb_false_r; repeat split; reflexivity.
Qed.

End ScanResult.

Lemma pre_hdr_resolved (h : host) (st : stream) (fr : frame) (p : paths) (v : bool)
    (s : state) (o : list string) (p' : paths) (s' : state) :
  pre_hdr h st fr p v s = (Done (o, p'), s') ->
  exists st1 s1 st2,
    hdr_blocks h v (stream_side_data_list st)
      {| done0 := false; done1 := false; done2 := false; done3 := false;
         out := []; hpaths := p |} s = (Done (inr st1), s1)
    /\ hdr_blocks h v (frame_side_data_list fr) st1 s1 = (Done (inr st2), s')
    /\ o = out st2 /\ p' = hpaths st2.
Proof.
  rewrite pre_hdr_scan. unfold promise_async. rewrite pre_hdr_loop.
  destruct (hdr_blocks h v (stream_side_data_list st) _ s) as [[[x|st1]| |] s1] eqn:E1;
    try discriminate.
  destruct (hdr_blocks h v (frame_side_data_list fr) st1 s1) as [[[x|st2]| |] s2] eqn:E2;
    try discriminate.
  intros E. injection E as <- <- <-. exists st1, s1, st2.
  split; [reflexivity|]. split; [exact E2|]. split; reflexivity.
Qed.

(** X11: the tokens a scan that resolves hands to the encoder.  They
    are, in this order: the mastering display and the content light
    level of the stream, then the mastering display and the content
    light level of the frame, each of the latter two only when the
    stream has no record of that kind.  So at most one pair of each
    kind is passed, and a stream with the content light level only puts
    --max-cll before the frame's --master-display. *)
Theorem pre_hdr_tokens (h : host) (st : stream) (fr : frame) (p : paths) (v : bool)
    (s : state) (o : list string) (p' : paths) (s' : state) :
  pre_hdr h st fr p v s = (Done (o, p'), s') ->
  o = (master_tokens (find (stream_side_data_list st) (kind_name Mastering))
       ++ cll_tokens (find (stream_side_data_list st) (kind_name ContentLight))
       ++ master_tokens (late Mastering st fr)
       ++ cll_tokens (late ContentLight st fr))%list.
Proof.
  intros H. apply pre_hdr_resolved in H as (st1 & s1 & st2 & E1 & E2 & -> & _).
  apply hdr_blocks_exact in E1 as (F1 & O1 & _).
  apply hdr_blocks_exact in E2 as (_ & O2 & _).
  rewrite O2, O1. cbn [done0 done1 out app].
  pose proof (F1 Mastering) as M. pose proof (F1 ContentLight) as C.
  cbn [done_flag done0 done1 orb] in M, C. rewrite M, C.
  unfold late. rewrite <- !app_assoc.
  destruct (found Mastering _); destruct (found ContentLight _); reflexivity.
Qed.

Lemma pre_hdr_tokens_witness :
  ["--max-cll"; "1000,400"; "--master-display";
   "G(25000,25000)B(25000,25000)R(25000,25000)WP(25000,25000)L(5000,5000)"]
  = (master_tokens (find (stream_side_data_list cll_stream) (kind_name Mastering))
     ++ cll_tokens (find (stream_side_data_list cll_stream) (kind_name ContentLight))
     ++ master_tokens (late Mastering cll_stream frame_with_mastering)
     ++ cll_tokens (late ContentLight cll_stream frame_with_mastering))%list.
Proof.
  apply (pre_hdr_tokens quiet_host cll_stream frame_with_mastering (job_paths None None)
           false start _
           (set_plus (job_paths None None) "/work/.hdrsucks-000000.json")
           (snd (pre_hdr quiet_host cll_stream frame_with_mastering
                   (job_paths None None) false start))).
  vm_compute. reflexivity.
Defined.

(** X12: what a scan that resolves does to the job's paths.  Input,
    output, transcode target and audio files are left as they were; the
    Dolby Vision sidecar is set exactly when it was set before or the
    stream or the frame carries a Dolby Vision record, and likewise the
    HDR10+ sidecar. *)
Theorem pre_hdr_sidecars (h : host) (st : stream) (fr : frame) (p : paths) (v : bool)
    (s : state) (o : list string) (p' : paths) (s' : state) :
  pre_hdr h st fr p v s = (Done (o, p'), s') ->
  input p' = input p /\ output p' = output p /\ temp p' = temp p
  /\ audio_temp p' = audio_temp p
  /\ is_set (dv p')
     = is_set (dv p) || found DolbyVision (stream_side_data_list st)
       || found DolbyVision (frame_side_data_list fr)
  /\ is_set (plus p')
     = is_set (plus p) || found HDR10Plus (stream_side_data_list st)
       || found HDR10Plus (frame_side_data_list fr).
Proof.
  intros H. apply pre_hdr_resolved in H as (st1 & s1 & st2 & E1 & E2 & _ & ->).
  apply hdr_blocks_exact in E1 as (F1 & _ & I1 & O1 & T1 & A1 & D1 & P1).
  apply hdr_blocks_exact in E2 as (_ & _ & I2 & O2 & T2 & A2 & D2 & P2).
  cbn [hpaths done2 done3 negb andb] in *.
  pose proof (F1 DolbyVision) as FD. pose proof (F1 HDR10Plus) as FP.
  cbn [done_flag done2 done3 orb] in FD, FP.
  rewrite I2, O2, T2, A2, D2, P2, D1, P1, FD, FP.
  repeat split; auto.
  - destruct (is_set (dv p)); destruct (found DolbyVision (stream_side_data_list st));
      destruct (found DolbyVision (frame_side_data_list fr)); reflexivity.
  - destruct (is_set (plus p)); destruct (found HDR10Plus (stream_side_data_list st));
      destruct (found HDR10Plus (frame_side_data_list fr)); reflexivity.
Qed.

Lemma pre_hdr_sidecars_witness :
  let p' := set_plus (job_paths None None) "/work/.hdrsucks-000000.json" in
  let p := job_paths None None in
  input p' = input p /\ output p' = output p /\ temp p' = temp p
  /\ audio_temp p' = audio_temp p
  /\ is_set (dv p')
     = is_set (dv p) || found DolbyVision (stream_side_data_list cll_stream)
       || found DolbyVision (frame_side_data_list frame_with_mastering)
  /\ is_set (plus p')
     = is_set (plus p) || found HDR10Plus (stream_side_data_list cll_stream)
       || found HDR10Plus (frame_side_data_list frame_with_mastering).
Proof.
  apply (pre_hdr_sidecars quiet_host cll_stream frame_with_mastering (job_paths None None)
           false start
           ["--max-cll"; "1000,400"; "--master-display";
            "G(25000,25000)B(25000,25000)R(25000,25000)WP(25000,25000)L(5000,5000)"]
           (set_plus (job_paths None None) "/work/.hdrsucks-000000.json")
           (snd (pre_hdr quiet_host cll_stream frame_with_mastering
                   (job_paths None None) false start))).
  vm_compute. reflexivity.
Defined.

Lemma hdr_blocks_idle (h : host) (v : bool) (e : option (list side_data))
    (st : hdr_state) (s : state) :
  (forall k, found k e = false) -> hdr_blocks h v e st s = (Done (inr st), s).
Proof.
  intros A. rewrite (hdr_blocks_agree h v e None st s); [reflexivity|].
  intros k _. specialize (A k). unfold found in A.
  destruct (find e (kind_name k)); [discriminate|reflexivity].
Qed.

(** X13: a stream and a frame that carry no record of any of the four
    kinds leave the scan without effect: no line is printed, no process
    is started, no temporary name is drawn, and the scan resolves with
    no tokens and the paths untouched. *)
Theorem pre_hdr_nothing_found (h : host) (st : stream) (fr : frame) (p : paths)
    (v : bool) (s : state) :
  (forall k, found k (stream_side_data_list st) = false) ->
  (forall k, found k (frame_side_data_list fr) = false) ->
  pre_hdr h st fr p v s = (Done ([], p), s).
Proof.
  intros S F.
  rewrite pre_hdr_scan. unfold promise_async. rewrite pre_hdr_loop.
  rewrite (hdr_blocks_idle h v _ _ s S), (hdr_blocks_idle h v _ _ s F). reflexivity.
Qed.

Lemma pre_hdr_nothing_found_witness :
  pre_hdr quiet_host
    (with_side_data (bare_stream VUndefined None) (Some [side_record "Spherical Mapping" 0 0]))
    plain_frame (job_paths None None) false start
  = (Done ([], job_paths None None), start).
Proof.
  apply (pre_hdr_nothing_found quiet_host
           (with_side_data (bare_stream VUndefined None)
              (Some [side_record "Spherical Mapping" 0 0]))
           plain_frame (job_paths None None) false start);
    intros []; reflexivity.
Defined.

(** X14: a Dolby Vision extraction that exits with a non-zero code and
    a non-empty diagnostic rejects the scan with that code and text.
    The scan stops there: with no mastering-display record on the
    stream, the line announcing Dolby Vision, the demuxer and the
    extractor are all that happened; the HDR10+ extraction is not
    started and the frame is not looked at. *)
Theorem pre_hdr_extraction_failure (h : host) (st : stream) (fr : frame) (p : paths)
    (v : bool) (s : state) :
  found Mastering (stream_side_data_list st) = false ->
  found DolbyVision (stream_side_data_list st) = true ->
  let name := next_temp h s ".bin" in
  let r := proc h (trace s ++ firstn 2 (extract_rpu_events h p name))%list
             (DOVI_TOOL h) (extract_rpu_args name) in
  exit_is_zero (exit_code r) = false -> str_nonempty (diagnostic r) = true ->
  pre_hdr h st fr p v s =
    (Raised (Message ("Extracting Dolby Vision failed ("
                      ++ to_string (exit_value (exit_code r)) ++ "): "
                      ++ QUOTE ++ diagnostic r ++ QUOTE)),
     after s (extract_rpu_events h p name) 1).
Proof.
  intros M D name r Z T.
  rewrite pre_hdr_scan. unfold promise_async. rewrite pre_hdr_loop.
  unfold found in M, D. simpl kind_name in M, D.
  assert (E : hdr_blocks h v (stream_side_data_list st)
                {| done0 := false; done1 := false; done2 := false; done3 := false;
                   out := []; hpaths := p |} s
              = (Done (inl (failed "Extracting Dolby Vision" (tool_exit r))),
                 after s (extract_rpu_events h p name) 1)).
  { unfold hdr_blocks, hdr_master, hdr_cll, hdr_dovi.
    destruct (find _ "Mastering display metadata"); [discriminate|].
    destruct (find _ "DOVI configuration record"); [|discriminate].
    destruct s as [t n].
    destruct (find _ "Content light level metadata");
      cbv [bind ret log emit generate_temp_name ff_xtract spawn trace nrand
           done0 done1 done2 done3 out hpaths negb];
      cbn [set_dv input];
      cbv [name next_temp extract_rpu_events firstn trace nrand] in r;
      fold (demux_args p); fold (log_line "Found Dolby Vision");
      rewrite <- !app_assoc; cbn [app];
      change (strs (split " " ("extract-rpu -o "
                               ++ cwd_join h (TEMP_BASE ++ random_hex h n ++ ".bin") ++ " -")))
        with (extract_rpu_args (cwd_join h (TEMP_BASE ++ random_hex h n ++ ".bin")));
      fold r;
      (assert (Tr : truthy (res_e (tool_exit r)) = true)
         by (unfold tool_exit; rewrite Z; exact T));
      rewrite Tr; unfold after, name, next_temp, extract_rpu_events;
      cbn [trace nrand]; rewrite <- ?app_assoc; cbn [app];
      reflexivity. }
  rewrite E. unfold failed, tool_exit. rewrite Z. reflexivity.
Qed.

Lemma pre_hdr_extraction_failure_witness :
  pre_hdr (scripted_host None "dovi_tool" (exits 1 ["no rpu"]) (fun _ => false))
    dovi_stream frame_with_mastering (job_paths None None) false start
  = (Raised (Message ("Extracting Dolby Vision failed (1): " ++ QUOTE ++ "no rpu" ++ QUOTE)),
     after start
       (extract_rpu_events
          (scripted_host None "dovi_tool" (exits 1 ["no rpu"]) (fun _ => false))
          (job_paths None None) "/work/.hdrsucks-000000.bin") 1).
Proof.
  exact (pre_hdr_extraction_failure
           (scripted_host None "dovi_tool" (exits 1 ["no rpu"]) (fun _ => false))
           dovi_stream frame_with_mastering (job_paths None None) false start
           eq_refl eq_refl eq_refl eq_refl).
Defined.

Lemma extract_rpu_args_length (name : string) :
  List.length (extract_rpu_args name) = (4 + occurrences " " name)%nat.
Proof.
  unfold extract_rpu_args, strs.
  rewrite length_map, split_length, !occurrences_app. simpl. lia.
Qed.

Lemma extract_rpu_args_plain (name : string) :
  occurrences " " name = O ->
  extract_rpu_args name = strs ["extract-rpu"; "-o"; name; "-"].
Proof.
  intros N. unfold extract_rpu_args.
  change ("extract-rpu -o " ++ name ++ " -")
    with ("extract-rpu" ++ String " " ("-o" ++ String " " (name ++ String " " "-"))).
  rewrite (split_app " " "extract-rpu" _ eq_refl).
  rewrite (split_app " " "-o" _ eq_refl).
  rewrite (split_app " " name _ N). reflexivity.
Qed.

(** X15: the Dolby Vision block of the scan, on a collection with a
    Dolby Vision record not seen before, starts the demuxer and then
    the extractor, whose arguments are cut out of one line of text at
    every space.  For a temporary name without a space they are
    extract-rpu, -o, the name and "-"; every space in the name (a
    working directory with a space in its path) adds an argument, so
    the name no longer reaches the extractor in one piece. *)
Theorem hdr_dovi_arguments (h : host) (v : bool) (e : option (list side_data))
    (st : hdr_state) (s : state) :
  found DolbyVision e = true -> done2 st = false ->
  let name := next_temp h s ".bin" in
  exists args,
    spawned (trace (snd (hdr_dovi h v e st s)))
    = (spawned (trace s)
       ++ [(FFMPEG h, demux_args (hpaths st)); (DOVI_TOOL h, args)])%list
    /\ List.length args = (4 + occurrences " " name)%nat
    /\ (occurrences " " name = O -> args = strs ["extract-rpu"; "-o"; name; "-"]).
Proof.
  intros F D name. exists (extract_rpu_args name).
  split; [|split; [apply extract_rpu_args_length|apply extract_rpu_args_plain]].
  unfold hdr_dovi. unfold found in F. simpl kind_name in F.
  destruct (find e _); [|discriminate]. rewrite D. destruct s as [t n].
  cbv [bind ret log emit generate_temp_name ff_xtract spawn trace nrand negb].
  cbn [set_dv input].
  destruct (truthy _); cbn [snd trace]; rewrite <- !app_assoc, spawned_app;
    reflexivity.
Qed.

Lemma hdr_dovi_arguments_witness :
  exists args,
    spawned (trace (snd (hdr_dovi quiet_host false (stream_side_data_list dovi_stream)
                           {| done0 := false; done1 := false; done2 := false;
                              done3 := false; out := []; hpaths := job_paths None None |}
                           start)))
    = (spawned (trace start)
       ++ [(FFMPEG quiet_host, demux_args (job_paths None None));
           (DOVI_TOOL quiet_host, args)])%list
    /\ List.length args = (4 + occurrences " " (next_temp quiet_host start ".bin"))%nat
    /\ (occurrences " " (next_temp quiet_host start ".bin") = O ->
        args = strs ["extract-rpu"; "-o"; next_temp quiet_host start ".bin"; "-"]).
Proof.
  exact (hdr_dovi_arguments quiet_host false (stream_side_data_list dovi_stream)
           {| done0 := false; done1 := false; done2 := false;
              done3 := false; out := []; hpaths := job_paths None None |}
           start eq_refl eq_refl).
Defined.

(* ================================================================== *)
(** * The main function after a successful probe *)
(* ================================================================== *)

Lemma main_after_probe (h : host) (arg0 : string) (arg1 : option string)
    (opts : options) (s : state) (d : probe_data) :
  probe_yields h arg0 arg1 opts s d ->
  main h arg0 arg1 opts s =
    try_catch (content_checks h opts d (job_record h arg0 arg1 s)) (fun e => err e)
      (probed h arg0 arg1 opts s).
Proof.
  unfold probe_yields, probed, after, probe_run, prelude, probe_args, job_record,
    job_input, job_output, first_temp.
  cbv zeta. destruct s as [t n]. cbn [trace nrand]. intros [X J].
  unfold main, try_catch, job.
  cbv [bind generate_temp_name log debug emit ret run_ffprobe spawn trace nrand].
  cbn [input output].
  destruct (verbose opts); cbn [app] in *;
    rewrite <- ?app_assoc in *; cbn [app] in *;
    rewrite X; cbn [negb]; rewrite J; reflexivity.
Qed.

(** X16: a probe that exits with code 0 but whose output is not JSON
    makes the parse fault inside the "exit" listener: the main function
    never gets a probe result, reports nothing through its error
    handler and starts no other process. *)
Theorem main_unparsable_probe (h : host) (arg0 : string) (arg1 : option string)
    (opts : options) (s : state) :
  let r := probe_run h arg0 arg1 opts s in
  exit_is_zero (exit_code r) = true ->
  JSON_parse h (concat_chunks (stdout_chunks r)) = None ->
  main h arg0 arg1 opts s = (Crashed SyntaxError, probed h arg0 arg1 opts s).
Proof.
  unfold probed, after, probe_run, prelude, probe_args, job_input, job_output.
  cbv zeta. destruct s as [t n]. cbn [trace nrand]. intros X J.
  unfold main, try_catch, job.
  cbv [bind generate_temp_name log debug emit ret crash run_ffprobe spawn trace nrand].
  cbn [input output].
  destruct (verbose opts); cbn [app] in *;
    rewrite <- ?app_assoc in *; cbn [app] in *;
    rewrite X; cbn [negb]; rewrite J; reflexivity.
Qed.

Lemma main_unparsable_probe_witness :
  main quiet_host "in.mkv" None default_options start
  = (Crashed SyntaxError, probed quiet_host "in.mkv" None default_options start).
Proof.
  exact (main_unparsable_probe quiet_host "in.mkv" None default_options start
           eq_refl eq_refl).
Defined.

(** X17: the content checks.  After a probe that succeeded, a file
    with no streams, with streams none of which is a video stream, or
    with a video stream and no frames, is reported with the message of
    its case; the run ends there with the probe as the only process
    started, nothing removed and one temporary name drawn. *)
Theorem main_content_checks (h : host) (arg0 : string) (arg1 : option string)
    (opts : options) (s : state) (d : probe_data) (msg : string) :
  probe_yields h arg0 arg1 opts s d ->
  truthy (_e d) = false ->
  (streams d = Some [] /\ msg = "No streams were found in the file")
  \/ (exists x ss, streams d = Some (x :: ss) /\ existsb is_video (x :: ss) = false
                   /\ msg = "No video stream was found in the file")
  \/ (exists ss, streams d = Some ss /\ existsb is_video ss = true
                 /\ frames d = Some [] /\ msg = "No frames were found in the video stream") ->
  main h arg0 arg1 opts s =
    (Done tt, after (probed h arg0 arg1 opts s) [EvErr (Message msg)] 0).
Proof.
  intros Y E C. rewrite (main_after_probe h arg0 arg1 opts s d Y).
  unfold try_catch, content_checks. rewrite E.
  assert (F : forall ss, List.find (fun x => is_string (codec_type x) "video") ss = None
                         <-> existsb is_video ss = false).
  { induction ss as [|a ss IH]; simpl; [tauto|].
    unfold is_video at 1. destruct (is_string (codec_type a) "video"); simpl;
      [split; discriminate|exact IH]. }
  destruct C as [[S ->]|[(x & ss & S & V & ->)|(ss & S & V & Fr & ->)]]; rewrite S.
  - unfold err, emit, after. cbn [List.length Nat.ltb Nat.leb trace nrand].
    reflexivity.
  - apply F in V. rewrite V. cbn [List.length Nat.ltb Nat.leb].
    unfold err, emit, after. cbn [trace nrand]. reflexivity.
  - destruct ss as [|x ss]; [discriminate|]. cbn [List.length Nat.ltb Nat.leb].
    destruct (List.find _ (x :: ss)) as [st|] eqn:Fd.
    + rewrite Fr. unfold err, emit, after. cbn [trace nrand].
      reflexivity.
    + apply F in Fd. congruence.
Qed.

Lemma main_content_checks_witness :
  main (host_with_probe (probe_with [audio_stream 0 None] [])) "in.mkv" None
    default_options start
  = (Done tt,
     after (probed (host_with_probe (probe_with [audio_stream 0 None] [])) "in.mkv" None
              default_options start)
       [EvErr (Message "No video stream was found in the file")] 0).
Proof.
  apply (main_content_checks (host_with_probe (probe_with [audio_stream 0 None] []))
           "in.mkv" None default_options start (probe_with [audio_stream 0 None] [])).
  - split; reflexivity.
  - reflexivity.
  - right; left. exists (audio_stream 0 None), []. split; [reflexivity|].
    split; reflexivity.
Defined.

(** X18: a video stream whose pixel format the translation rejects
    (not YUV, no "p" in it, or not a string) ends the run before any
    argument is built: the error is caught by the wrapper of the main
    function and reported, the probe stays the only process started and
    nothing is removed. *)
Theorem main_pix_fmt_rejected (h : host) (arg0 : string) (arg1 : option string)
    (opts : options) (s : state) (d : probe_data) (ss : list stream) (st : stream)
    (fr : frame) (fs : list frame) (e : exn) :
  probe_yields h arg0 arg1 opts s d ->
  truthy (_e d) = false ->
  streams d = Some ss -> List.find is_video ss = Some st -> frames d = Some (fr :: fs) ->
  parse_pix_fmt_v (pix_fmt st) = Throw e ->
  main h arg0 arg1 opts s =
    (Done tt, after (probed h arg0 arg1 opts s) (opus_warning opts ss ++ [EvErr e]) 0).
Proof.
  intros Y E S V F P. rewrite (main_after_probe h arg0 arg1 opts s d Y).
  unfold try_catch, content_checks. rewrite E, S.
  destruct ss as [|x ss]; [discriminate|]. cbn [List.length Nat.ltb Nat.leb].
  unfold is_video in V. rewrite V, F.
  unfold encode, opus_warning, is_audio. rewrite P.
  destruct (opus opts && _);
    cbv [bind lift raise warn err emit ret after trace nrand];
    rewrite <- ?app_assoc; reflexivity.
Qed.

Lemma main_pix_fmt_rejected_witness :
  main (host_with_probe (probe_of "gbrp")) "in.mkv" None default_options start
  = (Done tt,
     after (probed (host_with_probe (probe_of "gbrp")) "in.mkv" None default_options start)
       (opus_warning default_options
          [hd (bare_stream VUndefined None)
              (match streams (probe_of "gbrp") with Some l => l | None => [] end)]
        ++ [EvErr (Error "Input must be YUV")]) 0).
Proof.
  exact (main_pix_fmt_rejected (host_with_probe (probe_of "gbrp")) "in.mkv" None
           default_options start (probe_of "gbrp") _ _ _ _ _
           (conj eq_refl eq_refl) eq_refl eq_refl eq_refl eq_refl eq_refl).
Defined.

(* ================================================================== *)
(** * The encoder stage and the multiplexer *)
(* ================================================================== *)

Lemma after_after (s : state) (a b : list event) (n m : nat) :
  after (after s a n) b m = after s (a ++ b) (m + n).
Proof.
  unfold after. cbn [trace nrand]. now rewrite <- app_assoc, Nat.add_assoc.
Qed.

Lemma after_nothing (s : state) : after s [] 0 = s.
Proof.
  destruct s. unfold after. cbn [trace nrand]. now rewrite app_nil_r.
Qed.

Lemma x265_listen_writes (frames : float) (chunks : list string) :
  forall avg s,
  exists lines,
    x265_listen frames chunks avg s
    = (Done (fold_left window_push (samples chunks) avg), after s (map EvStdout lines) 0)
    /\ List.length lines = List.length (samples chunks).
Proof.
  induction chunks as [|l rest IH]; intros avg s.
  - exists []. now rewrite after_nothing.
  - simpl. unfold bind, sample_of.
    destruct (exec X265_REGEX l) as [result|] eqn:E.
    + rewrite (x265_progress_match _ _ _ _ _ E).
      match goal with
      | |- context [x265_listen frames rest ?w ?s1] =>
          destruct (IH w s1) as (lines & -> & L)
      end.
      eexists (_ :: lines). split; [|simpl; now rewrite L].
      unfold after. cbn [trace nrand map]. now rewrite <- app_assoc.
    + rewrite (x265_progress_no_match _ _ _ _ E).
      destruct (IH avg s) as (lines & -> & L). now exists lines.
Qed.

Lemma mkv_listen_writes (h : host) (chunks : list string) :
  forall s,
  exists lines,
    mkv_listen chunks s = (Done tt, after s (map EvStdout lines) 0)
    /\ (List.length lines <= List.length chunks)%nat.
Proof.
  induction chunks as [|l rest IH]; intros s.
  - exists []. now rewrite after_nothing.
  - simpl. unfold bind, mkv_progress.
    destruct (includes l "%" && _).
    + unfold emit.
      match goal with
      | |- context [mkv_listen rest ?s1] => destruct (IH s1) as (lines & -> & L)
      end.
      eexists (_ :: lines). split; [|simpl; lia].
      unfold after. cbn [trace nrand map]. now rewrite <- app_assoc.
    + unfold ret. destruct (IH s) as (lines & -> & L). exists lines. split; [reflexivity|].
      simpl. lia.
Qed.

(** X19: the encoder stage always resolves, with the exit code of the
    encoder; the exit code of the decoder that feeds it is never looked
    at.  It starts the decoder and then the encoder, prints one
    progress line for every chunk of the encoder's diagnostic stream
    that matches the progress pattern (none at all in verbose mode) and
    then the closing line; it removes nothing and reports nothing. *)
Theorem transcode_events (h : host) (ff x : list value) (frames : float) (v : bool)
    (s : state) :
  let r := proc h (trace s ++ [EvSpawn (FFMPEG h) ff])%list (X265 h) x in
  exists lines,
    transcode h ff x frames v s
    = (Done (exit_code r),
       after s ([EvSpawn (FFMPEG h) ff; EvSpawn (X265 h) x]
                ++ map EvStdout lines ++ [transcode_done]) 0)
    /\ List.length lines
       = if v then O else List.length (samples (stderr_chunks r)).
Proof.
  intros r. destruct s as [t n]. cbn [trace] in r. unfold transcode.
  cbv [bind spawn trace nrand]. fold r. destruct v.
  - exists []. split; [|reflexivity].
    cbv [ret emit after trace nrand transcode_done map]. cbn [app Nat.add].
    now rewrite <- !app_assoc.
  - match goal with
    | |- context [x265_listen frames ?c ?w ?s1] =>
        destruct (x265_listen_writes frames c w s1) as (lines & -> & L)
    end.
    exists lines. split; [|exact L].
    cbv [ret emit after trace nrand transcode_done]. cbn [app Nat.add].
    now rewrite <- !app_assoc.
Qed.

(** X20: the multiplexer stage goes by the exit code alone.  It starts
    one process; with exit code 0 it prints its closing line and
    resolves; with any other code it rejects with the trimmed
    diagnostic text, also when that text is empty.  It removes nothing
    either way, and in verbose mode it prints no progress. *)
Theorem mkvmerge_outcome (h : host) (p : paths) (t : track_tags)
    (auds : list track_tags) (v : bool) (s : state) :
  let r := proc h (trace s) (MKVMERGE h) (mkv_args p t auds) in
  exists lines,
    mkvmerge h p t auds v s
    = (if exit_is_zero (exit_code r) then Done tt else Raised (Message (diagnostic r)),
       after s ([EvSpawn (MKVMERGE h) (mkv_args p t auds)] ++ map EvStdout lines
                ++ (if exit_is_zero (exit_code r) then [merge_done] else [])) 0)
    /\ (v = true -> lines = [])
    /\ (List.length lines <= List.length (stdout_chunks r))%nat.
Proof.
  intros r. destruct s as [tr n]. cbn [trace] in r. unfold mkvmerge.
  cbv [bind spawn trace nrand]. fold r. destruct v.
  - exists []. split; [|split; [reflexivity|simpl; lia]].
    cbv [ret]. destruct (exit_is_zero (exit_code r));
      cbv [negb raise emit after trace nrand merge_done map diagnostic]; cbn [app Nat.add];
      now rewrite <- ?app_assoc, ?app_nil_r.
  - match goal with
    | |- context [mkv_listen ?c ?s1] =>
        destruct (mkv_listen_writes h c s1) as (lines & -> & L)
    end.
    exists lines. split; [|split; [discriminate|exact L]].
    destruct (exit_is_zero (exit_code r));
      cbv [negb raise emit after trace nrand merge_done diagnostic]; cbn [app Nat.add];
      now rewrite <- ?app_assoc, ?app_nil_r.
Qed.

(* ================================================================== *)
(** * A run from the probe to the clean-up *)
(* ================================================================== *)

Lemma removed_app (a b : list event) : removed (a ++ b) = (removed a ++ removed b)%list.
Proof.
  induction a as [|x a IH]; [reflexivity|].
  destruct x; simpl; now rewrite IH.
Qed.

Lemma quiet_effects (ev : list event) :
  quiet ev = true -> spawned ev = [] /\ removed ev = [] /\ reported ev = [].
Proof.
  induction ev as [|x ev IH]; [now repeat split|].
  unfold quiet. simpl. intros H. apply andb_true_iff in H as [X H].
  destruct x; try discriminate; simpl; now apply IH.
Qed.

Lemma quiet_stdout (lines : list string) : quiet (map EvStdout lines) = true.
Proof.
  induction lines as [|l r IH]; [reflexivity|exact IH].
Qed.

Lemma behaves_events {A} (m : M A) (s : state) (o : outcome A) (ev : list event)
    (n : nat) :
  m s = (o, after s ev n) -> behaves m s o (spawned ev) (removed ev) (reported ev).
Proof.
  intros H. exists ev, n. now repeat split.
Qed.

Lemma behaves_ret {A} (a : A) (s : state) : behaves (ret a) s (Done a) [] [] [].
Proof.
  apply (behaves_events (ret a) s (Done a) [] 0). unfold ret. now rewrite after_nothing.
Qed.

Lemma behaves_emit (e : event) (s : state) :
  behaves (emit e) s (Done tt) (spawned [e]) (removed [e]) (reported [e]).
Proof.
  now apply (behaves_events (emit e) s (Done tt) [e] 0).
Qed.

Lemma behaves_bind {A B} (m : M A) (k : A -> M B) (s : state) (a : A) (o : outcome B)
    sp rmv rep sp' rmv' rep' :
  behaves m s (Done a) sp rmv rep ->
  (forall s1, behaves (k a) s1 o sp' rmv' rep') ->
  behaves (bind m k) s o (sp ++ sp') (rmv ++ rmv') (rep ++ rep').
Proof.
  intros (ev & n & E & <- & <- & <-) K.
  destruct (K (after s ev n)) as (ev' & n' & E' & <- & <- & <-).
  exists (ev ++ ev')%list, (n' + n)%nat.
  unfold bind. rewrite E, E', after_after, spawned_app, removed_app, reported_app.
  now repeat split.
Qed.

Lemma behaves_raised {A B} (m : M A) (k : A -> M B) (s : state) (e : exn) sp rmv rep :
  behaves m s (Raised e) sp rmv rep -> behaves (bind m k) s (Raised e) sp rmv rep.
Proof.
  intros (ev & n & E & <- & <- & <-). exists ev, n.
  unfold bind. rewrite E. now repeat split.
Qed.

Lemma behaves_output_depth (opts : options) (fmt : pix_fmt_info) (s : state) :
  behaves (output_depth opts fmt) s (Done (policy_tokens (keepBit opts) (depth fmt)))
    [] [] [].
Proof.
  unfold output_depth, policy_tokens.
  destruct (keepBit opts), (String.eqb (depth fmt) "8") eqn:E;
    try apply behaves_ret;
    apply String.eqb_eq in E; rewrite ?E;
    match goal with
    | |- behaves (bind (log ?m) _) _ _ _ _ _ =>
        apply (behaves_events _ s _ [EvLog (log_line m)] 0)
    end; reflexivity.
Qed.

Lemma transcode_run (h : host) (ff x : list value) (frames : float) (v : bool)
    (s : state) :
  exists ev,
    transcode h ff x frames v s
    = (Done (exit_code (proc h (trace s ++ [EvSpawn (FFMPEG h) ff])%list (X265 h) x)),
       after s (EvSpawn (FFMPEG h) ff :: EvSpawn (X265 h) x :: ev) 0)
    /\ quiet ev = true.
Proof.
  unfold transcode. destruct s as [t n]. cbv [bind spawn trace nrand]. destruct v.
  - exists [transcode_done]. split; [|reflexivity].
    cbv [ret emit after trace nrand transcode_done]. cbn [Nat.add].
    now rewrite <- !app_assoc.
  - match goal with
    | |- context [x265_listen frames ?c ?w ?s1] =>
        destruct (x265_listen_writes frames c w s1) as (lines & -> & _)
    end.
    exists (map EvStdout lines ++ [transcode_done])%list. split.
    + cbv [ret emit after trace nrand transcode_done]. cbn [Nat.add].
      now rewrite <- !app_assoc.
    + unfold quiet. rewrite forallb_app. fold (quiet (map EvStdout lines)).
      now rewrite quiet_stdout.
Qed.

Lemma mkvmerge_run (h : host) (p : paths) (t : track_tags) (auds : list track_tags)
    (v : bool) (s : state) :
  let r := proc h (trace s) (MKVMERGE h) (mkv_args p t auds) in
  exists ev,
    mkvmerge h p t auds v s
    = (if exit_is_zero (exit_code r) then Done tt else Raised (Message (diagnostic r)),
       after s (EvSpawn (MKVMERGE h) (mkv_args p t auds) :: ev) 0)
    /\ quiet ev = true.
Proof.
  intros r. destruct s as [tr n]. cbn [trace] in r. unfold mkvmerge.
  cbv [bind spawn trace nrand]. fold r.
  assert (L : exists lines,
             (if v then ret tt else mkv_listen (stdout_chunks r))
               {| trace := tr ++ [EvSpawn (MKVMERGE h) (mkv_args p t auds)]; nrand := n |}
             = (Done tt, after {| trace := tr ++ [EvSpawn (MKVMERGE h) (mkv_args p t auds)];
                                  nrand := n |} (map EvStdout lines) 0)).
  { destruct v; [exists []; now rewrite after_nothing|].
    destruct (mkv_listen_writes h (stdout_chunks r)
                {| trace := tr ++ [EvSpawn (MKVMERGE h) (mkv_args p t auds)]; nrand := n |})
      as (lines & E & _).
    now exists lines. }
  destruct L as (lines & ->).
  exists (map EvStdout lines
          ++ (if exit_is_zero (exit_code r) then [merge_done] else []))%list.
  split.
  - destruct (exit_is_zero (exit_code r));
      cbv [negb raise emit after trace nrand merge_done diagnostic]; cbn [app Nat.add];
      now rewrite <- ?app_assoc, ?app_nil_r.
  - unfold quiet. rewrite forallb_app. fold (quiet (map EvStdout lines)).
    rewrite quiet_stdout. now destruct (exit_is_zero (exit_code r)).
Qed.

Lemma behaves_transcode (h : host) (ff x : list value) (frames : float) (v : bool)
    (rx : proc_result) (s : state) :
  steady h (X265 h) x rx ->
  behaves (transcode h ff x frames v) s (Done (exit_code rx))
    [(FFMPEG h, ff); (X265 h, x)] [] [].
Proof.
  intros X. destruct (transcode_run h ff x frames v s) as (ev & E & Q).
  rewrite X in E. exists (EvSpawn (FFMPEG h) ff :: EvSpawn (X265 h) x :: ev), 0%nat.
  split; [exact E|]. cbn [spawned removed reported].
  destruct (quiet_effects ev Q) as (-> & -> & ->). now repeat split.
Qed.

Lemma behaves_mkvmerge (h : host) (p : paths) (t : track_tags) (auds : list track_tags)
    (v : bool) (rm : proc_result) (s : state) :
  steady h (MKVMERGE h) (mkv_args p t auds) rm ->
  behaves (mkvmerge h p t auds v) s
    (if exit_is_zero (exit_code rm) then Done tt else Raised (Message (diagnostic rm)))
    [(MKVMERGE h, mkv_args p t auds)] [] [].
Proof.
  intros X. destruct (mkvmerge_run h p t auds v s) as (ev & E & Q).
  cbv zeta in E. rewrite !X in E.
  exists (EvSpawn (MKVMERGE h) (mkv_args p t auds) :: ev), 0%nat.
  split; [exact E|]. cbn [spawned removed reported].
  destruct (quiet_effects ev Q) as (-> & -> & ->). now repeat split.
Qed.

Lemma behaves_rm (h : host) (f : string) (s : state) :
  (forall t, rm_error h t f = None) -> behaves (rm h f) s (Done tt) [] [f] [].
Proof.
  intros R. apply (behaves_events _ s _ [EvRm f] 0). unfold rm. now rewrite R.
Qed.

Lemma behaves_try_done (m : M unit) (hd : exn -> M unit) (s : state) sp rmv rep :
  behaves m s (Done tt) sp rmv rep -> behaves (try_catch m hd) s (Done tt) sp rmv rep.
Proof.
  intros (ev & n & E & <- & <- & <-). exists ev, n.
  unfold try_catch. rewrite E. now repeat split.
Qed.

Lemma behaves_try_raised (m : M unit) (s : state) (e : exn) sp rmv rep :
  behaves m s (Raised e) sp rmv rep ->
  behaves (try_catch m (fun x => err x)) s (Done tt) sp rmv (rep ++ [e]).
Proof.
  intros (ev & n & E & <- & <- & <-). exists (ev ++ [EvErr e])%list, n.
  unfold try_catch. rewrite E.
  rewrite spawned_app, removed_app, reported_app, !app_nil_r.
  split; [|now repeat split].
  unfold err, emit, after. cbn [trace nrand]. now rewrite app_assoc.
Qed.

Lemma behaves_pre_hdr (h : host) (st : stream) (fr : frame) (p : paths) (v : bool)
    (s : state) :
  (forall k, found k (stream_side_data_list st) = false) ->
  (forall k, found k (frame_side_data_list fr) = false) ->
  behaves (pre_hdr h st fr p v) s (Done ([], p)) [] [] [].
Proof.
  intros S F. apply (behaves_events _ s _ [] 0).
  rewrite pre_hdr_scan. unfold promise_async. rewrite pre_hdr_loop.
  rewrite (hdr_blocks_idle h v _ _ s S), (hdr_blocks_idle h v _ _ s F).
  now rewrite after_nothing.
Qed.

Lemma behaves_post_hdr (h : host) (p : paths) (s : state) :
  given (dv p) = false -> given (plus p) = false ->
  behaves (post_hdr h p) s (Done (temp p)) [] [] [].
Proof.
  intros D P. apply (behaves_events _ s _ [] 0).
  rewrite post_hdr_idle, after_nothing; [reflexivity|now rewrite truthy_opt_value..].
Qed.

Lemma behaves_eq {A} (m : M A) (s : state) (o : outcome A) sp rmv rep sp' rmv' rep' :
  behaves m s o sp rmv rep -> sp = sp' -> rmv = rmv' -> rep = rep' ->
  behaves m s o sp' rmv' rep'.
Proof.
  now intros H <- <- <-.
Qed.

Lemma behaves_mkvmerge_ok (h : host) (p : paths) (t : track_tags)
    (auds : list track_tags) (v : bool) (rm : proc_result) (s : state) :
  steady h (MKVMERGE h) (mkv_args p t auds) rm ->
  exit_is_zero (exit_code rm) = true ->
  behaves (mkvmerge h p t auds v) s (Done tt) [(MKVMERGE h, mkv_args p t auds)] [] [].
Proof.
  intros X Z. generalize (behaves_mkvmerge h p t auds v rm s X). now rewrite Z.
Qed.

Lemma behaves_mkvmerge_failed (h : host) (p : paths) (t : track_tags)
    (auds : list track_tags) (v : bool) (rm : proc_result) (s : state) :
  steady h (MKVMERGE h) (mkv_args p t auds) rm ->
  exit_is_zero (exit_code rm) = false ->
  behaves (mkvmerge h p t auds v) s (Raised (Message (diagnostic rm)))
    [(MKVMERGE h, mkv_args p t auds)] [] [].
Proof.
  intros X Z. generalize (behaves_mkvmerge h p t auds v rm s X). now rewrite Z.
Qed.

Ltac step lem :=
  eapply behaves_bind; [lem|intros ?; cbv beta iota zeta].

Ltac settle :=
  idtac;
  lazymatch goal with
  | |- behaves (bind _ _) _ _ _ _ _ =>
      eapply behaves_bind; [settle|intros ?; cbv beta iota zeta; settle]
  | |- _ => first [apply behaves_ret | apply behaves_emit | apply behaves_output_depth]
  end.

Ltac stage :=
  idtac;
  lazymatch goal with
  | |- behaves (bind (pre_hdr _ _ _ _ _) _) _ _ _ _ _ =>
      step ltac:(apply behaves_pre_hdr; assumption)
  | |- behaves (bind (post_hdr _ _) _) _ _ _ _ _ =>
      step ltac:(apply behaves_post_hdr; assumption)
  | |- behaves (bind (transcode _ _ _ _ _) _) _ _ _ _ _ =>
      step ltac:(eapply behaves_transcode; eassumption)
  | |- behaves (bind (mkvmerge _ _ _ _ _) _) _ _ _ _ _ =>
      first [ step ltac:(eapply behaves_mkvmerge_ok; eassumption)
            | apply behaves_raised; eapply behaves_mkvmerge_failed; eassumption ]
  | |- behaves (bind (rm _ _) _) _ _ _ _ _ =>
      step ltac:(apply behaves_rm; assumption)
  | |- behaves (bind _ _) _ _ _ _ _ => step ltac:(settle)
  end.

Ltac chain wrapper Zx Au :=
  eapply behaves_eq;
  [ apply wrapper;
    cbv beta iota zeta; repeat stage;
    rewrite Zx; cbn [negb]; cbv iota;
    first [ apply behaves_emit
          | repeat stage;
            try (cbn [apaths set_temp audio_temp]; rewrite Au; apply behaves_ret) ]
  | cbn [app spawned removed reported andb]; reflexivity .. ].

Lemma main_sdr_behaviour (h : host) (opts : options) (d : probe_data) (ss : list stream)
    (st : stream) (fr : frame) (fs : list frame) (fmt : pix_fmt_info) (fps dur : float)
    (rx rm : proc_result) (p : paths) (s : state) :
  truthy (_e d) = false ->
  streams d = Some ss -> List.find is_video ss = Some st -> frames d = Some (fr :: fs) ->
  parse_pix_fmt_v (pix_fmt st) = Ret fmt ->
  (forall k, found k (stream_side_data_list st) = false) ->
  (forall k, found k (frame_side_data_list fr) = false) ->
  parse_slash_number_v (r_frame_rate st) = Ret fps ->
  get_duration (Date_parse h) st (probe_format d) = Ret dur ->
  given (time opts) && isNaN (Number (text (time opts))) = false -> opus opts = false ->
  given (dv p) = false -> given (plus p) = false -> audio_temp p = [] ->
  let ff := ff_args opts st p in
  let x := x265_args h opts st (policy_tokens (keepBit opts) (depth fmt)) [] (temp p) in
  let m := mkv_args p (tags_of st) [] in
  steady h (X265 h) x rx -> steady h (MKVMERGE h) m rm ->
  (forall t, rm_error h t (temp p) = None) ->
  behaves (try_catch (content_checks h opts d p) (fun e => err e)) s (Done tt)
    ([(FFMPEG h, ff); (X265 h, x)]
     ++ (if exit_is_zero (exit_code rx) then [(MKVMERGE h, m)] else []))
    (if exit_is_zero (exit_code rx) && exit_is_zero (exit_code rm) then [temp p] else [])
    (run_report rx rm).
Proof.
  intros E S V F P NS NF R G T O Dv Pl Au ff x m X Mk Rm.
  unfold content_checks. rewrite E, S.
  destruct ss as [|x0 ss]; [discriminate|]. cbn [List.length Nat.ltb Nat.leb].
  unfold is_video in V. rewrite V, F, O. cbn [andb].
  unfold encode. rewrite P, R, G, T. cbn [andb].
  unfold run_report, finish. rewrite O.
  destruct (verbose opts), (interlaced st);
  (destruct (exit_is_zero (exit_code rx)) eqn:Zx;
   [destruct (exit_is_zero (exit_code rm)) eqn:Zm;
    [chain behaves_try_done Zx Au|chain behaves_try_raised Zx Au]
   |chain behaves_try_done Zx Au]).
Qed.

(** X21: a whole run on a file without HDR side data and without
    opus, with no time limit or a numeric one, once the probe has
    succeeded and the pixel format, the frame rate and the duration
    have been read.  Whatever
    the verbosity, the bit-depth policy and the field order:
    the processes started after the probe are the decoder and the
    encoder, and the multiplexer exactly when the encoder exited with
    code 0; the transcoded artifact is removed exactly when both the
    encoder and the multiplexer exited with code 0, so that it is left
    behind when the multiplexer fails; nothing else is ever removed;
    and what is reported is nothing on success, the encoder's exit code
    when the encoder failed, the multiplexer's diagnostic when the
    multiplexer failed. *)
Theorem main_plain_run (h : host) (arg0 : string) (arg1 : option string)
    (opts : options) (s : state) (d : probe_data) (ss : list stream) (st : stream)
    (fr : frame) (fs : list frame) (fmt : pix_fmt_info) (fps dur : float)
    (rx rm : proc_result) :
  probe_yields h arg0 arg1 opts s d ->
  truthy (_e d) = false ->
  streams d = Some ss -> List.find is_video ss = Some st -> frames d = Some (fr :: fs) ->
  parse_pix_fmt_v (pix_fmt st) = Ret fmt ->
  (forall k, found k (stream_side_data_list st) = false) ->
  (forall k, found k (frame_side_data_list fr) = false) ->
  parse_slash_number_v (r_frame_rate st) = Ret fps ->
  get_duration (Date_parse h) st (probe_format d) = Ret dur ->
  given (time opts) && isNaN (Number (text (time opts))) = false -> opus opts = false ->
  let p := job_record h arg0 arg1 s in
  let ff := ff_args opts st p in
  let x := x265_args h opts st (policy_tokens (keepBit opts) (depth fmt)) [] (temp p) in
  let m := mkv_args p (tags_of st) [] in
  steady h (X265 h) x rx -> steady h (MKVMERGE h) m rm ->
  (forall t, rm_error h t (temp p) = None) ->
  let final := trace (snd (main h arg0 arg1 opts s)) in
  fst (main h arg0 arg1 opts s) = Done tt
  /\ spawned final
     = (spawned (trace s)
        ++ [(FFPROBE h, probe_args h arg0); (FFMPEG h, ff); (X265 h, x)]
        ++ (if exit_is_zero (exit_code rx) then [(MKVMERGE h, m)] else []))%list
  /\ removed final
     = (removed (trace s)
        ++ (if exit_is_zero (exit_code rx) && exit_is_zero (exit_code rm)
            then [temp p] else []))%list
  /\ reported final = (reported (trace s) ++ run_report rx rm)%list.
Proof.
  intros Y E S V F P NS NF R G T O p ff x m X Mk Rm final. subst final.
  rewrite (main_after_probe h arg0 arg1 opts s d Y). fold p.
  destruct (main_sdr_behaviour h opts d ss st fr fs fmt fps dur rx rm p
              (probed h arg0 arg1 opts s) E S V F P NS NF R G T O
              eq_refl eq_refl eq_refl X Mk Rm) as (ev & n & -> & Sp & Rv & Rp).
  cbn [fst snd]. unfold probed. rewrite after_after. unfold after. cbn [trace].
  rewrite !spawned_app, !removed_app, !reported_app, Sp, Rv, Rp.
  destruct (quiet_effects (prelude h arg0 arg1 opts)) as (-> & -> & ->).
  { unfold prelude. destruct (verbose opts); reflexivity. }
  cbn [spawned removed reported app]. now repeat split.
Qed.

Lemma main_plain_run_witness :
  let h := host_with_probe (probe_of "yuv420p") in
  let p := job_record h "in.mkv" None start in
  let st := hd (bare_stream VUndefined None)
               (match streams (probe_of "yuv420p") with Some l => l | None => [] end) in
  let final := trace (snd (main h "in.mkv" None default_options start)) in
  fst (main h "in.mkv" None default_options start) = Done tt
  /\ spawned final
     = (spawned (trace start)
        ++ [(FFPROBE h, probe_args h "in.mkv");
            (FFMPEG h, ff_args default_options st p);
            (X265 h, x265_args h default_options st
                       (policy_tokens (keepBit default_options) "8") [] (temp p))]
        ++ (if exit_is_zero (exit_code (exits 0 []))
            then [(MKVMERGE h, mkv_args p (tags_of st) [])] else []))%list
  /\ removed final
     = (removed (trace start)
        ++ (if exit_is_zero (exit_code (exits 0 [])) && exit_is_zero (exit_code (exits 0 []))
            then [temp p] else []))%list
  /\ reported final = (reported (trace start) ++ run_report (exits 0 []) (exits 0 []))%list.
Proof.
  apply (main_plain_run (host_with_probe (probe_of "yuv420p")) "in.mkv" None
           default_options start (probe_of "yuv420p")
           (match streams (probe_of "yuv420p") with Some l => l | None => [] end)
           (hd (bare_stream VUndefined None)
               (match streams (probe_of "yuv420p") with Some l => l | None => [] end))
           plain_frame []
           {| csp := "i420"; depth := "8" |} 24 10 (exits 0 []) (exits 0 [])).
  - split; reflexivity.
  - reflexivity.
  - reflexivity.
  - reflexivity.
  - reflexivity.
  - reflexivity.
  - intros []; reflexivity.
  - intros []; reflexivity.
  - vm_compute; reflexivity.
  - vm_compute; reflexivity.
  - reflexivity.
  - reflexivity.
  - intros t; reflexivity.
  - intros t; reflexivity.
  - intros t; reflexivity.
Defined.

(** X22: a time limit that is not a number is found out late but
    before anything is encoded.  On a file without HDR side data the
    run reports "Invalid time format" and ends with the probe as the
    only process started and nothing removed. *)
Theorem main_invalid_time (h : host) (arg0 : string) (arg1 : option string)
    (opts : options) (s : state) (d : probe_data) (ss : list stream) (st : stream)
    (fr : frame) (fs : list frame) (fmt : pix_fmt_info) (fps : float) :
  probe_yields h arg0 arg1 opts s d ->
  truthy (_e d) = false ->
  streams d = Some ss -> List.find is_video ss = Some st -> frames d = Some (fr :: fs) ->
  parse_pix_fmt_v (pix_fmt st) = Ret fmt ->
  (forall k, found k (stream_side_data_list st) = false) ->
  (forall k, found k (frame_side_data_list fr) = false) ->
  parse_slash_number_v (r_frame_rate st) = Ret fps ->
  given (time opts) = true -> isNaN (Number (text (time opts))) = true ->
  opus opts = false ->
  let final := trace (snd (main h arg0 arg1 opts s)) in
  fst (main h arg0 arg1 opts s) = Done tt
  /\ spawned final = (spawned (trace s) ++ [(FFPROBE h, probe_args h arg0)])%list
  /\ removed final = removed (trace s)
  /\ reported final = (reported (trace s) ++ [Message "Invalid time format"])%list.
Proof.
  intros Y E S V F P NS NF R T N O final. subst final.
  rewrite (main_after_probe h arg0 arg1 opts s d Y).
  assert (B : behaves (try_catch (content_checks h opts d (job_record h arg0 arg1 s))
                         (fun e => err e))
                (probed h arg0 arg1 opts s) (Done tt) [] []
                [Message "Invalid time format"]).
  { unfold content_checks. rewrite E, S.
    destruct ss as [|x0 ss]; [discriminate|]. cbn [List.length Nat.ltb Nat.leb].
    unfold is_video in V. rewrite V, F, O. cbn [andb].
    unfold encode. rewrite P, R, T, N. cbn [andb].
    destruct (verbose opts), (interlaced st);
      (eapply behaves_eq;
       [ apply behaves_try_done; cbv beta iota zeta; repeat stage; apply behaves_emit
       | cbn [app spawned removed reported]; reflexivity .. ]). }
  destruct B as (ev & n & -> & Sp & Rv & Rp).
  cbn [fst snd]. unfold probed. rewrite after_after. unfold after. cbn [trace].
  rewrite !spawned_app, !removed_app, !reported_app, Sp, Rv, Rp.
  destruct (quiet_effects (prelude h arg0 arg1 opts)) as (-> & -> & ->).
  { unfold prelude. destruct (verbose opts); reflexivity. }
  cbn [spawned removed reported app]. rewrite !app_nil_r. now repeat split.
Qed.

Lemma main_invalid_time_witness :
  let h := host_with_probe (probe_of "yuv420p") in
  let opts := with_time default_options "soon" in
  let final := trace (snd (main h "in.mkv" None opts start)) in
  fst (main h "in.mkv" None opts start) = Done tt
  /\ spawned final = (spawned (trace start) ++ [(FFPROBE h, probe_args h "in.mkv")])%list
  /\ removed final = removed (trace start)
  /\ reported final = (reported (trace start) ++ [Message "Invalid time format"])%list.
Proof.
  apply (main_invalid_time (host_with_probe (probe_of "yuv420p")) "in.mkv" None
           (with_time default_options "soon") start (probe_of "yuv420p")
           (match streams (probe_of "yuv420p") with Some l => l | None => [] end)
           (hd (bare_stream VUndefined None)
               (match streams (probe_of "yuv420p") with Some l => l | None => [] end))
           plain_frame []
           {| csp := "i420"; depth := "8" |} 24).
  - split; reflexivity.
  - reflexivity.
  - reflexivity.
  - reflexivity.
  - reflexivity.
  - reflexivity.
  - intros []; reflexivity.
  - intros []; reflexivity.
  - vm_compute; reflexivity.
  - reflexivity.
  - vm_compute; reflexivity.
  - reflexivity.
Defined.

(* ================================================================== *)
(** * The audio loop *)
(* ================================================================== *)

Lemma opus_lines_writes (h : host) (len : float) (lines : list string) :
  forall s,
  exists out,
    opus_lines len lines s = (Done tt, after s (map EvStdout out) 0).
Proof.
  induction lines as [|l rest IH]; intros s.
  - exists []. now rewrite after_nothing.
  - simpl. destruct (String.length (trim l) =? 0)%nat.
    + exists []. now rewrite after_nothing.
    + destruct (exec FFMPEG_REGEX _) as [result|].
      * unfold bind, emit.
        match goal with
        | |- context [opus_lines len rest ?s1] => destruct (IH s1) as (out & ->)
        end.
        eexists (_ :: out). unfold after. cbn [trace nrand map].
        now rewrite <- app_assoc.
      * exists []. now rewrite after_nothing.
Qed.

Lemma opus_listen_writes (h : host) (len : float) (chunks : list string) :
  forall s,
  exists out,
    opus_listen len chunks s = (Done tt, after s (map EvStdout out) 0).
Proof.
  induction chunks as [|c rest IH]; intros s.
  - exists []. now rewrite after_nothing.
  - simpl. unfold bind.
    destruct (opus_lines_writes h len (split "010" (remove_char "013" c)) s) as (o1 & ->).
    destruct (IH (after s (map EvStdout o1) 0)) as (o2 & ->).
    exists (o1 ++ o2)%list. now rewrite after_after, map_app.
Qed.

Lemma opus_transcode_run (h : host) (args : list value) (len : float) (v : bool)
    (s : state) :
  exists ev,
    opus_transcode h args len v s
    = (Done (exit_code (proc h (trace s) (FFMPEG h) args)),
       after s (EvSpawn (FFMPEG h) args :: ev) 0)
    /\ quiet ev = true.
Proof.
  unfold opus_transcode. destruct s as [t n]. cbv [bind spawn trace nrand].
  destruct v.
  - exists [EvLog (LF ++ LOG_PREFIX ++ " Done audio transcoding")]. split; [|reflexivity].
    cbv [ret emit after trace nrand]. cbn [Nat.add]. now rewrite <- !app_assoc.
  - match goal with
    | |- context [opus_listen len ?c ?s1] =>
        destruct (opus_listen_writes h len c s1) as (out & ->)
    end.
    exists (map EvStdout out ++ [EvLog (LF ++ LOG_PREFIX ++ " Done audio transcoding")])%list.
    split.
    + cbv [ret emit after trace nrand]. cbn [Nat.add]. now rewrite <- !app_assoc.
    + unfold quiet. rewrite forallb_app. fold (quiet (map EvStdout out)).
      now rewrite quiet_stdout.
Qed.

Lemma nth_error_last {A} (l : list A) (x : A) :
  nth_error (l ++ [x]) (List.length l) = Some x.
Proof.
  induction l as [|y l IH]; [reflexivity|exact IH].
Qed.

(** One turn of the audio loop that ran to its end. *)
Lemma opus_body_run (h : host) (opts : options) (fmt : option format) (x : stream)
    (st : audio_state) (s : state) (r : unit + audio_state) (s1 : state) :
  opus_body h opts fmt x st s = (Done r, s1) ->
  aud_i st = List.length (audio_temp (apaths st)) ->
  let name := next_temp h s ".opus" in
  spawned (trace s1)
  = (spawned (trace s) ++ [opus_call h opts (input (apaths st)) x name])%list
  /\ removed (trace s1) = removed (trace s)
  /\ (r = inl tt
      \/ r = inr {| apaths := push_audio_temp (apaths st) name;
                    aud_tags := (aud_tags st ++ [tags_of x])%list;
                    aud_i := S (aud_i st) |}).
Proof.
  intros H I name. unfold opus_body in H. destruct s as [t n].
  cbv zeta in H. unfold audio_temp_at in H. cbn [push_audio_temp audio_temp input] in H.
  rewrite I in H. rewrite I.
  cbv [bind emit generate_temp_name trace nrand] in H.
  rewrite nth_error_last in H.
  fold (next_temp h {| trace := t; nrand := n |} ".opus") in H. fold name in H.
  destruct (get_duration _ x fmt) as [dur|e]; [|discriminate].
  cbv [lift ret] in H.
  match type of H with
  | context [opus_transcode h ?a ?l ?v ?s0] =>
      destruct (opus_transcode_run h a l v s0) as (ev & E & Q); rewrite E in H
  end.
  destruct (quiet_effects ev Q) as (Qs & Qr & _).
  destruct (negb (exit_is_zero _)); cbv [err emit after trace nrand] in H;
    injection H as <- <-; cbn [trace];
    rewrite ?spawned_app, ?removed_app; cbn [spawned removed];
    rewrite ?spawned_app, ?removed_app, ?Qs, ?Qr; cbn [spawned removed app];
    rewrite ?app_nil_r; (split; [reflexivity|split; [reflexivity|]]);
    [left|right]; reflexivity.
Qed.

Lemma opus_loop_run (h : host) (opts : options) (fmt : option format)
    (auds : list stream) :
  forall st s a s',
  aud_i st = List.length (audio_temp (apaths st)) ->
  for_each auds st (opus_body h opts fmt) s = (Done (inr a), s') ->
  exists names,
    List.length names = List.length auds
    /\ audio_temp (apaths a) = (audio_temp (apaths st) ++ names)%list
    /\ aud_tags a = (aud_tags st ++ map tags_of auds)%list
    /\ spawned (trace s')
       = (spawned (trace s) ++ opus_calls h opts (input (apaths st)) auds names)%list
    /\ removed (trace s') = removed (trace s)
    /\ input (apaths a) = input (apaths st) /\ output (apaths a) = output (apaths st)
    /\ temp (apaths a) = temp (apaths st)
    /\ dv (apaths a) = dv (apaths st) /\ plus (apaths a) = plus (apaths st).
Proof.
  induction auds as [|x rest IH]; intros st s a s' I H.
  - injection H as <- <-. exists []. now rewrite !app_nil_r.
  - cbn [for_each] in H. unfold bind in H.
    destruct (opus_body h opts fmt x st s) as [[r| |] s1] eqn:B; try discriminate.
    destruct (opus_body_run h opts fmt x st s r s1 B I) as (Sp & Rv & [->| ->]);
      [discriminate|].
    apply IH in H; [|cbn [aud_i apaths push_audio_temp audio_temp];
                     rewrite length_app, I; simpl; lia].
    destruct H as (names & L & A & T & Sp' & Rv' & In & Out & Tm & Dv & Pl).
    cbn [apaths aud_tags push_audio_temp audio_temp input output temp dv plus] in *.
    exists (next_temp h s ".opus" :: names).
    rewrite A, T, Sp', Rv', Sp, Rv, In, Out, Tm, Dv, Pl, <- !app_assoc.
    cbn [List.length opus_calls combine map app fst snd]. rewrite L.
    now repeat split.
Qed.

(** X23: the audio loop, when it runs to its end.  Every audio stream
    is transcoded by one decoder process, in stream order, each into a
    temporary file of its own; the list of tag sets and the list of
    audio files grow in step, so that the multiplexer pairs the i-th
    tag set with the file made from the i-th audio stream; nothing is
    removed and the other paths are left alone. *)
Theorem opus_loop_pairs (h : host) (opts : options) (fmt : option format)
    (auds : list stream) (p : paths) (s : state) (a : audio_state) (s' : state) :
  audio_temp p = [] ->
  for_each auds (audio_start p) (opus_body h opts fmt) s = (Done (inr a), s') ->
  aud_tags a = map tags_of auds
  /\ List.length (audio_temp (apaths a)) = List.length auds
  /\ spawned (trace s')
     = (spawned (trace s) ++ opus_calls h opts (input p) auds (audio_temp (apaths a)))%list
  /\ removed (trace s') = removed (trace s)
  /\ input (apaths a) = input p /\ output (apaths a) = output p
  /\ temp (apaths a) = temp p /\ dv (apaths a) = dv p /\ plus (apaths a) = plus p.
Proof.
  intros A H. apply opus_loop_run in H; [|cbn [audio_start aud_i apaths]; now rewrite A].
  destruct H as (names & L & An & T & Sp & Rv & In & Out & Tm & Dv & Pl).
  cbn [audio_start apaths aud_tags app] in *. rewrite A in An. cbn [app] in An.
  rewrite An, L. now repeat split.
Qed.

Lemma opus_loop_pairs_witness :
  let a := loop_state two_tracks_run in
  aud_tags a = map tags_of two_tracks
  /\ List.length (audio_temp (apaths a)) = List.length two_tracks
  /\ spawned (trace (snd two_tracks_run))
     = (spawned (trace start)
        ++ opus_calls quiet_host default_options (input (job_paths None None))
             two_tracks (audio_temp (apaths a)))%list
  /\ removed (trace (snd two_tracks_run)) = removed (trace start)
  /\ input (apaths a) = input (job_paths None None)
  /\ output (apaths a) = output (job_paths None None)
  /\ temp (apaths a) = temp (job_paths None None)
  /\ dv (apaths a) = dv (job_paths None None)
  /\ plus (apaths a) = plus (job_paths None None).
Proof.
  apply (opus_loop_pairs quiet_host default_options None two_tracks
           (job_paths None None) start (loop_state two_tracks_run)
           (snd two_tracks_run)).
  - reflexivity.
  - vm_compute. reflexivity.
Defined.

(** X24: an audio transcode that exits with a non-zero code ends the
    run on the spot.  With no sidecar to inject, the stage after the
    encoder starts the decoder of the first audio stream and nothing
    else: the multiplexer is never started, the failure is reported
    with the exit code, and nothing is removed, so the transcoded
    video and the audio file in the making stay behind. *)
Theorem finish_audio_failure (h : host) (opts : options) (d : probe_data) (st x : stream)
    (rest : list stream) (p : paths) (s : state) (dur : float) (rf : proc_result) :
  opus opts = true ->
  given (dv p) = false -> given (plus p) = false -> audio_temp p = [] ->
  get_duration (Date_parse h) x (probe_format d) = Ret dur ->
  let call := opus_call h opts (input p) x (next_temp h s ".opus") in
  steady h (fst call) (snd call) rf ->
  exit_is_zero (exit_code rf) = false ->
  let r := finish h opts d st (x :: rest) p s in
  fst r = Done tt
  /\ spawned (trace (snd r)) = (spawned (trace s) ++ [call])%list
  /\ removed (trace (snd r)) = removed (trace s)
  /\ reported (trace (snd r))
     = (reported (trace s)
        ++ [Message ("Opus transcode failed: " ++ to_string (exit_value (exit_code rf)))])%list.
Proof.
  intros O Dv Pl Au G call X Z r. subst r. unfold finish. rewrite O.
  destruct s as [t n]. cbv [bind log emit trace nrand].
  rewrite post_hdr_idle by (now rewrite truthy_opt_value).
  cbn [for_each]. unfold bind, opus_body. cbv zeta.
  unfold audio_temp_at. cbn [aud_i apaths aud_tags set_temp push_audio_temp audio_temp input].
  rewrite Au. cbn [app nth_error].
  cbv [bind emit generate_temp_name trace nrand]. rewrite G. cbv [lift ret].
  match goal with
  | |- context [opus_transcode h ?a ?l ?v ?s0] =>
      destruct (opus_transcode_run h a l v s0) as (ev & E & Q); rewrite E
  end.
  destruct (quiet_effects ev Q) as (Qs & Qr & Qp).
  cbn [trace]. unfold call, opus_call, next_temp in X. cbn [fst snd nrand] in X.
  cbn [strs map app] in *. rewrite X, Z. cbn [negb].
  cbv [err emit after trace nrand fst snd].
  unfold call, opus_call, next_temp. cbn [nrand strs map].
  rewrite !spawned_app, !removed_app, !reported_app.
  cbn [spawned removed reported]. rewrite Qs, Qr, Qp, !app_nil_r.
  now repeat split.
Qed.

Lemma finish_audio_failure_witness :
  let h := scripted_host None "ffmpeg" (exits 1 []) (fun _ => false) in
  let x := audio_stream 1 None in
  let call := opus_call h default_options_opus (input (job_paths None None)) x
                (next_temp h start ".opus") in
  let r := finish h default_options_opus (probe_with [x] []) (bare_stream VUndefined None)
             (x :: []) (job_paths None None) start in
  fst r = Done tt
  /\ spawned (trace (snd r)) = (spawned (trace start) ++ [call])%list
  /\ removed (trace (snd r)) = removed (trace start)
  /\ reported (trace (snd r))
     = (reported (trace start)
        ++ [Message ("Opus transcode failed: "
                     ++ to_string (exit_value (exit_code (exits 1 []))))])%list.
Proof.
  apply (finish_audio_failure (scripted_host None "ffmpeg" (exits 1 []) (fun _ => false))
           default_options_opus (probe_with [audio_stream 1 None] [])
           (bare_stream VUndefined None) (audio_stream 1 None) []
           (job_paths None None) start 10 (exits 1 [])).
  - reflexivity.
  - reflexivity.
  - reflexivity.
  - reflexivity.
  - vm_compute. reflexivity.
  - intros t. reflexivity.
  - reflexivity.
Defined.

(** X25: the listener of the audio encoder reads a chunk line by line
    and leaves at the first line that is blank or does not match the
    progress pattern: whatever follows that line in the chunk, progress
    lines included, is never looked at. *)
Theorem opus_lines_stop (len : float) (before : list string) (l : string)
    (rest : list string) (s : state) :
  (String.length (trim l) =? 0)%nat = true
  \/ exec FFMPEG_REGEX (remove_char " " l) = None ->
  opus_lines len (before ++ l :: rest) s = opus_lines len before s.
Proof.
  intros H. revert s. induction before as [|b before IH]; intros s.
  - cbn [app opus_lines]. destruct H as [H|H]; rewrite H; [reflexivity|].
    destruct (String.length (trim l) =? 0)%nat; reflexivity.
  - cbn [app opus_lines].
    destruct (String.length (trim b) =? 0)%nat; [reflexivity|].
    destruct (exec FFMPEG_REGEX (remove_char " " b)); [|reflexivity].
    unfold bind. destruct (emit _ s) as [[[]| |] s1]; [apply IH|reflexivity..].
Qed.

Lemma opus_lines_stop_witness :
  opus_lines 10
    (["size=1kBtime=00:00:01.00bitrate=1.0kbits/sspeed=2x"] ++ EmptyString
       :: ["size=2kBtime=00:00:02.00bitrate=1.0kbits/sspeed=2x"]) start
  = opus_lines 10 ["size=1kBtime=00:00:01.00bitrate=1.0kbits/sspeed=2x"] start.
Proof.
  apply (opus_lines_stop 10 ["size=1kBtime=00:00:01.00bitrate=1.0kbits/sspeed=2x"]
           EmptyString ["size=2kBtime=00:00:02.00bitrate=1.0kbits/sspeed=2x"] start).
  left. reflexivity.
Defined.

(* ================================================================== *)
(** * The progress pattern of the encoder *)
(* ================================================================== *)

Lemma str_app_assoc (a b c : string) : (a ++ b) ++ c = a ++ (b ++ c).
Proof.
  induction a as [|x a IH]; simpl; [reflexivity|now rewrite IH].
Qed.

Lemma str_length_app (a b : string) :
  String.length (a ++ b) = (String.length a + String.length b)%nat.
Proof.
  induction a as [|x a IH]; simpl; [reflexivity|now rewrite IH].
Qed.

Lemma substring_prefix (m r : string) :
  substring 0 (String.length (m ++ r) - String.length r) (m ++ r) = m.
Proof.
  rewrite str_length_app, Nat.add_sub.
  induction m as [|x m IH]; simpl.
  - destruct r; reflexivity.
  - now rewrite IH.
Qed.

Lemma star_class (m : matcher) (ds : string) :
  (forall y t c k, m (String y t) c k = if is_digit y then k t c else None) ->
  (forall c k, m EmptyString c k = None) ->
  forall fuel rest c k r,
  (String.length ds <= fuel)%nat -> all_chars is_digit ds = true -> stops rest = true ->
  k rest c = Some r ->
  star m fuel (ds ++ rest) c k = Some r.
Proof.
  intros M M0. induction ds as [|d ds IH]; intros fuel rest c k r L D St K.
  - cbn [append]. destruct fuel as [|f]; [exact K|]. cbn [star].
    destruct rest as [|y t]; [now rewrite M0|]. simpl in St. rewrite M.
    destruct (is_digit y); [discriminate|exact K].
  - destruct fuel as [|f]; [simpl in L; lia|].
    simpl in D. apply andb_true_iff in D as [D1 D2].
    cbn [append star]. rewrite M, D1.
    assert (T : (String.length (ds ++ rest) <? String.length (String d (ds ++ rest)))%nat
                = true) by (apply Nat.ltb_lt; simpl; lia).
    rewrite T. rewrite (IH f rest c k r); [reflexivity| |assumption..].
    simpl in L. lia.
Qed.

Lemma star_digits (ds : string) (fuel : nat) (rest : string) (c : captures)
    (k : string -> captures -> option captures) (r : captures) :
  (String.length ds <= fuel)%nat -> all_chars is_digit ds = true -> stops rest = true ->
  k rest c = Some r ->
  star (run digit) fuel (ds ++ rest) c k = Some r.
Proof.
  apply star_class; reflexivity.
Qed.

Lemma some_digits (ds rest : string) (c : captures)
    (k : string -> captures -> option captures) (r : captures) :
  numeral ds = true -> stops rest = true -> k rest c = Some r ->
  run (some digit) (ds ++ rest) c k = Some r.
Proof.
  unfold numeral. intros N St K. apply andb_true_iff in N as [N D].
  destruct ds as [|d ds]; [discriminate|].
  simpl in D. apply andb_true_iff in D as [D1 D2].
  change (run (some digit) (String d ds ++ rest) c k)
    with (if is_digit d
          then star (run digit) (S (String.length (ds ++ rest))) (ds ++ rest) c k
          else None).
  rewrite D1. apply star_digits; try assumption.
  rewrite str_length_app. lia.
Qed.

Lemma lit_prefix (w rest : string) (c : captures)
    (k : string -> captures -> option captures) :
  str_nonempty w = true -> run (lit w) (w ++ rest) c k = k rest c.
Proof.
  revert c k. induction w as [|x w IH]; intros c k N; [discriminate|].
  destruct w as [|y w].
  - simpl. now rewrite Ascii.eqb_refl.
  - change (run (lit (String x (String y w))) (String x (String y w) ++ rest) c k)
      with (if Ascii.eqb x x then run (lit (String y w)) (String y w ++ rest) c k
            else None).
    rewrite Ascii.eqb_refl. now apply IH.
Qed.

Lemma digits_group (n : nat) (ds rest : string) (c : captures)
    (k : string -> captures -> option captures) (r : captures) :
  numeral ds = true -> stops rest = true ->
  k rest ((n, ds) :: c) = Some r ->
  run (Group n (some digit)) (ds ++ rest) c k = Some r.
Proof.
  intros N St K.
  change (run (Group n (some digit)) (ds ++ rest) c k)
    with (run (some digit) (ds ++ rest) c
            (fun s' c' =>
               k s' ((n, substring 0 (String.length (ds ++ rest) - String.length s')
                           (ds ++ rest)) :: c'))).
  apply some_digits; try assumption. now rewrite substring_prefix.
Qed.

Lemma decimal_group (n : nat) (a b rest : string) (c : captures)
    (k : string -> captures -> option captures) (r : captures) :
  numeral a = true -> numeral b = true -> stops rest = true ->
  k rest ((n, a ++ "." ++ b) :: c) = Some r ->
  run (Group n (seqs [some digit; Chr "."; some digit])) (a ++ "." ++ b ++ rest) c k
  = Some r.
Proof.
  intros A B St K.
  set (s := a ++ "." ++ b ++ rest).
  change (run (Group n (seqs [some digit; Chr "."; some digit])) s c k)
    with (run (some digit) s c
            (fun s1 c1 =>
               run (Chr ".") s1 c1
                 (fun s2 c2 =>
                    run (some digit) s2 c2
                      (fun s' c' =>
                         k s' ((n, substring 0 (String.length s - String.length s') s)
                               :: c'))))).
  unfold s at 1. apply some_digits; [assumption|reflexivity|].
  change (run (Chr ".") ("." ++ b ++ rest) c ?k0) with (k0 (b ++ rest) c).
  cbv beta. apply some_digits; try assumption.
  unfold s.
  replace (a ++ "." ++ b ++ rest) with ((a ++ "." ++ b) ++ rest)
    by (now rewrite !str_app_assoc).
  now rewrite substring_prefix.
Qed.

Lemma exec_here (r : regex) (s : string) (caps : captures) :
  run r s [] (fun _ c => Some c) = Some caps -> exec r s = Some caps.
Proof.
  intros H. destruct s; simpl; now rewrite H.
Qed.

Lemma exec_skip (pre s : string) :
  digitless pre = true -> exec X265_REGEX (pre ++ s) = exec X265_REGEX s.
Proof.
  induction pre as [|y pre IH]; [reflexivity|].
  unfold digitless. simpl all_chars. intros H. apply andb_true_iff in H as [Y H].
  cbn [append exec].
  replace (run X265_REGEX (String y (pre ++ s)) [] (fun _ c => Some c)) with (@None captures).
  - now apply IH.
  - symmetry.
    change (run X265_REGEX (String y (pre ++ s)) [] (fun _ c => Some c))
      with (if is_digit y
            then star (run digit) (S (String.length (pre ++ s))) (pre ++ s) []
                   (fun s' c' =>
                      run (seqs [lit " frames: ";
                                 Group 2 (seqs [some digit; Chr "."; some digit]);
                                 lit " fps, ";
                                 Group 3 (seqs [some digit; Chr "."; some digit]);
                                 lit " kb/s"]) s'
                        ((1%nat, substring 0 (String.length (String y (pre ++ s))
                                              - String.length s')
                                   (String y (pre ++ s))) :: c')
                        (fun _ c => Some c))
            else None).
    now destruct (is_digit y).
Qed.

(** X26: the progress pattern on a line of the encoder.  A chunk made
    of a prefix without digits, a frame count, " frames: ", a rate and
    a bit rate with decimals, " fps, " and " kb/s" in their places, and
    anything after that, matches; the groups are the frame count, the
    rate and the bit rate as written, and the rate fed to the
    rolling average is the number the rate denotes. *)
Theorem x265_line_parsed (pre f a b c d tail : string) :
  digitless pre = true ->
  numeral f = true -> numeral a = true -> numeral b = true ->
  numeral c = true -> numeral d = true ->
  let l := pre ++ x265_line f a b c d ++ tail in
  exec X265_REGEX l = Some [(3%nat, c ++ "." ++ d); (2%nat, a ++ "." ++ b); (1%nat, f)]
  /\ sample_of l = Some (Number (a ++ "." ++ b)).
Proof.
  intros Pre F A B C D l.
  assert (E : exec X265_REGEX l
              = Some [(3%nat, c ++ "." ++ d); (2%nat, a ++ "." ++ b); (1%nat, f)]).
  { unfold l. rewrite (exec_skip _ _ Pre). apply exec_here.
    unfold x265_line. rewrite !str_app_assoc.
    change (run X265_REGEX ?s [] ?k)
      with (run (Group 1 (some digit)) s []
              (fun s1 c1 =>
                 run (lit " frames: ") s1 c1
                   (fun s2 c2 =>
                      run (Group 2 (seqs [some digit; Chr "."; some digit])) s2 c2
                        (fun s3 c3 =>
                           run (lit " fps, ") s3 c3
                             (fun s4 c4 =>
                                run (Group 3 (seqs [some digit; Chr "."; some digit])) s4 c4
                                  (fun s5 c5 => run (lit " kb/s") s5 c5 k)))))).
    apply digits_group; [assumption|reflexivity|].
    rewrite lit_prefix by reflexivity.
    apply decimal_group; [assumption|assumption|reflexivity|].
    rewrite lit_prefix by reflexivity.
    apply decimal_group; [assumption|assumption|reflexivity|].
    rewrite lit_prefix by reflexivity. reflexivity. }
  split; [exact E|]. unfold sample_of. rewrite E. reflexivity.
Qed.

Lemma x265_line_parsed_witness :
  let l := CR ++ x265_line "1200" "23" "97" "2000" "00" ++ ", eta 0:00:10" in
  exec X265_REGEX l = Some [(3%nat, "2000" ++ "." ++ "00"); (2%nat, "23" ++ "." ++ "97");
                            (1%nat, "1200")]
  /\ sample_of l = Some (Number ("23" ++ "." ++ "97")).
Proof.
  apply (x265_line_parsed CR "1200" "23" "97" "2000" "00" ", eta 0:00:10");
    reflexivity.
Defined.

(* ================================================================== *)
(** * Sidecars and the processes that wrote them *)
(* ================================================================== *)

Lemma written_by_more (h : host) (o : option string) (tool : string)
    (mk : string -> list value) (t rest : list event) :
  written_by h o tool mk t -> written_by h o tool mk (t ++ rest).
Proof.
  destruct o as [name|]; [|trivial]. simpl. rewrite spawned_app.
  intros H. apply in_or_app. now left.
Qed.

Lemma linked_more (h : host) (p : paths) (t rest : list event) :
  linked h p t -> linked h p (t ++ rest).
Proof.
  intros [A B]. split; now apply written_by_more.
Qed.

Lemma linked_grows {A} (h : host) (m : M A) (p : paths) (s : state) (a : A) (s1 : state) :
  grows m -> m s = (Done a, s1) -> linked h p (trace s) -> linked h p (trace s1).
Proof.
  intros G E L. destruct (G s) as [rest R]. rewrite E in R. simpl in R.
  rewrite R. now apply linked_more.
Qed.

Lemma hdr_master_linked (h : host) e st s st1 s1 :
  hdr_master e st s = (Done st1, s1) ->
  linked h (hpaths st) (trace s) -> linked h (hpaths st1) (trace s1).
Proof.
  intros E L. pose proof (hdr_master_exact e st s st1 s1 E) as X.
  assert (P : hpaths st1 = hpaths st) by (rewrite X; reflexivity). rewrite P.
  apply (linked_grows h (hdr_master e st) _ s st1 s1); [|exact E|exact L].
  unfold hdr_master, log. grow.
Qed.

Lemma hdr_cll_linked (h : host) e st s st1 s1 :
  hdr_cll e st s = (Done st1, s1) ->
  linked h (hpaths st) (trace s) -> linked h (hpaths st1) (trace s1).
Proof.
  intros E L. pose proof (hdr_cll_exact e st s st1 s1 E) as X.
  assert (P : hpaths st1 = hpaths st) by (rewrite X; reflexivity). rewrite P.
  apply (linked_grows h (hdr_cll e st) _ s st1 s1); [|exact E|exact L].
  unfold hdr_cll. grow.
Qed.

Lemma hdr_dovi_linked (h : host) v e st s st1 s1 :
  hdr_dovi h v e st s = (Done (inr st1), s1) ->
  linked h (hpaths st) (trace s) -> linked h (hpaths st1) (trace s1).
Proof.
  unfold hdr_dovi. destruct (find e _) as [t|].
  - destruct (negb (done2 st)).
    + destruct s as [tr n].
      cbv [bind ret log emit generate_temp_name ff_xtract spawn trace nrand].
      cbn [set_dv input]. destruct (truthy _); intros E; [discriminate|].
      injection E as <- <-. intros [_ B]. cbn [hpaths trace]. split.
      * cbn [written_by set_dv dv]. rewrite <- !app_assoc, spawned_app.
        apply in_or_app. right. cbn [spawned app]. right. left. reflexivity.
      * cbn [set_dv plus]. rewrite <- !app_assoc. now apply written_by_more.
    + intros E. injection E as <- <-. trivial.
  - intros E. injection E as <- <-. trivial.
Qed.

Lemma hdr_plus_linked (h : host) v e st s st1 s1 :
  hdr_plus h v e st s = (Done (inr st1), s1) ->
  linked h (hpaths st) (trace s) -> linked h (hpaths st1) (trace s1).
Proof.
  unfold hdr_plus. destruct (find e _) as [t|].
  - destruct (negb (done3 st)).
    + destruct s as [tr n].
      cbv [bind ret log emit generate_temp_name ff_xtract spawn trace nrand].
      cbn [set_plus input]. destruct (truthy _); intros E; [discriminate|].
      injection E as <- <-. intros [A _]. cbn [hpaths trace]. split.
      * cbn [set_plus dv]. rewrite <- !app_assoc. now apply written_by_more.
      * cbn [written_by set_plus plus]. rewrite <- !app_assoc, spawned_app.
        apply in_or_app. right. cbn [spawned app]. right. left. reflexivity.
    + intros E. injection E as <- <-. trivial.
  - intros E. injection E as <- <-. trivial.
Qed.

Lemma hdr_blocks_linked (h : host) v e st s st4 s4 :
  hdr_blocks h v e st s = (Done (inr st4), s4) ->
  linked h (hpaths st) (trace s) -> linked h (hpaths st4) (trace s4).
Proof.
  unfold hdr_blocks, bind.
  destruct (hdr_master e st s) as [[st1| |] s1] eqn:E1; try discriminate.
  destruct (hdr_cll e st1 s1) as [[st2| |] s2] eqn:E2; try discriminate.
  destruct (hdr_dovi h v e st2 s2) as [[[x|st3]| |] s3] eqn:E3; try discriminate.
  intros E4 L.
  apply (hdr_plus_linked h v e st3 s3 st4 s4 E4).
  apply (hdr_dovi_linked h v e st2 s2 st3 s3 E3).
  apply (hdr_cll_linked h e st1 s1 st2 s2 E2).
  apply (hdr_master_linked h e st s st1 s1 E1). exact L.
Qed.

(** X27: the sidecars a scan leaves in the paths are the files its
    extractors were told to write.  After a scan that resolves, started
    with no sidecar set, a Dolby Vision sidecar that is set is the
    output named in the arguments of an extractor process the scan
    started, and likewise the HDR10+ sidecar; these are the files the
    injection stage later reads and removes. *)
Theorem pre_hdr_sidecars_written (h : host) (st : stream) (fr : frame) (p : paths)
    (v : bool) (s : state) (o : list string) (p' : paths) (s' : state) :
  pre_hdr h st fr p v s = (Done (o, p'), s') ->
  dv p = None -> plus p = None ->
  (forall name, dv p' = Some name ->
     In (DOVI_TOOL h, extract_rpu_args name) (spawned (trace s')))
  /\ (forall name, plus p' = Some name ->
        In (HDR10PLUS_TOOL h, extract_plus_args name) (spawned (trace s'))).
Proof.
  intros H D P. apply pre_hdr_resolved in H as (st1 & s1 & st2 & E1 & E2 & _ & ->).
  assert (L : linked h (hpaths st2) (trace s')).
  { apply (hdr_blocks_linked h v _ st1 s1 st2 s' E2).
    apply (hdr_blocks_linked h v _ _ s st1 s1 E1).
    cbn [hpaths]. unfold linked. now rewrite D, P. }
  destruct L as [A B]. split; intros name N.
  - now rewrite N in A.
  - now rewrite N in B.
Qed.

Lemma pre_hdr_sidecars_written_witness :
  (forall name,
     dv (set_plus (job_paths None None) "/work/.hdrsucks-000000.json") = Some name ->
     In (DOVI_TOOL quiet_host, extract_rpu_args name)
        (spawned (trace (snd (pre_hdr quiet_host cll_stream frame_with_mastering
                                (job_paths None None) false start)))))
  /\ (forall name,
        plus (set_plus (job_paths None None) "/work/.hdrsucks-000000.json") = Some name ->
        In (HDR10PLUS_TOOL quiet_host, extract_plus_args name)
           (spawned (trace (snd (pre_hdr quiet_host cll_stream frame_with_mastering
                                   (job_paths None None) false start))))).
Proof.
  apply (pre_hdr_sidecars_written quiet_host cll_stream frame_with_mastering
           (job_paths None None) false start
           ["--max-cll"; "1000,400"; "--master-display";
            "G(25000,25000)B(25000,25000)R(25000,25000)WP(25000,25000)L(5000,5000)"]
           (set_plus (job_paths None None) "/work/.hdrsucks-000000.json")
           (snd (pre_hdr quiet_host cll_stream frame_with_mastering
                   (job_paths None None) false start))).
  - vm_compute. reflexivity.
  - reflexivity.
  - reflexivity.
Defined.

(* ================================================================== *)
(** * The arguments of the multiplexer *)
(* ================================================================== *)

Lemma nth_error_middle {A} (pre : list A) (x : A) (post : list A) :
  nth_error (pre ++ x :: post) (List.length pre) = Some x.
Proof.
  induction pre as [|y pre IH]; [reflexivity|exact IH].
Qed.

Lemma audio_track_args_from (p : paths) (auds : list track_tags) :
  forall pre names,
  audio_temp p = (pre ++ names)%list -> List.length names = List.length auds ->
  audio_track_args p (List.length pre) auds = flat_map audio_track (combine auds names).
Proof.
  induction auds as [|t auds IH]; intros pre names A L; [reflexivity|].
  destruct names as [|n names]; [discriminate|].
  cbn [audio_track_args combine flat_map]. unfold audio_temp_at.
  rewrite A, nth_error_middle.
  specialize (IH (pre ++ [n])%list names).
  rewrite length_app, Nat.add_1_r in IH. rewrite IH.
  - unfold audio_track at 1. cbn [fst snd]. rewrite <- ?app_assoc. reflexivity.
  - rewrite A, <- app_assoc. reflexivity.
  - simpl in L. lia.
Qed.

(** X28: the layout of the multiplexer's arguments when there are as
    many audio files as audio tag sets: output, the flags of the video
    track and the transcoded video, then for every audio track its
    flags followed by its own file, in order, then --no-audio if there
    is any audio track, and last --no-video and the input, so that
    from the source only what is neither video nor (when replaced)
    audio is taken. *)
Theorem mkv_args_tracks (p : paths) (t : track_tags) (auds : list track_tags) :
  List.length (audio_temp p) = List.length auds ->
  mkv_args p t auds
  = (strs ["-o"; output p] ++ track_flags t ++ strs [temp p]
     ++ flat_map audio_track (combine auds (audio_temp p))
     ++ (if (0 <? List.length auds)%nat then strs ["--no-audio"] else [])
     ++ strs ["--no-video"; input p])%list.
Proof.
  intros L. unfold mkv_args.
  destruct auds as [|a auds].
  - reflexivity.
  - cbn [List.length Nat.ltb Nat.leb].
    change (audio_track_args p 0 (a :: auds))
      with (audio_track_args p (List.length (@nil string)) (a :: auds)).
    rewrite (audio_track_args_from p (a :: auds) [] (audio_temp p) eq_refl L).
    rewrite <- ?app_assoc. reflexivity.
Qed.

Lemma mkv_args_tracks_witness :
  let p := with_audio (job_paths None None) ["/work/a0.opus"; "/work/a1.opus"] in
  let t := tags_of (bare_stream VUndefined None) in
  mkv_args p t (map tags_of two_tracks)
  = (strs ["-o"; output p] ++ track_flags t ++ strs [temp p]
     ++ flat_map audio_track (combine (map tags_of two_tracks) (audio_temp p))
     ++ (if (0 <? List.length (map tags_of two_tracks))%nat
         then strs ["--no-audio"] else [])
     ++ strs ["--no-video"; input p])%list.
Proof.
  exact (mkv_args_tracks
           (with_audio (job_paths None None) ["/work/a0.opus"; "/work/a1.opus"])
           (tags_of (bare_stream VUndefined None)) (map tags_of two_tracks) eq_refl).
Defined.


(* ================================================================== *)
(** * The first-occurrence rule of the scan *)
(* ================================================================== *)

Lemma find_leading (k : kind) (l1 l2 : list side_data) (r : side_data) :
  has_kind k r = true -> forallb (fun b => negb (has_kind k b)) l1 = true ->
  find (Some (l1 ++ r :: l2)%list) (kind_name k) = Some r.
Proof.
  intros R N. rewrite find_list. induction l1 as [|a l1 IH].
  - simpl. fold (has_kind k r). now rewrite R.
  - simpl in N. apply andb_true_iff in N as [A N].
    simpl. fold (has_kind k a). destruct (has_kind k a); [discriminate|].
    now apply IH.
Qed.

(** C1: the scan takes the stream-level collection first and the
    frame-level one second, and records the first occurrence of each
    kind.  Within a collection the record found for a kind is the first
    one of that kind.  A scan that resolves has recorded exactly the
    first occurrences: its tokens are the mastering display and the
    content light level of the stream, then those of the frame for the
    kinds the stream does not carry; the Dolby Vision and the HDR10+
    sidecar are set exactly when they were set before or the stream or
    the frame carries a record of the kind, and a sidecar set by the
    scan is the file an extractor it started was told to write.  Later
    occurrences are ignored: what the scan of a stream alone does is
    the first part of what the scan of the stream and a frame does;
    when the stream carries a record of a kind, frames that differ only
    in records of that kind give the same result and the same effects;
    and collections that differ only in records of a kind after the
    first one, on the stream or on the frame, give the same result and
    the same effects. *)
Theorem pre_hdr_first_occurrence (h : host) (k : kind) (p : paths) (v : bool)
    (s : state) :
  (forall l1 r l2,
     has_kind k r = true -> forallb (fun b => negb (has_kind k b)) l1 = true ->
     find (Some (l1 ++ r :: l2)%list) (kind_name k) = Some r)
  /\ (forall st fr o p' s',
        pre_hdr h st fr p v s = (Done (o, p'), s') ->
        o = (master_tokens (find (stream_side_data_list st) (kind_name Mastering))
             ++ cll_tokens (find (stream_side_data_list st) (kind_name ContentLight))
             ++ master_tokens (late Mastering st fr)
             ++ cll_tokens (late ContentLight st fr))%list
        /\ is_set (dv p')
           = is_set (dv p) || found DolbyVision (stream_side_data_list st)
             || found DolbyVision (frame_side_data_list fr)
        /\ is_set (plus p')
           = is_set (plus p) || found HDR10Plus (stream_side_data_list st)
             || found HDR10Plus (frame_side_data_list fr)
        /\ (dv p = None -> plus p = None ->
            (forall name, dv p' = Some name ->
               In (DOVI_TOOL h, extract_rpu_args name) (spawned (trace s')))
            /\ (forall name, plus p' = Some name ->
                  In (HDR10PLUS_TOOL h, extract_plus_args name) (spawned (trace s')))))
  /\ (forall st fr,
        exists rest,
          trace (snd (pre_hdr h st fr p v s))
          = (trace (snd (pre_hdr h st plain_frame p v s)) ++ rest)%list)
  /\ (forall st fr fr',
        find (stream_side_data_list st) (kind_name k) <> None ->
        without k (frame_side_data_list fr) = without k (frame_side_data_list fr') ->
        pre_hdr h st fr p v s = pre_hdr h st fr' p v s)
  /\ (forall st st' fr,
        same_first k (stream_side_data_list st) (stream_side_data_list st') ->
        pre_hdr h st fr p v s = pre_hdr h st' fr p v s)
  /\ (forall st fr fr',
        same_first k (frame_side_data_list fr) (frame_side_data_list fr') ->
        pre_hdr h st fr p v s = pre_hdr h st fr' p v s).
Proof.
  split; [|split; [|exact (pre_hdr_later_records h k p v s)]].
  - intros l1 r l2. apply find_leading.
  - intros st fr o p' s' H.
    apply pre_hdr_resolved in H as (st1 & s1 & st2 & E1 & E2 & -> & ->).
    pose proof (hdr_blocks_linked h v _ _ s st1 s1 E1) as L1.
    pose proof (hdr_blocks_linked h v _ st1 s1 st2 s' E2) as L2.
    apply hdr_blocks_exact in E1 as (F1 & O1 & _ & _ & _ & _ & D1 & P1).
    apply hdr_blocks_exact in E2 as (_ & O2 & _ & _ & _ & _ & D2 & P2).
    cbn [hpaths done0 done1 done2 done3 out negb andb app] in *.
    pose proof (F1 Mastering) as FM. pose proof (F1 ContentLight) as FC.
    pose proof (F1 DolbyVision) as FD. pose proof (F1 HDR10Plus) as FP.
    cbn [done_flag done0 done1 done2 done3 orb] in FM, FC, FD, FP.
    split; [|split; [|split]].
    + rewrite O2, O1, FM, FC. unfold late. rewrite <- !app_assoc.
      destruct (found Mastering _); destruct (found ContentLight _); reflexivity.
    + rewrite D2, D1, FD.
      destruct (is_set (dv p)); destruct (found DolbyVision (stream_side_data_list st));
        destruct (found DolbyVision (frame_side_data_list fr)); reflexivity.
    + rewrite P2, P1, FP.
      destruct (is_set (plus p)); destruct (found HDR10Plus (stream_side_data_list st));
        destruct (found HDR10Plus (frame_side_data_list fr)); reflexivity.
    + intros Dv Pl.
      assert (L : linked h (hpaths st2) (trace s')).
      { apply L2, L1. unfold linked. now rewrite Dv, Pl. }
      destruct L as [A B]. split; intros name N.
      * now rewrite N in A.
      * now rewrite N in B.
Qed.

Lemma pre_hdr_first_occurrence_witness :
  ["--master-display";
   "G(8500,39850)B(6550,2300)R(35400,14600)WP(15635,16450)L(10000000,50)";
   "--max-cll"; "1000,400"]
  = (master_tokens (find (stream_side_data_list hdr_stream) (kind_name Mastering))
     ++ cll_tokens (find (stream_side_data_list hdr_stream) (kind_name ContentLight))
     ++ master_tokens (late Mastering hdr_stream frame_with_mastering)
     ++ cll_tokens (late ContentLight hdr_stream frame_with_mastering))%list
  /\ pre_hdr quiet_host hdr_stream frame_with_mastering (job_paths None None) false start
     = pre_hdr quiet_host hdr_stream frame_without_mastering (job_paths None None) false
         start.
Proof.
  split.
  - refine (proj1 (proj1 (proj2 (pre_hdr_first_occurrence quiet_host Mastering
                                   (job_paths None None) false start))
                     hdr_stream frame_with_mastering
                     ["--master-display";
                      "G(8500,39850)B(6550,2300)R(35400,14600)WP(15635,16450)L(10000000,50)";
                      "--max-cll"; "1000,400"]
                     (job_paths None (Some "/work/.hdrsucks-000000.json"))
                     (snd (pre_hdr quiet_host hdr_stream frame_with_mastering
                             (job_paths None None) false start)) _)).
    vm_compute. reflexivity.
  - apply (proj1 (proj2 (proj2 (proj2 (pre_hdr_first_occurrence quiet_host Mastering
                                         (job_paths None None) false start))))).
    + vm_compute. intros H. discriminate H.
    + vm_compute. reflexivity.
Defined.
